(** * ABCRaster: binary raster validation

    A shallow embedding of [validate] from
    [raster_binary_validation/validation.py] (and of its twin in
    [raster_binary_validation/worker.py]), together with the properties
    of the confusion classifier and of the metrics engine.

    Layout: the numpy fragment used by the code, the store holding the
    caller's arrays, the arithmetic of the metrics as the machine
    computes it (int64 counts, binary64 floats), the two [validate]
    functions, the formulas as the specification words them, and then the
    theorems. *)

From Stdlib Require Import ZArith List Bool Lia Reals Lra.
From Stdlib Require Import Floats.SpecFloat.
From Stdlib Require String Ascii.
Import ListNotations.
Import String.StringSyntax Ascii.AsciiSyntax.

Delimit Scope string_scope with string.
Delimit Scope char_scope with char.
Bind Scope string_scope with String.string.
Bind Scope char_scope with Ascii.ascii.

Local Open Scope Z_scope.

(* ================================================================= *)
(** * The numpy fragment *)

Module NumPy.

(** Integer element types of a raster band.  [int8] is left out: the
    code stores 255 into its arrays, which that type cannot hold. *)
Inductive dtype := uint8 | int16 | uint16 | int32 | uint32 | int64 | uint64.

Definition bits (t : dtype) : Z :=
  match t with
  | uint8 => 8
  | int16 | uint16 => 16
  | int32 | uint32 => 32
  | int64 | uint64 => 64
  end.

Definition signed (t : dtype) : bool :=
  match t with
  | int16 | int32 | int64 => true
  | uint8 | uint16 | uint32 | uint64 => false
  end.

(** Array arithmetic wraps around silently in the element type. *)
Definition wrap (t : dtype) (z : Z) : Z :=
  if signed t
  then (z + 2 ^ (bits t - 1)) mod 2 ^ bits t - 2 ^ (bits t - 1)
  else z mod 2 ^ bits t.

(** A grid is kept flattened, row after row; every operation of
    [validate] is elementwise, so the number of axes plays no role. *)
Definition ndarray := list Z.
Definition boolarray := list bool.

Definition same_shape {A B : Type} (a : list A) (b : list B) : bool :=
  Nat.eqb (length a) (length b).

Definition map2 {A B C : Type} (f : A -> B -> C) (a : list A) (b : list B)
  : list C :=
  map (fun p => f (fst p) (snd p)) (combine a b).

(** [k * a], [k + a] with a Python integer [k], and [a - b]. *)
Definition scalar_mul (t : dtype) (k : Z) (a : ndarray) : ndarray :=
  map (fun x => wrap t (k * x)) a.

Definition scalar_add (t : dtype) (k : Z) (a : ndarray) : ndarray :=
  map (fun x => wrap t (k + x)) a.

Definition subtract (t : dtype) (a b : ndarray) : ndarray :=
  map2 (fun x y => wrap t (x - y)) a b.

(** [a == k] and [a != k]. *)
Definition equal (a : ndarray) (k : Z) : boolarray :=
  map (fun x => Z.eqb x k) a.

Definition not_equal (a : ndarray) (k : Z) : boolarray :=
  map (fun x => negb (Z.eqb x k)) a.

Definition logical_and (a b : boolarray) : boolarray := map2 andb a b.

(** [a[idx] = v] with a boolean index of the shape of [a]. *)
Definition setitem (a : ndarray) (idx : boolarray) (v : Z) : ndarray :=
  map2 (fun x (b : bool) => if b then v else x) a idx.

(** [np.sum(a == k)]: the number of cells equal to [k]. *)
Definition count (k : Z) (a : ndarray) : Z :=
  Z.of_nat (length (filter (fun x => Z.eqb x k) a)).

End NumPy.

Import NumPy.

(* ================================================================= *)
(** * Exceptions and the store of the caller's arrays *)

Inductive exn :=
| ValueError      (* operands of different shapes *)
| IndexError      (* boolean index of another shape than the array *)
| OverflowError.  (* math range error *)

(** The three arrays the caller hands to [validate] are distinct objects
    (each is read from a file of its own in [run]); [validate] works on
    them in place, so they live in a store that is threaded through. *)
Record store := mkStore {
  data : ndarray;
  val_data : ndarray;
  mask : option ndarray
}.

Definition M (A : Type) : Type := store -> (exn + A) * store.

Definition ret {A : Type} (a : A) : M A := fun s => (inr a, s).

Definition raise {A : Type} (e : exn) : M A := fun s => (inl e, s).

Definition bind {A B : Type} (m : M A) (k : A -> M B) : M B :=
  fun s =>
    match m s with
    | (inl e, s') => (inl e, s')
    | (inr a, s') => k a s'
    end.

Definition lift {A : Type} (x : exn + A) : M A :=
  fun s => (x, s).

Definition get : M store := fun s => (inr s, s).

Definition put_data (d : ndarray) : M unit :=
  fun s => (inr tt, mkStore d (val_data s) (mask s)).

Declare Scope monad_scope.
Delimit Scope monad_scope with monad.
Notation "x <- m ;; k" := (bind m (fun x => k))
  (at level 61, m at next level, right associativity) : monad_scope.
Notation "m ;;; k" := (bind m (fun _ => k))
  (at level 61, right associativity) : monad_scope.

(** Shape checks of the array primitives. *)
Definition checked_subtract (t : dtype) (a b : ndarray) : exn + ndarray :=
  if same_shape a b then inr (subtract t a b) else inl ValueError.

Definition checked_setitem (a : ndarray) (idx : boolarray) (v : Z)
  : exn + ndarray :=
  if same_shape a idx then inr (setitem a idx v) else inl IndexError.

Definition checked_logical_and (a b : boolarray) : exn + boolarray :=
  if same_shape a b then inr (logical_and a b) else inl ValueError.

(* ================================================================= *)
(** * Arithmetic of the metrics *)

(** The metrics are computed from the four counts, which [np.sum] returns
    as [np.int64], with integer [+], [*] and [**] and with true division,
    subtraction, [math.log] and [math.exp] on floats.  The code is written
    over this interface; [binary64] below is what the machine does. *)
Class Arith (F : Type) := {
  iadd : Z -> Z -> Z;          (* int64 + int64 *)
  imul : Z -> Z -> Z;          (* int64 * int64 *)
  ipow : Z -> Z -> Z;          (* int64 ** int *)
  of_int : Z -> F;             (* an integer operand taken to float64 *)
  fsub : F -> F -> F;
  fdiv : F -> F -> F;          (* true division, never raises in numpy *)
  math_log_half : F;           (* math.log(0.5) *)
  math_exp : F -> exn + F      (* math.exp *)
}.

Module Binary64.

Definition prec : Z := 53.
Definition emax : Z := 1024.

Definition float64 := spec_float.

Definition nan : float64 := S754_nan.
Definition one : float64 := S754_finite false 4503599627370496 (-52).


Definition is_finite (x : float64) : bool :=
  match x with S754_finite _ _ _ | S754_zero _ => true | _ => false end.

(** Two's complement wrap-around of [np.int64] scalar arithmetic. *)
Definition wrap64 (z : Z) : Z := wrap int64 z.

(** Correctly rounded conversion of an integer. *)
Definition float_of_int (z : Z) : float64 :=
  binary_normalize prec emax z 0 false.

(** [math.log(0.5)] is -0x1.62e42fefa39efp-1. *)
Definition log_half : float64 :=
  S754_finite true 6243314768165359 (-53).

(** The largest argument at which [exp] is still finite,
    0x1.62e42fefa39efp+9; [math.exp] raises OverflowError above it. *)
Definition exp_overflow_threshold : float64 :=
  S754_finite false 6243314768165359 (-43).

Definition is_zero (x : float64) : bool :=
  match x with S754_zero _ => true | _ => false end.

Definition is_finite_nonzero (x : float64) : bool :=
  match x with S754_finite _ _ _ => true | _ => false end.

(** [x] carries the sign bit [s], or is not a number. *)
Definition sign_or_nan (s : bool) (x : float64) : bool :=
  match x with
  | S754_nan => true
  | S754_zero s' | S754_infinity s' | S754_finite s' _ _ => eqb s' s
  end.

Section Exp.
(** The value the C library returns for a finite non-zero argument at
    which the exponential does not overflow; not-a-number and the
    infinities pass through as C fixes them, and exp(+-0) is 1. *)
Variable libm_exp : float64 -> float64.

Definition exp (x : float64) : exn + float64 :=
  match x with
  | S754_nan => inr S754_nan
  | S754_infinity false => inr (S754_infinity false)
  | S754_infinity true => inr (S754_zero false)
  | S754_zero _ => inr one
  | S754_finite _ _ _ =>
      if SFltb exp_overflow_threshold x then inl OverflowError
      else inr (libm_exp x)
  end.
End Exp.

(** The real number a finite float stands for: 2^e, and the value of a
    float (zero for what is not a finite number). *)
Definition pow2 (e : Z) : R :=
  if 0 <=? e then IZR (2 ^ e) else (/ IZR (2 ^ (- e)))%R.

Definition value (x : float64) : R :=
  match x with
  | S754_finite s m e => ((if s then -1 else 1) * IZR (Zpos m) * pow2 e)%R
  | _ => 0%R
  end.

(** The mantissa [m], on the grid of step 2^k, is a nearest neighbour of
    the quotient N / D. *)
Definition nearest (N D m k : Z) : Prop :=
  Z.abs (2 * (m * 2 ^ k * D - N)) <= 2 ^ k * D.

(** The float of a rounded mantissa between 2^52 and 2^53, carried into
    the next binade when the rounding reached 2^53. *)
Definition carried (s : bool) (m e : Z) : float64 :=
  if m =? 2 ^ 53 then S754_finite s 4503599627370496 (e + 1)
  else S754_finite s (Z.to_pos m) e.

(** A float with a mantissa of 53 digits and an exponent between [lo]
    and [hi]; such a float or a zero. *)
Definition normal (lo hi : Z) (x : float64) : Prop :=
  match x with
  | S754_finite _ m e => 2 ^ 52 <= Zpos m < 2 ^ 53 /\ lo <= e <= hi
  | _ => False
  end.

Definition normal_or_zero (lo hi : Z) (x : float64) : Prop :=
  match x with
  | S754_zero _ => True
  | _ => normal lo hi x
  end.

End Binary64.

#[export] Instance binary64 (libm_exp : spec_float -> spec_float)
  : Arith spec_float := {
  iadd := fun a b => Binary64.wrap64 (a + b);
  imul := fun a b => Binary64.wrap64 (a * b);
  ipow := fun a n => Binary64.wrap64 (a ^ n);
  of_int := Binary64.float_of_int;
  fsub := SFsub Binary64.prec Binary64.emax;
  fdiv := SFdiv Binary64.prec Binary64.emax;
  math_log_half := Binary64.log_half;
  math_exp := Binary64.exp libm_exp
}.

(* ================================================================= *)
(** * The validation routine *)

(** What [validate] returns. *)
Record output (F : Type) := mkOutput {
  res : ndarray;
  valid : boolarray;
  UA : F;
  PA : F;
  Ce : F;
  Oe : F;
  CSI : F;
  F1 : F;
  SR : F;
  K : F;
  A : F
}.

Arguments mkOutput {F}.
Arguments res {F}.
Arguments valid {F}.
Arguments UA {F}.
Arguments PA {F}.
Arguments Ce {F}.
Arguments Oe {F}.
Arguments CSI {F}.
Arguments F1 {F}.
Arguments SR {F}.
Arguments K {F}.
Arguments A {F}.

Local Open Scope monad_scope.

Module Validation.
Section Validate.
Context {F : Type} {AF : Arith F}.
Variable t : dtype.

(** [validate(data, val_data, mask, data_nodata, val_nodata)] of
    validation.py; the three arrays are those of the store. *)
Definition validate (data_nodata val_nodata : Z) : M (output F) :=
  s <- get ;;
  res <- lift (checked_subtract t
                 (scalar_add t 1 (scalar_mul t 2 (data s))) (val_data s)) ;;
  res <- lift (checked_setitem res (equal (data s) data_nodata) 255) ;;
  res <- lift (checked_setitem res (equal (val_data s) val_nodata) 255) ;;
  res <- match mask s with
         | None => ret res
         | Some m =>
             res <- lift (checked_setitem res (equal m 1) 255) ;;
             d <- lift (checked_setitem (data s) (equal m 1) 255) ;;
             put_data d ;;;
             ret res
         end ;;
  s <- get ;;
  valid <- lift (checked_logical_and (not_equal (val_data s) 255)
                                     (not_equal (data s) 255)) ;;
  let TP := count 2 res in
  let TN := count 1 res in
  let FN := count 0 res in
  let FP := count 3 res in
  let N := iadd (iadd (iadd TP TN) FP) FN in
  let Po := fdiv (of_int (iadd TP TN)) (of_int N) in
  let A := Po in
  let Pe := fdiv (of_int (iadd (imul (iadd TP FN) (iadd TP FP))
                               (imul (iadd FP TN) (iadd FN TN))))
                 (of_int (ipow N 2)) in
  let K := fdiv (fsub Po Pe) (fsub (of_int 1) Pe) in
  let UA := fdiv (of_int TP) (of_int (iadd TP FP)) in
  let PA := fdiv (of_int TP) (of_int (iadd TP FN)) in
  let CSI := fdiv (of_int TP) (of_int (iadd (iadd TP FP) FN)) in
  let F1 := fdiv (of_int (imul 2 TP))
                 (of_int (iadd (iadd (imul 2 TP) FN) FP)) in
  let Ce := fdiv (of_int FP) (of_int (iadd FP TP)) in
  let Oe := fdiv (of_int FN) (of_int (iadd FN TP)) in
  P <- lift (math_exp (fdiv (of_int FP)
                            (fdiv (of_int (iadd TP FN)) math_log_half))) ;;
  let SR := fsub PA (fsub (of_int 1) P) in
  ret (mkOutput res valid UA PA Ce Oe CSI F1 SR K A).
End Validate.
End Validation.

Module Worker.
Section Validate.
Context {F : Type} {AF : Arith F}.
Variable t : dtype.

(** [validate(data, val_data, mask, data_nodata, val_nodata)] of
    worker.py. *)
Definition validate (data_nodata val_nodata : Z) : M (output F) :=
  s <- get ;;
  res <- lift (checked_subtract t
                 (scalar_add t 1 (scalar_mul t 2 (data s))) (val_data s)) ;;
  res <- lift (checked_setitem res (equal (data s) data_nodata) 255) ;;
  res <- lift (checked_setitem res (equal (val_data s) val_nodata) 255) ;;
  res <- match mask s with
         | None => ret res
         | Some m =>
             res <- lift (checked_setitem res (equal m 1) 255) ;;
             d <- lift (checked_setitem (data s) (equal m 1) 255) ;;
             put_data d ;;;
             ret res
         end ;;
  s <- get ;;
  valid <- lift (checked_logical_and (not_equal (val_data s) 255)
                                     (not_equal (data s) 255)) ;;
  let TP := count 2 res in
  let TN := count 1 res in
  let FN := count 0 res in
  let FP := count 3 res in
  let N := iadd (iadd (iadd TP TN) FP) FN in
  let Po := fdiv (of_int (iadd TP TN)) (of_int N) in
  let A := Po in
  let Pe := fdiv (of_int (iadd (imul (iadd TP FN) (iadd TP FP))
                               (imul (iadd FP TN) (iadd FN TN))))
                 (of_int (ipow N 2)) in
  let K := fdiv (fsub Po Pe) (fsub (of_int 1) Pe) in
  let UA := fdiv (of_int TP) (of_int (iadd TP FP)) in
  let PA := fdiv (of_int TP) (of_int (iadd TP FN)) in
  let CSI := fdiv (of_int TP) (of_int (iadd (iadd TP FP) FN)) in
  let F1 := fdiv (of_int (imul 2 TP))
                 (of_int (iadd (iadd (imul 2 TP) FN) FP)) in
  let Ce := fdiv (of_int FP) (of_int (iadd FP TP)) in
  let Oe := fdiv (of_int FN) (of_int (iadd FN TP)) in
  P <- lift (math_exp (fdiv (of_int FP)
                            (fdiv (of_int (iadd TP FN)) math_log_half))) ;;
  let SR := fsub PA (fsub (of_int 1) P) in
  ret (mkOutput res valid UA PA Ce Oe CSI F1 SR K A).
End Validate.
End Worker.

Local Close Scope monad_scope.

(* ================================================================= *)
(** * The metrics of a report, in the arithmetic of the code *)

Module Spec.
Section Formulas.
Context {F : Type} {AF : Arith F}.
Variables TP TN FP FN : Z.

(** Po = A = (TP+TN)/(TP+TN+FP+FN) *)
Definition Po : F :=
  fdiv (of_int (iadd TP TN)) (of_int (iadd (iadd (iadd TP TN) FP) FN)).

Definition A : F := Po.

(** Pe = [(TP+FN)(TP+FP) + (FP+TN)(FN+TN)] / (TP+TN+FP+FN)^2 *)
Definition Pe : F :=
  fdiv (of_int (iadd (imul (iadd TP FN) (iadd TP FP))
                     (imul (iadd FP TN) (iadd FN TN))))
       (of_int (ipow (iadd (iadd (iadd TP TN) FP) FN) 2)).

(** K = (Po - Pe) / (1 - Pe) *)
Definition K : F := fdiv (fsub Po Pe) (fsub (of_int 1) Pe).

(** UA = TP/(TP+FP) *)
Definition UA : F := fdiv (of_int TP) (of_int (iadd TP FP)).

(** PA = TP/(TP+FN) *)
Definition PA : F := fdiv (of_int TP) (of_int (iadd TP FN)).

(** CSI = TP/(TP+FP+FN) *)
Definition CSI : F := fdiv (of_int TP) (of_int (iadd (iadd TP FP) FN)).

(** F1 = 2 TP / (2 TP + FN + FP) *)
Definition F1 : F :=
  fdiv (of_int (imul 2 TP)) (of_int (iadd (iadd (imul 2 TP) FN) FP)).

(** Ce = FP/(FP+TP) *)
Definition Ce : F := fdiv (of_int FP) (of_int (iadd FP TP)).

(** Oe = FN/(FN+TP) *)
Definition Oe : F := fdiv (of_int FN) (of_int (iadd FN TP)).

(** P = exp( FP / ((TP+FN)/ln 0.5) ) *)
Definition P : exn + F :=
  math_exp (fdiv (of_int FP) (fdiv (of_int (iadd TP FN)) math_log_half)).

(** SR = PA - (1 - P) *)
Definition SR (p : F) : F := fsub PA (fsub (of_int 1) p).
End Formulas.

(** The difference code of a cell that is neither nodata nor masked. *)
Definition code (d r : Z) : Z := 1 + 2 * d - r.
End Spec.

(* ================================================================= *)
(** * The formulas of the metrics engine, as the specification gives them *)

(** The formulas of section 4.2 of the specification, read as written:
    the sums, the products and the square are those of the integers,
    whatever their size; a quotient is the binary64 quotient of its two
    integer operands, a difference the binary64 difference. *)
Module Formula.
Import Binary64.
Section Formulas.
Variables TP TN FP FN : Z.

Definition quotient (a b : Z) : spec_float :=
  SFdiv prec emax (float_of_int a) (float_of_int b).

(** Po = A = (TP+TN)/(TP+TN+FP+FN) *)
Definition Po : spec_float := quotient (TP + TN) (TP + TN + FP + FN).

(** Pe = [(TP+FN)(TP+FP) + (FP+TN)(FN+TN)] / (TP+TN+FP+FN)^2 *)
Definition Pe : spec_float :=
  quotient ((TP + FN) * (TP + FP) + (FP + TN) * (FN + TN))
           ((TP + TN + FP + FN) ^ 2).

(** K = (Po - Pe) / (1 - Pe) *)
Definition K : spec_float :=
  SFdiv prec emax (SFsub prec emax Po Pe) (SFsub prec emax one Pe).

(** UA = TP/(TP+FP) *)
Definition UA : spec_float := quotient TP (TP + FP).

(** PA = TP/(TP+FN) *)
Definition PA : spec_float := quotient TP (TP + FN).

(** CSI = TP/(TP+FP+FN) *)
Definition CSI : spec_float := quotient TP (TP + FP + FN).

(** F1 = 2 TP / (2 TP + FN + FP) *)
Definition F1 : spec_float := quotient (2 * TP) (2 * TP + FN + FP).

(** Ce = FP/(FP+TP) *)
Definition Ce : spec_float := quotient FP (FP + TP).

(** Oe = FN/(FN+TP) *)
Definition Oe : spec_float := quotient FN (FN + TP).

(** P = exp( FP / ((TP+FN)/ln 0.5) ) *)
Definition P (libm_exp : spec_float -> spec_float) : exn + spec_float :=
  exp libm_exp
    (SFdiv prec emax (float_of_int FP)
       (SFdiv prec emax (float_of_int (TP + FN)) log_half)).

(** SR = PA - (1 - P) *)
Definition SR (p : spec_float) : spec_float :=
  SFsub prec emax PA (SFsub prec emax one p).
End Formulas.
End Formula.

(* ================================================================= *)
(** * Views of a run, used to state the theorems *)

(** All arrays of the store have one shape. *)
Definition shapes_agree (s : store) : bool :=
  same_shape (data s) (val_data s) &&
  match mask s with
  | None => true
  | Some m => same_shape (data s) m
  end.

(** The data array as a run leaves it. *)
Definition masked_data (s : store) : ndarray :=
  match mask s with
  | None => data s
  | Some m => setitem (data s) (equal m 1) 255
  end.

Definition after_run (s : store) : store :=
  mkStore (masked_data s) (val_data s) (mask s).

(** The difference map of a run. *)
Definition difference (t : dtype) (data_nodata val_nodata : Z) (s : store)
  : ndarray :=
  let r := subtract t (scalar_add t 1 (scalar_mul t 2 (data s))) (val_data s) in
  let r := setitem r (equal (data s) data_nodata) 255 in
  let r := setitem r (equal (val_data s) val_nodata) 255 in
  match mask s with
  | None => r
  | Some m => setitem r (equal m 1) 255
  end.

(** The validity mask of a run. *)
Definition validity (s : store) : boolarray :=
  logical_and (not_equal (val_data s) 255) (not_equal (masked_data s) 255).

(** The exception raised on arrays of different shapes. *)
Definition shape_error (s : store) : exn :=
  if same_shape (data s) (val_data s) then IndexError else ValueError.

(** The report computed from a difference map and a validity mask. *)
Definition report {F : Type} {AF : Arith F} (r : ndarray) (v : boolarray)
  : exn + output F :=
  let TP := count 2 r in
  let TN := count 1 r in
  let FN := count 0 r in
  let FP := count 3 r in
  match Spec.P TP FP FN with
  | inl e => inl e
  | inr p =>
      inr (mkOutput r v
             (Spec.UA TP FP) (Spec.PA TP FN) (Spec.Ce TP FP) (Spec.Oe TP FN)
             (Spec.CSI TP FP FN) (Spec.F1 TP FP FN) (Spec.SR TP FN p)
             (Spec.K TP TN FP FN) (Spec.A TP TN FP FN))
  end.

(** A cell holds one of the four confusion codes. *)
Definition is_confusion_code (c : Z) : bool :=
  (c =? 0) || (c =? 1) || (c =? 2) || (c =? 3).

(** Number of valid cells, and of valid cells holding a confusion code. *)
Definition count_valid (v : boolarray) : Z :=
  Z.of_nat (length (filter (fun b : bool => b) v)).

Definition count_valid_coded (r : ndarray) (v : boolarray) : Z :=
  Z.of_nat (length (filter (fun p => snd p && is_confusion_code (fst p))
                           (combine r v))).

(** Cell [i] of an integer and of a boolean array. *)
Definition cell (a : ndarray) (i : nat) : Z := nth i a 0.
Definition flag (a : boolarray) (i : nat) : bool := nth i a false.

(** Cell [i] is excluded by the mask of the store. *)
Definition excluded (s : store) (i : nat) : bool :=
  match mask s with
  | None => false
  | Some m => cell m i =? 1
  end.

(** The number of cells fits the index type of numpy. *)
Definition size_ok (s : store) : bool :=
  Z.of_nat (length (data s)) <? 2 ^ 63.

(** The square of the number of cells fits [np.int64]: neither the
    products nor the square in Pe wrap around. *)
Definition products_fit (s : store) : bool :=
  Z.of_nat (length (data s)) ^ 2 <? 2 ^ 63.


(* ================================================================= *)
(** * Undefined metrics *)





(** The float [x] is a finite number of [0, 1] within 2^-54 of a / b. *)
Definition rounded_quotient (x : spec_float) (a b : Z) : Prop :=
  Binary64.is_finite x = true /\
  (0 <= Binary64.value x <= 1)%R /\
  (Rabs (Binary64.value x - IZR a / IZR b) <= / IZR (2 ^ 54))%R.

(* ================================================================= *)
(** * Sample runs *)

(** Scenario 1 of the specification, a 2x2 grid without mask. *)
Definition scenario1 : store :=
  mkStore [1; 0; 0; 1] [1; 0; 1; 0] None.

(** Scenario 2: the same grid with the first cell masked out. *)
Definition scenario2 : store :=
  mkStore [1; 0; 0; 1] [1; 0; 1; 0] (Some [1; 0; 0; 0]).

(** A grid with nodata cells on both sides and a mask. *)
Definition sample_nodata : store :=
  mkStore [1; 0; 255; 1; 0] [1; 255; 0; 0; 1] (Some [0; 0; 0; 1; 0]).


(** A grid whose classification uses 7 as its nodata value. *)
Definition sample_nodata7 : store :=
  mkStore [1; 7; 0] [1; 0; 0] None.

(** A grid with its first cell masked out. *)
Definition sample_masked : store :=
  mkStore [0; 1] [0; 1] (Some [1; 0]).

(** Perfect agreement without a single positive cell. *)
Definition sample_all_zero : store :=
  mkStore [0; 0] [0; 0] None.

(** Perfect agreement with both classes present. *)
Definition sample_agreement : store :=
  mkStore [1; 0; 1] [1; 0; 1] None.

(** One true positive and two false positives. *)
Definition sample_thirds : store :=
  mkStore [1; 1; 1] [1; 0; 0] None.


(** A classification with nodata value 7, a reference with nodata value
    255 in its last cell, and the third cell masked out. *)
Definition sample_sentinels : store :=
  mkStore [1; 7; 0; 1] [1; 0; 0; 255] (Some [0; 0; 1; 0]).



(** Where a run is evaluated and the exponential of the C library is not
    reached, or its value does not matter, this function stands for it. *)
Definition sample_libm_exp : spec_float -> spec_float := fun x => x.

(* ================================================================= *)
(** * Paths *)

(** The functions of [os.path] the orchestrators call, in their POSIX
    flavour. *)
Module OsPath.

Definition chars (p : String.string) : list Ascii.ascii :=
  String.list_ascii_of_string p.

(** [p.rfind(c)]: the last index of [c], -1 when it does not occur. *)
Fixpoint rfind_from (c : Ascii.ascii) (l : list Ascii.ascii) (i last : Z)
  : Z :=
  match l with
  | [] => last
  | x :: l' => rfind_from c l' (i + 1) (if Ascii.eqb x c then i else last)
  end.

Definition rfind (c : Ascii.ascii) (p : String.string) : Z :=
  rfind_from c (chars p) 0 (-1).

(** [p[i:]] and [p[:i]] for an index that is not negative. *)
Definition slice_from (p : String.string) (i : Z) : String.string :=
  String.string_of_list_ascii (skipn (Z.to_nat i) (chars p)).

Definition slice_to (p : String.string) (i : Z) : String.string :=
  String.string_of_list_ascii (firstn (Z.to_nat i) (chars p)).

(** [os.path.basename]. *)
Definition basename (p : String.string) : String.string :=
  slice_from p (rfind "/" p + 1).

(** The loop of [splitext] over the characters between the last
    separator and the last dot: true at the first one that is no dot. *)
Fixpoint has_non_dot (l : list Ascii.ascii) : bool :=
  match l with
  | [] => false
  | c :: l' => if negb (Ascii.eqb c ".") then true else has_non_dot l'
  end.

(** [os.path.splitext]: the extension starts at the last dot of the last
    component, leading dots of that component not counting. *)
Definition splitext (p : String.string) : String.string * String.string :=
  let sepIndex := rfind "/" p in
  let dotIndex := rfind "." p in
  if sepIndex <? dotIndex
  then
    if has_non_dot (firstn (Z.to_nat (dotIndex - (sepIndex + 1)))
                      (skipn (Z.to_nat (sepIndex + 1)) (chars p)))
    then (slice_to p dotIndex, slice_from p dotIndex)
    else (p, String.EmptyString)
  else (p, String.EmptyString).

Definition startswith_sep (p : String.string) : bool :=
  match chars p with
  | c :: _ => Ascii.eqb c "/"
  | [] => false
  end.

Definition endswith_sep (p : String.string) : bool :=
  match rev (chars p) with
  | c :: _ => Ascii.eqb c "/"
  | [] => false
  end.

(** [os.path.join] of two components. *)
Definition join (a b : String.string) : String.string :=
  if startswith_sep b then b
  else if String.eqb a String.EmptyString || endswith_sep a
       then String.append a b
       else String.append a (String.append "/" b).

End OsPath.

(* ================================================================= *)
(** * The orchestrators *)

(** What the orchestrators use and this repository's sources do not
    contain: the GeoTIFF reader and writer, the vector library, the
    rasterizer and the raster reader and writer of the package's input
    and output modules, and the CSV writer.  They act on a world of
    files; reading leaves the world as it is. *)
Class Collaborators := {
  world : Type;
  geotransform : Type;
  spatialref : Type;
  vector : Type;
  ioerror : Type;
  (* with GeoTiffFile(path) as src: src.read(), src.geotransform,
     src.spatialref *)
  geotiff_read :
    String.string -> world -> ioerror + (ndarray * geotransform * spatialref);
  (* with GeoTiffFile(path, mode='w', ...) as f: f.write(band, nodata) *)
  geotiff_write :
    String.string -> ndarray -> Z -> geotransform -> spatialref ->
    world -> (ioerror + unit) * world;
  (* read_file and save_file of the package *)
  read_file :
    String.string -> world -> ioerror + (ndarray * geotransform * spatialref);
  save_file :
    String.string -> ndarray -> Z -> geotransform -> spatialref ->
    world -> (ioerror + unit) * world;
  (* ogr.Open *)
  ogr_open : String.string -> world -> vector;
  (* rasterize of the package: the reference as an array on the grid of
     the classification, which it does not modify *)
  rasterize :
    vector -> String.string -> ndarray -> geotransform -> spatialref ->
    String.string -> world -> (ioerror + ndarray) * world;
  (* os.path.exists and DeleteDataSource of the shapefile driver *)
  path_exists : String.string -> world -> bool;
  delete_datasource : String.string -> world -> world
}.

(** A cell of the report table: the file name or a number. *)
Inductive field (F : Type) :=
| Text (s : String.string)
| Number (x : F).

Arguments Text {F}.
Arguments Number {F}.

(** How an orchestrator fails. *)
Inductive failure {C : Collaborators} :=
| Raised (e : exn)                        (* raised inside [validate] *)
| UnsupportedInput (message : String.string)   (* ValueError of [run] *)
| NameError (name : String.string)
| IOFailure (e : ioerror).

Section Orchestrators.
Context {F : Type} {AF : Arith F} {C : Collaborators}.

(** Moreover the writer of the table, [DataFrame(rows, columns).to_csv]. *)
Variable to_csv :
  String.string -> list String.string -> list (list (field F)) ->
  world -> (ioerror + unit) * world.

(** The element type of the rasters read. *)
Variable t : dtype.

Definition IO (A : Type) : Type := world -> (failure + A) * world.

Definition io_ret {A : Type} (a : A) : IO A := fun w => (inr a, w).

Definition io_raise {A : Type} (e : failure) : IO A := fun w => (inl e, w).

Definition io_bind {A B : Type} (m : IO A) (k : A -> IO B) : IO B :=
  fun w =>
    match m w with
    | (inl e, w') => (inl e, w')
    | (inr a, w') => k a w'
    end.

(** A read, which leaves the world alone. *)
Definition reading {A : Type} (r : world -> ioerror + A) : IO A :=
  fun w =>
    match r w with
    | inl e => (inl (IOFailure e), w)
    | inr a => (inr a, w)
    end.

(** A write. *)
Definition writing {A : Type} (f : world -> (ioerror + A) * world) : IO A :=
  fun w =>
    match f w with
    | (inl e, w') => (inl (IOFailure e), w')
    | (inr a, w') => (inr a, w')
    end.

(** A call of a [validate] on freshly read arrays. *)
Definition calling (v : M (output F)) (s : store) : IO (output F) :=
  fun w =>
    match fst (v s) with
    | inl e => (inl (Raised e), w)
    | inr out => (inr out, w)
    end.

Definition checked {A : Type} (x : exn + A) : IO A :=
  fun w =>
    match x with
    | inl e => (inl (Raised e), w)
    | inr a => (inr a, w)
    end.

(** [res.astype(np.uint8)] and [~idx]. *)
Definition astype_uint8 (a : ndarray) : ndarray := map (wrap uint8) a.

Definition logical_not (a : boolarray) : boolarray := map negb a.

(** The columns of the report. *)
Definition columns : list String.string :=
  ["file"; "User's Accuracy/Precision"; "Producer's Accuracy/Recall";
   "Commission Error"; "Omission Error"; "Critical Success Index"; "F1";
   "Success Rate"; "Kappa"; "Accuracy"]%string.

End Orchestrators.

Declare Scope io_scope.
Delimit Scope io_scope with io.
Notation "x <- m ;; k" := (io_bind m (fun x => k))
  (at level 61, m at next level, right associativity) : io_scope.
Notation "m ;;; k" := (io_bind m (fun _ => k))
  (at level 61, right associativity) : io_scope.

(** The report as [run] returns it and as it goes into the table. *)
Definition report_row {F : Type} (file : String.string)
  (UA PA Ce Oe CSI F1 SR K A : F) : list (field F) :=
  [Text file; Number UA; Number PA; Number Ce; Number Oe; Number CSI;
   Number F1; Number SR; Number K; Number A].

Definition report_dict {F : Type} (file : String.string)
  (UA PA Ce Oe CSI F1 SR K A : F) : list (String.string * field F) :=
  [("file", Text file);
   ("User's Accuracy/Precision", Number UA);
   ("Producer's Accuracy/Recall", Number PA);
   ("Commission Error", Number Ce);
   ("Omission Error", Number Oe);
   ("Critical Success Index", Number CSI);
   ("F1", Number F1);
   ("Success Rate", Number SR);
   ("Kappa", Number K);
   ("Accuracy", Number A)]%string.

Local Open Scope io_scope.

(** The orchestrator of validation.py. *)
Module ValidationRun.
Section Run.
Context {F : Type} {AF : Arith F} {C : Collaborators}.
Variable to_csv :
  String.string -> list String.string -> list (list (field F)) ->
  world -> (ioerror + unit) * world.
Variable t : dtype.

(** [delete_shapefile(shp_path)]. *)
Definition delete_shapefile (shp_path : String.string) : IO unit :=
  fun w =>
    if path_exists shp_path w
    then (inr tt, delete_datasource shp_path w)
    else (inr tt, w).

(** [run(ras_data_filepath, v_val_data_filepath, out_dirpath,
    diff_ras_out_filename, v_reprojected_filename, v_rasterized_filename,
    out_csv_filename, ex_filepath, delete_tmp_files)]; a missing
    [out_csv_filename] or [ex_filepath] is Python's None. *)
Definition run
  (ras_data_filepath v_val_data_filepath out_dirpath : String.string)
  (diff_ras_out_filename v_reprojected_filename v_rasterized_filename
     : String.string)
  (out_csv_filename ex_filepath : option String.string)
  (delete_tmp_files : bool)
  : IO (list (String.string * field F)) :=
  src <- reading (geotiff_read ras_data_filepath) ;;
  let '(input_data, gt, sref) := src in
  ex_data <- match ex_filepath with
             | None => io_ret None
             | Some p =>
                 src <- reading (geotiff_read p) ;;
                 io_ret (Some (fst (fst src)))
             end ;;
  let val_file_ext :=
    snd (OsPath.splitext (OsPath.basename v_val_data_filepath)) in
  val_data <-
    (if String.eqb val_file_ext ".shp"
     then
       let vec_ds := ogr_open v_val_data_filepath in
       let v_rasterized_path :=
         OsPath.join out_dirpath v_rasterized_filename in
       let v_reprojected_path :=
         OsPath.join out_dirpath v_reprojected_filename in
       val_data <- (fun w => writing (rasterize (vec_ds w) v_rasterized_path
                                        input_data gt sref
                                        v_reprojected_path) w) ;;
       (if delete_tmp_files
        then delete_shapefile v_rasterized_path ;;;
             delete_shapefile v_reprojected_path
        else io_ret tt) ;;;
       io_ret val_data
     else if String.eqb val_file_ext ".tif"
     then
       src <- reading (geotiff_read v_val_data_filepath) ;;
       io_ret (fst (fst src))
     else
       io_raise (UnsupportedInput
                   (String.append "Input file with extension "
                      (String.append val_file_ext " is not supported.")))) ;;
  out <- calling (Validation.validate t 255 255)
           (mkStore input_data val_data ex_data) ;;
  let '(mkOutput res idx UA PA Ce Oe CSI F1 SR K A) := out in
  let res := astype_uint8 res in
  res <- checked (checked_setitem res (logical_not idx) 255) ;;
  let diff_ras_out_path := OsPath.join out_dirpath diff_ras_out_filename in
  writing (geotiff_write diff_ras_out_path res 255 gt sref) ;;;
  let input_base_filename := OsPath.basename v_val_data_filepath in
  match out_csv_filename with
  | Some f =>
      let out_csv_path := OsPath.join out_dirpath f in
      writing (to_csv out_csv_path columns
                 [report_row input_base_filename
                    UA PA Ce Oe CSI F1 SR K A])
  | None => io_ret tt
  end ;;;
  io_ret (report_dict input_base_filename UA PA Ce Oe CSI F1 SR K A).

End Run.
End ValidationRun.

(** The orchestrators of worker.py. *)
Module WorkerRun.
Section Run.
Context {F : Type} {AF : Arith F} {C : Collaborators}.
Variable to_csv :
  String.string -> list String.string -> list (list (field F)) ->
  world -> (ioerror + unit) * world.
Variable t : dtype.

(** [run(ras_data_filepath, v_val_data_filepath, diff_ras_out_filepath,
    v_reprojected_filepath, v_rasterized_filepath, out_csv_filepath,
    ex_filepath)]; it returns nothing. *)
Definition run
  (ras_data_filepath v_val_data_filepath : String.string)
  (diff_ras_out_filepath v_reprojected_filepath v_rasterized_filepath
     out_csv_filepath : String.string)
  (ex_filepath : option String.string)
  : IO unit :=
  let vec_ds := ogr_open v_val_data_filepath in
  fun w0 =>
  (src <- reading (read_file ras_data_filepath) ;;
   let '(flood_data, gt, sref) := src in
   ex_data <- match ex_filepath with
              | None => io_ret None
              | Some p =>
                  src <- reading (read_file p) ;;
                  io_ret (Some (fst (fst src)))
              end ;;
   val_data <- writing (rasterize (vec_ds w0) v_rasterized_filepath
                          flood_data gt sref v_reprojected_filepath) ;;
   out <- calling (Worker.validate t 255 255)
            (mkStore flood_data val_data ex_data) ;;
   let '(mkOutput res idx UA PA Ce Oe CSI F1 SR K A) := out in
   let res := astype_uint8 res in
   res <- checked (checked_setitem res (logical_not idx) 255) ;;
   writing (save_file diff_ras_out_filepath res 255 gt sref) ;;;
   writing (to_csv out_csv_filepath columns
              [report_row "result 1" UA PA Ce Oe CSI F1 SR K A])) w0.

(** [validate_raster(in_filepath, val_filepath, results_filepath,
    exclusion_filepath)].  Its last statement returns [file_name], a name
    bound nowhere in the module. *)
Definition validate_raster
  (in_filepath val_filepath results_filepath : String.string)
  (exclusion_filepath : option String.string)
  : IO (String.string * list F) :=
  src <- reading (read_file in_filepath) ;;
  let '(data, gt, sref) := src in
  src_val <- reading (read_file val_filepath) ;;
  let val_data := fst (fst src_val) in
  exclusion_data <- match exclusion_filepath with
                    | None => io_ret None
                    | Some p =>
                        src <- reading (read_file p) ;;
                        io_ret (Some (fst (fst src)))
                    end ;;
  out <- calling (Worker.validate t 255 255)
           (mkStore data val_data exclusion_data) ;;
  let '(mkOutput res idx UA PA Ce Oe CSI F1 SR K A) := out in
  writing (save_file results_filepath res 255 gt sref) ;;;
  file_name <- io_raise (NameError "file_name") ;;
  io_ret (file_name, [UA; PA; Ce; Oe; CSI; F1; SR; K; A]).

End Run.
End WorkerRun.

Local Close Scope io_scope.

(** A world kept in memory, to run the orchestrators on: the raster
    files by path, and the paths of the tables written. *)
Definition memory_world : Type :=
  list (String.string * ndarray) * list String.string.

Fixpoint lookup_file (p : String.string)
  (files : list (String.string * ndarray)) : option ndarray :=
  match files with
  | [] => None
  | (q, a) :: rest => if String.eqb p q then Some a else lookup_file p rest
  end.

Definition memory_read (p : String.string) (w : memory_world)
  : unit + (ndarray * unit * unit) :=
  match lookup_file p (fst w) with
  | Some a => inr (a, tt, tt)
  | None => inl tt
  end.

Definition memory_write (p : String.string) (a : ndarray) (nodata : Z)
  (gt sref : unit) (w : memory_world) : (unit + unit) * memory_world :=
  (inr tt, ((p, a) :: fst w, snd w)).

#[export] Instance memory : Collaborators := {
  world := memory_world;
  geotransform := unit;
  spatialref := unit;
  vector := option ndarray;
  ioerror := unit;
  geotiff_read := memory_read;
  geotiff_write := memory_write;
  read_file := memory_read;
  save_file := memory_write;
  ogr_open := fun p w => lookup_file p (fst w);
  rasterize := fun v p a gt sref q w =>
    match v with
    | Some r => (inr r, ((p, r) :: fst w, snd w))
    | None => (inl tt, w)
    end;
  path_exists := fun p w =>
    match lookup_file p (fst w) with Some _ => true | None => false end;
  delete_datasource := fun p w =>
    (filter (fun f => negb (String.eqb p (fst f))) (fst w), snd w)
}.

Definition memory_to_csv {F : Type} (p : String.string)
  (cols : list String.string) (rows : list (list (field F)))
  (w : memory_world) : (unit + unit) * memory_world :=
  (inr tt, (fst w, p :: snd w)).

(** A world with a classification, a raster reference and an exclusion
    layer. *)
Definition sample_world : memory_world :=
  ([("class.tif", [1; 0; 255; 1; 0]);
    ("ref.tif", [1; 255; 0; 0; 1]);
    ("ref.TIF", [1; 255; 0; 0; 1]);
    ("ref.shp", [1; 255; 0; 0; 1]);
    ("ex.tif", [0; 0; 0; 1; 0])]%string, []).

(** Arrays as the orchestrators hand them to [validate]: of one shape,
    over 0, 1 and 255. *)
Definition wellformed (s : store) : Prop :=
  shapes_agree s = true /\ size_ok s = true /\
  Forall (fun d => d = 0 \/ d = 1 \/ d = 255) (data s) /\
  Forall (fun v => v = 0 \/ v = 1 \/ v = 255) (val_data s).

(* ================================================================= *)
(** * Arrays: shapes, cells and counts *)

Section Arrays.
Context {A B C : Type}.

Lemma same_shape_iff (a : list A) (b : list B) :
  same_shape a b = true <-> length a = length b.
Proof. unfold same_shape. apply Nat.eqb_eq. Qed.

Lemma length_map2 (f : A -> B -> C) (a : list A) (b : list B) :
  length (map2 f a b) = Nat.min (length a) (length b).
Proof. unfold map2. now rewrite length_map, length_combine. Qed.

Lemma nth_map2 (f : A -> B -> C) (a : list A) (b : list B) i da db dc :
  (i < length a)%nat -> (i < length b)%nat ->
  nth i (map2 f a b) dc = f (nth i a da) (nth i b db).
Proof.
  revert b i. induction a as [|x a IH]; intros [|y b] i Ha Hb;
    simpl in *; try lia.
  destruct i as [|i]; [reflexivity|].
  apply IH; lia.
Qed.

Lemma map2_cons (f : A -> B -> C) x y (a : list A) (b : list B) :
  map2 f (x :: a) (y :: b) = f x y :: map2 f a b.
Proof. reflexivity. Qed.
End Arrays.

Lemma nth_map_in {A B : Type} (f : A -> B) (a : list A) i da db :
  (i < length a)%nat -> nth i (map f a) db = f (nth i a da).
Proof.
  intros Hi. rewrite (nth_indep _ db (f da)) by now rewrite length_map.
  apply map_nth.
Qed.

Lemma length_equal a k : length (equal a k) = length a.
Proof. apply length_map. Qed.

Lemma length_not_equal a k : length (not_equal a k) = length a.
Proof. apply length_map. Qed.

Lemma length_scalar_mul t k a : length (scalar_mul t k a) = length a.
Proof. apply length_map. Qed.

Lemma length_scalar_add t k a : length (scalar_add t k a) = length a.
Proof. apply length_map. Qed.

Lemma length_subtract t a b :
  length (subtract t a b) = Nat.min (length a) (length b).
Proof. apply length_map2. Qed.

Lemma length_setitem a idx v :
  length (setitem a idx v) = Nat.min (length a) (length idx).
Proof. apply length_map2. Qed.

Lemma length_logical_and a b :
  length (logical_and a b) = Nat.min (length a) (length b).
Proof. apply length_map2. Qed.

Create Rewrite HintDb shape.
#[export] Hint Rewrite length_equal length_not_equal length_scalar_mul
  length_scalar_add length_subtract length_setitem length_logical_and
  : shape.

Ltac shape :=
  repeat match goal with
         | H : same_shape _ _ = true |- _ => apply same_shape_iff in H
         | H : same_shape _ _ = false |- _ => apply Nat.eqb_neq in H
         | |- same_shape _ _ = true => apply same_shape_iff
         | |- same_shape _ _ = false => apply Nat.eqb_neq
         end;
  autorewrite with shape in *; simpl in *; try lia.

Lemma shapes_agree_iff s :
  shapes_agree s = true <->
  length (val_data s) = length (data s) /\
  match mask s with
  | None => True
  | Some m => length m = length (data s)
  end.
Proof.
  unfold shapes_agree. rewrite andb_true_iff, same_shape_iff.
  destruct (mask s); [rewrite same_shape_iff|]; intuition.
Qed.

Lemma length_masked_data s :
  shapes_agree s = true -> length (masked_data s) = length (data s).
Proof.
  intros H. apply shapes_agree_iff in H. unfold masked_data.
  destruct (mask s); shape.
Qed.

Lemma length_difference t dn vn s :
  shapes_agree s = true -> length (difference t dn vn s) = length (data s).
Proof.
  intros H. apply shapes_agree_iff in H. unfold difference.
  destruct (mask s); shape.
Qed.

Lemma length_validity s :
  shapes_agree s = true -> length (validity s) = length (data s).
Proof.
  intros H. unfold validity. rewrite length_logical_and, length_not_equal,
    length_not_equal, length_masked_data by assumption.
  apply shapes_agree_iff in H. lia.
Qed.

(* ================================================================= *)
(** * What a run does, in one equation *)

Section Unfold.
Context {F : Type} {AF : Arith F}.

Lemma validate_unfold t dn vn s :
  Validation.validate t dn vn s =
  if shapes_agree s
  then (report (difference t dn vn s) (validity s), after_run s)
  else (inl (shape_error s), s).
Proof.
  destruct s as [d v m].
  unfold Validation.validate, shapes_agree, shape_error, report,
    difference, validity, after_run, masked_data, bind, lift, get, ret,
    put_data, checked_subtract, checked_setitem, checked_logical_and,
    Spec.P, Spec.UA, Spec.PA, Spec.Ce, Spec.Oe, Spec.CSI, Spec.F1,
    Spec.SR, Spec.K, Spec.A, Spec.Po, Spec.Pe.
  simpl.
  assert (E0 : same_shape (scalar_add t 1 (scalar_mul t 2 d)) v
               = same_shape d v).
  { unfold same_shape. now autorewrite with shape. }
  rewrite E0.
  destruct (same_shape d v) eqn:Edv; simpl; [|reflexivity].
  assert (Hdv : length d = length v) by now apply same_shape_iff.
  replace (same_shape (subtract t (scalar_add t 1 (scalar_mul t 2 d)) v)
             (equal d dn)) with true by (symmetry; shape).
  replace (same_shape
             (setitem (subtract t (scalar_add t 1 (scalar_mul t 2 d)) v)
                (equal d dn) 255) (equal v vn))
    with true by (symmetry; shape).
  destruct m as [m|]; simpl.
  - assert (E1 : same_shape
              (setitem
                 (setitem (subtract t (scalar_add t 1 (scalar_mul t 2 d)) v)
                    (equal d dn) 255) (equal v vn) 255) (equal m 1)
                 = same_shape d m).
    { unfold same_shape. autorewrite with shape. rewrite <- Hdv.
      now rewrite !Nat.min_id. }
    rewrite E1.
    assert (E2 : same_shape d (equal m 1) = same_shape d m).
    { unfold same_shape. now autorewrite with shape. }
    rewrite E2.
    destruct (same_shape d m) eqn:Edm; simpl; [|reflexivity].
    replace (same_shape (not_equal v 255)
               (not_equal (setitem d (equal m 1) 255) 255))
      with true by (symmetry; shape).
    destruct (math_exp _); reflexivity.
  - replace (same_shape (not_equal v 255) (not_equal d 255))
      with true by (symmetry; shape).
    destruct (math_exp _); reflexivity.
Qed.

Lemma worker_validate_unfold t dn vn s :
  Worker.validate t dn vn s = Validation.validate t dn vn s.
Proof. reflexivity. Qed.
End Unfold.

(* ================================================================= *)
(** * Cell by cell *)

Lemma wrap_small t z : 0 <= z < 256 -> wrap t z = z.
Proof.
  intros H. unfold wrap.
  destruct t; cbn [signed bits].
  all: try change (2 ^ 8) with 256.
  all: try (change (2 ^ (16 - 1)) with 32768; change (2 ^ 16) with 65536).
  all: try (change (2 ^ (32 - 1)) with 2147483648;
            change (2 ^ 32) with 4294967296).
  all: try (change (2 ^ (64 - 1)) with 9223372036854775808;
            change (2 ^ 64) with 18446744073709551616).
  all: rewrite Z.mod_small; lia.
Qed.

Lemma wrap_code t d v :
  (d = 0 \/ d = 1) -> (v = 0 \/ v = 1) ->
  wrap t (wrap t (1 + wrap t (2 * d)) - v) = Spec.code d v.
Proof.
  intros Hd Hv. unfold Spec.code.
  rewrite (wrap_small t (2 * d)) by lia.
  rewrite (wrap_small t (1 + 2 * d)) by lia.
  apply wrap_small. lia.
Qed.

Section Cells.
Variables (t : dtype) (dn vn : Z) (s : store) (i : nat).
Hypothesis Hs : shapes_agree s = true.
Hypothesis Hi : (i < length (data s))%nat.

Lemma cell_masked_data :
  cell (masked_data s) i = if excluded s i then 255 else cell (data s) i.
Proof.
  apply shapes_agree_iff in Hs. destruct Hs as [_ Hm].
  unfold masked_data, excluded, cell. destruct (mask s) as [m|]; [|reflexivity].
  unfold setitem. rewrite (nth_map2 _ _ _ _ 0 false) by shape.
  unfold equal. rewrite (nth_map_in _ _ _ 0) by lia. reflexivity.
Qed.

Lemma cell_difference :
  cell (difference t dn vn s) i =
  if excluded s i then 255
  else if cell (val_data s) i =? vn then 255
  else if cell (data s) i =? dn then 255
  else wrap t (wrap t (1 + wrap t (2 * cell (data s) i))
               - cell (val_data s) i).
Proof.
  apply shapes_agree_iff in Hs. destruct Hs as [Hv Hm].
  assert (E : cell (setitem (setitem
               (subtract t (scalar_add t 1 (scalar_mul t 2 (data s)))
                  (val_data s))
               (equal (data s) dn) 255) (equal (val_data s) vn) 255) i =
             if cell (val_data s) i =? vn then 255
             else if cell (data s) i =? dn then 255
             else wrap t (wrap t (1 + wrap t (2 * cell (data s) i))
                          - cell (val_data s) i)).
  { unfold cell, setitem, subtract, equal, scalar_add, scalar_mul.
    rewrite (nth_map2 _ _ _ _ 0 false)
      by (rewrite ?length_map2, ?length_map; lia).
    rewrite (nth_map_in _ _ _ 0) by lia.
    rewrite (nth_map2 _ _ _ _ 0 false)
      by (rewrite ?length_map2, ?length_map; lia).
    rewrite (nth_map_in _ _ _ 0) by lia.
    rewrite (nth_map2 _ _ _ _ 0 0)
      by (rewrite ?length_map2, ?length_map; lia).
    rewrite (nth_map_in _ _ _ 0) by (rewrite ?length_map; lia).
    rewrite (nth_map_in _ _ _ 0) by lia.
    reflexivity. }
  unfold difference, excluded. destruct (mask s) as [m|]; [|exact E].
  unfold cell at 1. unfold setitem at 1.
  rewrite (nth_map2 _ _ _ _ 0 false) by shape.
  unfold equal at 1. rewrite (nth_map_in _ _ _ 0) by lia.
  fold (cell m i). destruct (cell m i =? 1); [reflexivity|exact E].
Qed.

Lemma flag_validity :
  flag (validity s) i =
  negb (cell (val_data s) i =? 255) && negb (cell (masked_data s) i =? 255).
Proof.
  pose proof (length_masked_data s Hs) as Hl.
  apply shapes_agree_iff in Hs. destruct Hs as [Hv Hm].
  unfold flag, validity, logical_and, not_equal.
  rewrite (nth_map2 _ _ _ _ false false) by (rewrite ?length_map; lia).
  rewrite (nth_map_in _ _ _ 0) by lia.
  rewrite (nth_map_in _ _ _ 0) by lia.
  reflexivity.
Qed.
End Cells.

(* ================================================================= *)
(** * Facts of binary64 arithmetic *)

Module Binary64Facts.
Import Binary64.

Abbreviation fdiv64 := (SFdiv prec emax).
Abbreviation fsub64 := (SFsub prec emax).

Lemma wrap64_small z : - 2 ^ 63 <= z < 2 ^ 63 -> wrap64 z = z.
Proof.
  intros H. unfold wrap64, wrap. cbn [signed bits].
  change (2 ^ (64 - 1)) with 9223372036854775808 in *.
  change (2 ^ 63) with 9223372036854775808 in *.
  change (2 ^ 64) with 18446744073709551616.
  rewrite Z.mod_small; lia.
Qed.

Lemma wrap64_range z : - 2 ^ 63 <= wrap64 z < 2 ^ 63.
Proof.
  unfold wrap64, wrap. cbn [signed bits].
  change (2 ^ (64 - 1)) with 9223372036854775808 in *.
  change (2 ^ 63) with 9223372036854775808 in *.
  change (2 ^ 64) with 18446744073709551616.
  pose proof (Z.mod_pos_bound (z + 9223372036854775808)
                18446744073709551616 eq_refl).
  lia.
Qed.

(** ** Signs *)

Lemma binary_round_aux_sign s m e l :
  sign_or_nan s (binary_round_aux prec emax s m e l) = true.
Proof.
  unfold binary_round_aux.
  destruct (shr_fexp prec emax m e l) as [mrs' e'].
  destruct (shr_fexp prec emax _ e' loc_Exact) as [mrs'' e''].
  destruct (shr_m mrs''); simpl; [apply eqb_reflx| |reflexivity].
  destruct (_ <=? _); simpl; apply eqb_reflx.
Qed.

Lemma float_of_int_sign z :
  0 <= z -> sign_or_nan false (float_of_int z) = true.
Proof.
  intros H. destruct z as [|p|p]; [reflexivity| |lia].
  unfold float_of_int, binary_normalize, binary_round.
  destruct (shl_align _ _ _) as [mz ez]. apply binary_round_aux_sign.
Qed.

Lemma fdiv_sign sx sy x y :
  sign_or_nan sx x = true -> sign_or_nan sy y = true ->
  sign_or_nan (xorb sx sy) (fdiv64 x y) = true.
Proof.
  destruct x as [s1|s1| |s1 m1 e1], y as [s2|s2| |s2 m2 e2]; simpl;
    intros H1 H2; try reflexivity;
    try (apply eqb_prop in H1; apply eqb_prop in H2; subst;
         apply eqb_reflx).
  apply eqb_prop in H1; apply eqb_prop in H2; subst.
  destruct (SFdiv_core_binary _ _ _ _ _ _) as [[mz ez] lz].
  apply binary_round_aux_sign.
Qed.

(** [math.exp] does not overflow on an argument that is not positive. *)
Lemma exp_nonpositive libm_exp x :
  sign_or_nan true x = true -> exists p, exp libm_exp x = inr p.
Proof.
  destruct x as [s|s| |s m e]; simpl; intros H;
    try (apply eqb_prop in H; subst); eexists; reflexivity.
Qed.

(** ** Division by zero and not-a-number *)

Lemma fdiv_zero_zero : fdiv64 (float_of_int 0) (float_of_int 0) = nan.
Proof. reflexivity. Qed.

Lemma fsub_nan_l y : fsub64 nan y = nan.
Proof. reflexivity. Qed.


(** ** A finite number divided by itself *)

Lemma div_eucl_shift m :
  Z.div_eucl (Z.shiftl (Zpos m) 53) (Zpos m) = (2 ^ 53, 0).
Proof.
  rewrite Z.shiftl_mul_pow2 by lia.
  pose proof (Z_div_mod_full (Z.pos m * 2 ^ 53) (Z.pos m)) as H.
  destruct (Z.div_eucl _ _) as [q r].
  destruct H as [H1 H2]; [lia|].
  destruct H2 as [H2|H2]; [|lia].
  assert (q = 2 ^ 53 /\ r = 0) as [-> ->]; [|reflexivity].
  assert (Z.pos m * (2 ^ 53 - q) = r) by lia.
  assert (2 ^ 53 - q = 0) by nia. lia.
Qed.

Lemma fdiv_self s m e :
  fdiv64 (S754_finite s m e) (S754_finite s m e) = one.
Proof.
  unfold SFdiv, SFdiv_core_binary.
  rewrite !Z.sub_diag.
  change (Z.min (fexp prec emax 0) 0) with (-53).
  change (0 - -53) with 53.
  cbv iota.
  rewrite div_eucl_shift.
  assert (E : new_location (Z.pos m) 0 = loc_Exact).
  { unfold new_location, new_location_even, new_location_odd.
    destruct (Z.even (Z.pos m)); reflexivity. }
  rewrite E. destruct s; reflexivity.
Qed.

Lemma fdiv_self_cases x :
  fdiv64 x x = if is_finite_nonzero x then one else nan.
Proof.
  destruct x as [s|s| |s m e]; try reflexivity.
  apply fdiv_self.
Qed.

(** ** Conversion of a non-zero [int64] yields a finite non-zero float *)

Lemma digits2_pos_size p : digits2_pos p = Pos.size p.
Proof. induction p; simpl; congruence. Qed.

Lemma digits2_bounds p :
  2 ^ (Zpos (digits2_pos p) - 1) <= Zpos p < 2 ^ Zpos (digits2_pos p).
Proof.
  rewrite digits2_pos_size.
  pose proof (Pos.size_gt p) as Hgt. pose proof (Pos.size_le p) as Hle.
  apply Pos2Z.pos_lt_pos in Hgt. apply Pos2Z.pos_le_pos in Hle.
  rewrite Pos2Z.inj_pow in Hgt, Hle.
  change (Z.pos p~0) with (2 * Z.pos p) in Hle.
  replace (2 ^ Zpos (Pos.size p)) with (2 * 2 ^ (Zpos (Pos.size p) - 1)) in Hle.
  - lia.
  - rewrite <- Z.pow_succ_r by lia. f_equal. lia.
Qed.

Lemma digits2_unique p n :
  2 ^ (n - 1) <= Zpos p < 2 ^ n -> Zpos (digits2_pos p) = n.
Proof.
  intros [H1 H2]. pose proof (digits2_bounds p) as [H3 H4].
  assert (0 <= n).
  { destruct (Z_lt_le_dec n 0) as [Hn|]; [|lia].
    rewrite (Z.pow_neg_r 2 n) in H2 by lia. lia. }
  destruct (Z_lt_le_dec (Zpos (digits2_pos p)) n) as [Hlt|Hge].
  - assert (2 ^ Zpos (digits2_pos p) <= 2 ^ (n - 1))
      by (apply Z.pow_le_mono_r; lia). lia.
  - destruct (Z.eq_dec (Zpos (digits2_pos p)) n) as [|Hne]; [assumption|].
    assert (2 ^ n <= 2 ^ (Zpos (digits2_pos p) - 1))
      by (apply Z.pow_le_mono_r; lia). lia.
Qed.

Lemma iter_xO_value p k : Zpos (Pos.iter xO p k) = Zpos p * 2 ^ Zpos k.
Proof.
  induction k as [|k IH] using Pos.peano_ind.
  - simpl. lia.
  - rewrite Pos.iter_succ, Pos2Z.inj_xO, IH, Pos2Z.inj_succ,
      Z.pow_succ_r by lia. lia.
Qed.

Lemma shr_m_shr_1 mrs : 0 <= shr_m mrs -> shr_m (shr_1 mrs) = shr_m mrs / 2.
Proof.
  destruct mrs as [m r s]. simpl. intros H.
  destruct m as [|[p|p|]|p]; simpl; try reflexivity; try lia.
  - apply Z.div_unique with 1; lia.
  - apply Z.div_unique with 0; lia.
Qed.

Lemma shr_m_iter k : forall mrs,
  0 <= shr_m mrs -> shr_m (iter_pos shr_1 k mrs) = shr_m mrs / 2 ^ Zpos k.
Proof.
  induction k as [k IH|k IH|]; intros mrs H; simpl iter_pos.
  - assert (H1 : 0 <= shr_m (shr_1 mrs)).
    { rewrite shr_m_shr_1 by assumption. apply Z.div_pos; lia. }
    assert (H2 : 0 <= shr_m (iter_pos shr_1 k (shr_1 mrs))).
    { rewrite IH by assumption. apply Z.div_pos; lia. }
    rewrite IH, IH, shr_m_shr_1 by assumption.
    rewrite !Z.div_div by lia. f_equal.
    replace (Z.pos k~1) with (Z.pos k + Z.pos k + 1) by lia.
    rewrite !Z.pow_add_r by lia. lia.
  - assert (H2 : 0 <= shr_m (iter_pos shr_1 k mrs)).
    { rewrite IH by assumption. apply Z.div_pos; lia. }
    rewrite IH, IH by assumption.
    rewrite !Z.div_div by lia. f_equal.
    replace (Z.pos k~0) with (Z.pos k + Z.pos k) by lia.
    rewrite !Z.pow_add_r by lia. reflexivity.
  - rewrite shr_m_shr_1 by assumption. reflexivity.
Qed.

Lemma fexp_value d : -1021 <= d -> fexp prec emax d = d - 53.
Proof. intros H. unfold fexp, emin, prec, emax. lia. Qed.

Lemma binary_round_aux_canonical s m e :
  Zpos (digits2_pos m) = 53 -> -1074 <= e <= 971 ->
  binary_round_aux prec emax s (Zpos m) e loc_Exact = S754_finite s m e.
Proof.
  intros Hd He.
  assert (E : shr_fexp prec emax (Zpos m) e loc_Exact
              = (Build_shr_record (Zpos m) false false, e)).
  { unfold shr_fexp. cbn [Zdigits2]. rewrite Hd, fexp_value by lia.
    replace (53 + e - 53 - e) with 0 by lia. reflexivity. }
  unfold binary_round_aux. rewrite E. cbn [shr_m loc_of_shr_record round_nearest_even].
  rewrite E. cbn [shr_m].
  replace (e <=? emax - prec) with true; [reflexivity|].
  symmetry. apply Z.leb_le. unfold emax, prec. lia.
Qed.

Lemma round_nearest_even_bounds q l :
  q <= round_nearest_even q l <= q + 1.
Proof.
  destruct l as [|[| |]]; simpl; try lia.
  destruct (Z.even q); lia.
Qed.

Lemma binary_round_finite s p :
  Zpos p < 2 ^ 64 ->
  is_finite_nonzero (binary_round prec emax s p 0) = true.
Proof.
  intros Hp.
  pose proof (digits2_bounds p) as [Hlo Hhi].
  set (d := Zpos (digits2_pos p)) in *.
  assert (Hd1 : 1 <= d) by (unfold d; lia).
  assert (Hd2 : d <= 64).
  { destruct (Z_le_gt_dec d 64) as [|Hgt]; [assumption|].
    assert (2 ^ 64 <= 2 ^ (d - 1)) by (apply Z.pow_le_mono_r; lia). lia. }
  unfold binary_round. fold d. rewrite fexp_value by lia.
  unfold shl_align.
  destruct (d + 0 - 53 - 0) as [|k|k] eqn:Ek.
  - (* d = 53 *)
    rewrite binary_round_aux_canonical; [reflexivity|unfold d in *; lia|lia].
  - (* d > 53: the mantissa is shifted right and rounded *)
    unfold binary_round_aux.
    assert (E1 : shr_fexp prec emax (Zpos p) 0 loc_Exact
                 = (iter_pos shr_1 k (Build_shr_record (Zpos p) false false),
                    Zpos k)).
    { unfold shr_fexp. cbn [Zdigits2]. fold d. rewrite fexp_value by lia.
      replace (d + 0 - 53 - 0) with (Zpos k) by lia. reflexivity. }
    rewrite E1.
    set (mrs := iter_pos shr_1 k _).
    assert (Hq : 2 ^ 52 <= shr_m mrs < 2 ^ 53).
    { unfold mrs. rewrite shr_m_iter by (simpl; lia). cbn [shr_m].
      assert (Hk : Zpos k = d - 53) by lia.
      split.
      - apply Z.div_le_lower_bound; [lia|].
        rewrite <- Z.pow_add_r by lia.
        replace (Zpos k + 52) with (d - 1) by lia. assumption.
      - apply Z.div_lt_upper_bound; [lia|].
        rewrite <- Z.pow_add_r by lia.
        replace (Zpos k + 53) with d by lia. assumption. }
    pose proof (round_nearest_even_bounds (shr_m mrs) (loc_of_shr_record mrs))
      as Hr.
    set (m1 := round_nearest_even _ _) in *.
    destruct (Z.eq_dec m1 (2 ^ 53)) as [Em|Em].
    + rewrite Em.
      assert (E2 : shr_fexp prec emax (2 ^ 53) (Zpos k) loc_Exact
                   = (Build_shr_record (2 ^ 52) false false, Zpos k + 1)).
      { unfold shr_fexp.
        change (Zdigits2 (2 ^ 53)) with 54. rewrite fexp_value by lia.
        replace (54 + Zpos k - 53 - Zpos k) with 1 by lia. reflexivity. }
      rewrite E2. cbn [shr_m]. change (2 ^ 52) with 4503599627370496.
      cbv iota.
      replace (Zpos k + 1 <=? emax - prec) with true; [reflexivity|].
      symmetry. apply Z.leb_le. unfold emax, prec. lia.
    + assert (Hm1 : 2 ^ 52 <= m1 < 2 ^ 53) by lia.
      destruct m1 as [|m1|m1]; try lia.
      assert (Hd : Zpos (digits2_pos m1) = 53)
        by (apply digits2_unique; exact Hm1).
      assert (E2 : shr_fexp prec emax (Zpos m1) (Zpos k) loc_Exact
                   = (Build_shr_record (Zpos m1) false false, Zpos k)).
      { unfold shr_fexp. cbn [Zdigits2]. rewrite Hd, fexp_value by lia.
        replace (53 + Zpos k - 53 - Zpos k) with 0 by lia. reflexivity. }
      rewrite E2. cbn [shr_m].
      replace (Zpos k <=? emax - prec) with true; [reflexivity|].
      symmetry. apply Z.leb_le. unfold emax, prec. lia.
  - (* d < 53: the mantissa is shifted left, exactly *)
    rewrite binary_round_aux_canonical; [reflexivity| |lia].
    apply digits2_unique. rewrite iter_xO_value.
    assert (Hk : Zpos k = 53 - d) by lia.
    split.
    + replace (53 - 1) with ((d - 1) + Zpos k) by lia.
      rewrite Z.pow_add_r by lia. nia.
    + replace 53 with (d + Zpos k) by lia.
      rewrite Z.pow_add_r by lia. nia.
Qed.

Lemma float_of_int_finite z :
  z <> 0 -> - 2 ^ 63 <= z < 2 ^ 63 ->
  is_finite_nonzero (float_of_int z) = true.
Proof.
  intros Hz Hr. unfold float_of_int, binary_normalize.
  destruct z as [|p|p]; [congruence| |]; apply binary_round_finite; lia.
Qed.
(** ** Rounding a quotient to the nearest float *)

Lemma new_location_cases D r :
  0 <= r < D ->
  match new_location D r with
  | loc_Exact => r = 0
  | loc_Inexact Lt => 0 < r /\ 2 * r < D
  | loc_Inexact Eq => 2 * r = D
  | loc_Inexact Gt => D < 2 * r
  end.
Proof.
  intros H. unfold new_location, new_location_even, new_location_odd.
  destruct (Z.even D) eqn:Ev.
  - destruct (r =? 0) eqn:E0; [now apply Z.eqb_eq|].
    apply Z.eqb_neq in E0.
    destruct (Z.compare_spec (2 * r) D); cbv iota; lia.
  - destruct (r =? 0) eqn:E0; [now apply Z.eqb_eq|].
    apply Z.eqb_neq in E0.
    assert (D <> 2 * r).
    { intros ->. rewrite Z.even_mul in Ev. discriminate. }
    destruct (Z.compare_spec (2 * r + 1) D); cbv iota; lia.
Qed.

Lemma shr_fexp_53 m e l :
  2 ^ 52 <= m < 2 ^ 53 -> -1074 <= e ->
  shr_fexp prec emax m e l = (shr_record_of_loc m l, e).
Proof.
  intros Hm He. unfold shr_fexp.
  destruct m as [|p|p]; try lia.
  cbn [Zdigits2]. rewrite (digits2_unique p 53) by exact Hm.
  unfold fexp, emin, prec, emax.
  replace (Z.max (53 + e - 53) (3 - 1024 - 53) - e) with 0 by lia.
  reflexivity.
Qed.

Lemma shr_fexp_54 m e l :
  2 ^ 53 <= m < 2 ^ 54 -> -1075 <= e ->
  shr_fexp prec emax m e l = (shr_1 (shr_record_of_loc m l), e + 1).
Proof.
  intros Hm He. unfold shr_fexp.
  destruct m as [|p|p]; try lia.
  cbn [Zdigits2]. rewrite (digits2_unique p 54) by exact Hm.
  unfold fexp, emin, prec, emax.
  replace (Z.max (54 + e - 53) (3 - 1024 - 53) - e) with 1 by lia.
  reflexivity.
Qed.

Lemma loc_of_shr_record_of_loc m l :
  loc_of_shr_record (shr_record_of_loc m l) = l.
Proof. destruct l as [|[| |]]; reflexivity. Qed.

Lemma shr_m_of_loc m l : shr_m (shr_record_of_loc m l) = m.
Proof. destruct l as [|[| |]]; reflexivity. Qed.

(** The second normalisation of [binary_round_aux]. *)
Lemma renormalise s m e :
  2 ^ 52 <= m <= 2 ^ 53 -> -1074 <= e <= 970 ->
  (let '(mrs, e') := shr_fexp prec emax m e loc_Exact in
   match shr_m mrs with
   | 0 => S754_zero s
   | Z.pos p => if e' <=? emax - prec then S754_finite s p e'
                else S754_infinity s
   | Z.neg _ => S754_nan
   end) = carried s m e.
Proof.
  intros Hm He. unfold carried.
  destruct (m =? 2 ^ 53) eqn:E.
  - apply Z.eqb_eq in E. subst m.
    rewrite shr_fexp_54 by lia. cbn [shr_record_of_loc shr_1 shr_m].
    change (2 ^ 53) with 9007199254740992. cbv iota beta.
    replace (e + 1 <=? emax - prec) with true; [reflexivity|].
    symmetry. apply Z.leb_le. unfold emax, prec. lia.
  - apply Z.eqb_neq in E.
    rewrite shr_fexp_53 by lia. cbn [shr_record_of_loc shr_m].
    destruct m as [|p|p]; try lia.
    replace (e <=? emax - prec) with true; [reflexivity|].
    symmetry. apply Z.leb_le. unfold emax, prec. lia.
Qed.

Lemma round_located_53 s N D e :
  0 < D -> 2 ^ 52 <= N / D < 2 ^ 53 -> -1074 <= e <= 970 ->
  exists m,
    binary_round_aux prec emax s (N / D) e (new_location D (N mod D))
    = carried s m e /\
    2 ^ 52 <= m <= 2 ^ 53 /\ nearest N D m 0.
Proof.
  intros HD Hq He.
  pose proof (Z.div_mod N D ltac:(lia)) as HN.
  pose proof (Z.mod_pos_bound N D HD) as Hr.
  pose proof (new_location_cases D (N mod D) Hr) as Hl.
  set (q := N / D) in *. set (r := N mod D) in *.
  set (l := new_location D r) in *.
  exists (round_nearest_even q l).
  unfold binary_round_aux.
  rewrite shr_fexp_53 by lia.
  rewrite loc_of_shr_record_of_loc, shr_m_of_loc.
  pose proof (round_nearest_even_bounds q l) as Hb.
  split; [apply renormalise; lia|].
  split; [lia|].
  unfold nearest. rewrite Z.pow_0_r, !Z.mul_1_r, Z.mul_1_l.
  assert (Eq : q * D = D * q) by lia.
  destruct l as [|[| |]]; cbn [round_nearest_even] in *.
  - nia.
  - nia.
  - destruct (Z.even q); nia.
  - nia.
Qed.

Lemma shr_1_located q l :
  0 < q ->
  exists h (b : bool),
    q = 2 * h + (if b then 1 else 0) /\ 0 <= h /\
    shr_m (shr_1 (shr_record_of_loc q l)) = h /\
    loc_of_shr_record (shr_1 (shr_record_of_loc q l)) =
    match b, l with
    | false, loc_Exact => loc_Exact
    | false, loc_Inexact _ => loc_Inexact Lt
    | true, loc_Exact => loc_Inexact Eq
    | true, loc_Inexact _ => loc_Inexact Gt
    end.
Proof.
  intros Hq. destruct q as [|[p|p|]|p]; try lia.
  - exists (Zpos p), true. destruct l as [|[| |]]; repeat split; lia.
  - exists (Zpos p), false. destruct l as [|[| |]]; repeat split; lia.
  - exists 0, true. destruct l as [|[| |]]; repeat split; lia.
Qed.

Lemma round_located_54 s N D e :
  0 < D -> 2 ^ 53 <= N / D < 2 ^ 54 -> -1075 <= e <= 969 ->
  exists m,
    binary_round_aux prec emax s (N / D) e (new_location D (N mod D))
    = carried s m (e + 1) /\
    2 ^ 52 <= m <= 2 ^ 53 /\ nearest N D m 1.
Proof.
  intros HD Hq He.
  pose proof (Z.div_mod N D ltac:(lia)) as HN.
  pose proof (Z.mod_pos_bound N D HD) as Hr.
  pose proof (new_location_cases D (N mod D) Hr) as Hl.
  set (q := N / D) in *. set (r := N mod D) in *.
  set (l := new_location D r) in *.
  destruct (shr_1_located q l ltac:(lia)) as (h & b & Eq & Hh & Em & El).
  exists (round_nearest_even h (loc_of_shr_record
                                  (shr_1 (shr_record_of_loc q l)))).
  unfold binary_round_aux.
  rewrite shr_fexp_54 by lia. rewrite Em.
  pose proof (round_nearest_even_bounds h
                (loc_of_shr_record (shr_1 (shr_record_of_loc q l)))) as Hb.
  assert (Hh2 : 2 ^ 52 <= h < 2 ^ 53) by (destruct b; lia).
  split; [apply renormalise; lia|].
  split; [lia|].
  unfold nearest. rewrite Z.pow_1_r.
  rewrite El in *. clear El Em.
  assert (E1 : q * D = 2 * (h * D) + (if b then D else 0))
    by (destruct b; nia).
  destruct b, l as [|[| |]]; cbn [round_nearest_even] in *;
    try (destruct (Z.even h)); nia.
Qed.

(** A quotient between 2^52 and 2^54, with its location, rounds to a
    nearest float of 53 digits. *)
Lemma round_located s N D e :
  0 < D -> 2 ^ 52 <= N / D < 2 ^ 54 -> -1074 <= e <= 969 ->
  exists m k,
    binary_round_aux prec emax s (N / D) e (new_location D (N mod D))
    = carried s m (e + k) /\
    k = (if N / D <? 2 ^ 53 then 0 else 1) /\
    2 ^ 52 <= m <= 2 ^ 53 /\ nearest N D m k.
Proof.
  intros HD Hq He.
  destruct (N / D <? 2 ^ 53) eqn:E.
  - apply Z.ltb_lt in E.
    destruct (round_located_53 s N D e) as (m & H1 & H2 & H3); try lia.
    exists m, 0. rewrite Z.add_0_r. auto.
  - apply Z.ltb_ge in E.
    destruct (round_located_54 s N D e) as (m & H1 & H2 & H3); try lia.
    exists m, 1. auto.
Qed.

Lemma div_eucl_div_mod a b : Z.div_eucl a b = (a / b, a mod b).
Proof. unfold Z.div, Z.modulo. now destruct (Z.div_eucl a b). Qed.

(** ** Division of floats of 53 digits *)

Lemma fdiv_normal sx mx ex sy my ey :
  2 ^ 52 <= Zpos mx < 2 ^ 53 -> 2 ^ 52 <= Zpos my < 2 ^ 53 ->
  -1021 <= ex - ey <= 1022 ->
  exists m k,
    fdiv64 (S754_finite sx mx ex) (S754_finite sy my ey)
    = carried (xorb sx sy) m (ex - ey - 53 + k) /\
    k = (if Zpos mx <? Zpos my then 0 else 1) /\
    2 ^ 52 <= m <= 2 ^ 53 /\
    nearest (Zpos mx * 2 ^ 53) (Zpos my) m k.
Proof.
  intros Hx Hy He.
  assert (Hq : 2 ^ 52 <= Zpos mx * 2 ^ 53 / Zpos my < 2 ^ 54).
  { split.
    - apply Z.div_le_lower_bound; [lia|]. nia.
    - apply Z.div_lt_upper_bound; [lia|]. nia. }
  destruct (round_located (xorb sx sy) (Zpos mx * 2 ^ 53) (Zpos my)
              (ex - ey - 53)) as (m & k & H1 & H2 & H3 & H4); try lia.
  exists m, k. split; [|split; [|split; assumption]].
  - rewrite <- H1. unfold SFdiv, SFdiv_core_binary.
    cbn [Zdigits2].
    rewrite (digits2_unique mx 53), (digits2_unique my 53) by assumption.
    replace (53 + ex - (53 + ey)) with (ex - ey) by lia.
    rewrite fexp_value by lia.
    replace (Z.min (ex - ey - 53) (ex - ey)) with (ex - ey - 53) by lia.
    replace (ex - ey - (ex - ey - 53)) with 53 by lia.
    cbv iota. rewrite Z.shiftl_mul_pow2 by lia.
    rewrite div_eucl_div_mod. reflexivity.
  - rewrite H2.
    destruct (Zpos mx <? Zpos my) eqn:E.
    + apply Z.ltb_lt in E.
      replace (Zpos mx * 2 ^ 53 / Zpos my <? 2 ^ 53) with true; [reflexivity|].
      symmetry. apply Z.ltb_lt. apply Z.div_lt_upper_bound; [lia|]. nia.
    + apply Z.ltb_ge in E.
      replace (Zpos mx * 2 ^ 53 / Zpos my <? 2 ^ 53) with false; [reflexivity|].
      symmetry. apply Z.ltb_ge. apply Z.div_le_lower_bound; [lia|]. nia.
Qed.

(** ** Normal form of a rounded integer *)

Lemma carried_below s m e :
  0 < m < 2 ^ 53 -> carried s m e = S754_finite s (Z.to_pos m) e.
Proof.
  intros H. unfold carried.
  replace (m =? 2 ^ 53) with false; [reflexivity|].
  symmetry. apply Z.eqb_neq. lia.
Qed.

Lemma binary_round_normal s p e :
  -1021 <= Zpos (digits2_pos p) + e <= 1023 ->
  exists m,
    binary_round prec emax s p e
    = carried s m (Zpos (digits2_pos p) + e - 53) /\
    2 ^ 52 <= m <= 2 ^ 53 /\
    (Zpos (digits2_pos p) <= 53 ->
     m = Zpos p * 2 ^ (53 - Zpos (digits2_pos p))) /\
    (53 <= Zpos (digits2_pos p) ->
     Zpos p / 2 ^ (Zpos (digits2_pos p) - 53) <= m
     <= Zpos p / 2 ^ (Zpos (digits2_pos p) - 53) + 1).
Proof.
  pose proof (digits2_bounds p) as [Hlo Hhi].
  set (d := Zpos (digits2_pos p)) in *.
  assert (Hd1 : 1 <= d) by (unfold d; lia).
  intros He.
  unfold binary_round. fold d. rewrite fexp_value by lia.
  unfold shl_align.
  destruct (d + e - 53 - e) as [|k|k] eqn:Ek.
  - (* d = 53 *)
    assert (Hd : d = 53) by lia.
    assert (Hp : 2 ^ 52 <= Zpos p < 2 ^ 53).
    { split; [replace 52 with (d - 1) by lia|rewrite <- Hd]; assumption. }
    exists (Zpos p).
    rewrite binary_round_aux_canonical by (fold d; lia).
    rewrite carried_below by lia. rewrite Hd.
    split; [f_equal; lia|]. split; [lia|].
    split; intros _.
    + change (2 ^ (53 - 53)) with 1. lia.
    + change (2 ^ (53 - 53)) with 1. rewrite Z.div_1_r. lia.
  - (* d > 53: the mantissa is shifted right and rounded *)
    assert (Hk : Zpos k = d - 53) by lia.
    unfold binary_round_aux.
    assert (E1 : shr_fexp prec emax (Zpos p) e loc_Exact
                 = (iter_pos shr_1 k (Build_shr_record (Zpos p) false false),
                    e + Zpos k)).
    { unfold shr_fexp. cbn [Zdigits2]. fold d. rewrite fexp_value by lia.
      rewrite Ek. reflexivity. }
    rewrite E1.
    set (mrs := iter_pos shr_1 k _).
    assert (Eq : shr_m mrs = Zpos p / 2 ^ (d - 53)).
    { unfold mrs. rewrite shr_m_iter by (simpl; lia). cbn [shr_m].
      now rewrite Hk. }
    assert (Hq : 2 ^ 52 <= shr_m mrs < 2 ^ 53).
    { rewrite Eq. split.
      - apply Z.div_le_lower_bound; [lia|].
        rewrite <- Z.pow_add_r by lia.
        replace (d - 53 + 52) with (d - 1) by lia. assumption.
      - apply Z.div_lt_upper_bound; [lia|].
        rewrite <- Z.pow_add_r by lia.
        replace (d - 53 + 53) with d by lia. assumption. }
    pose proof (round_nearest_even_bounds (shr_m mrs) (loc_of_shr_record mrs))
      as Hr.
    exists (round_nearest_even (shr_m mrs) (loc_of_shr_record mrs)).
    rewrite renormalise by lia.
    split; [f_equal; lia|]. split; [lia|].
    split; [lia|]. intros _. rewrite <- Eq. exact Hr.
  - (* d < 53: the mantissa is shifted left, exactly *)
    assert (Hk : Zpos k = 53 - d) by lia.
    assert (Hm : 2 ^ 52 <= Zpos p * 2 ^ Zpos k < 2 ^ 53).
    { split.
      - replace 52 with ((d - 1) + Zpos k) by lia.
        rewrite Z.pow_add_r by lia. nia.
      - replace (2 ^ 53) with (2 ^ (d + Zpos k)) by (f_equal; lia).
        rewrite Z.pow_add_r by lia. nia. }
    exists (Zpos p * 2 ^ Zpos k).
    rewrite binary_round_aux_canonical;
      [|apply digits2_unique; rewrite iter_xO_value; exact Hm|lia].
    rewrite carried_below by lia.
    rewrite <- iter_xO_value. cbn [Z.to_pos].
    split; [reflexivity|]. rewrite iter_xO_value. split; [lia|].
    split; [intros _; now rewrite Hk|lia].
Qed.

Lemma float_of_int_normal z :
  0 < z < 2 ^ 63 ->
  exists m e,
    float_of_int z = S754_finite false m e /\
    2 ^ 52 <= Zpos m < 2 ^ 53 /\ -52 <= e <= 11 /\
    (z < 2 ^ 53 -> e <= 0 /\ Zpos m = z * 2 ^ (- e)) /\
    (2 ^ 53 <= z -> 0 < e /\ Z.abs (Zpos m * 2 ^ e - z) <= 2 ^ e).
Proof.
  intros Hz. destruct z as [|p|p]; try lia.
  unfold float_of_int, binary_normalize.
  pose proof (digits2_bounds p) as [Hlo Hhi].
  set (d := Zpos (digits2_pos p)) in *.
  assert (Hd1 : 1 <= d) by (unfold d; lia).
  assert (Hd2 : d <= 63).
  { destruct (Z_le_gt_dec d 63) as [|Hgt]; [assumption|].
    assert (2 ^ 63 <= 2 ^ (d - 1)) by (apply Z.pow_le_mono_r; lia). lia. }
  destruct (binary_round_normal false p 0) as (m & E & Hm & Hsmall & Hbig);
    [fold d; lia|].
  fold d in E, Hsmall, Hbig.
  rewrite E. rewrite Z.add_0_r.
  destruct (Z_lt_le_dec (Zpos p) (2 ^ 53)) as [Hp|Hp].
  - assert (Hd3 : d <= 53).
    { destruct (Z_le_gt_dec d 53) as [|Hgt]; [assumption|].
      assert (2 ^ 53 <= 2 ^ (d - 1)) by (apply Z.pow_le_mono_r; lia). lia. }
    specialize (Hsmall Hd3).
    assert (Hm' : m < 2 ^ 53).
    { rewrite Hsmall.
      replace (2 ^ 53) with (2 ^ (d + (53 - d))) by (f_equal; lia).
      rewrite Z.pow_add_r by lia. nia. }
    rewrite carried_below by lia.
    exists (Z.to_pos m), (d - 53).
    rewrite Z2Pos.id by lia.
    split; [reflexivity|]. split; [lia|]. split; [lia|].
    split; [|lia]. intros _. split; [lia|].
    rewrite Hsmall. f_equal. f_equal. lia.
  - assert (Hd3 : 54 <= d).
    { destruct (Z_le_gt_dec 54 d) as [|Hgt]; [assumption|].
      assert (2 ^ d <= 2 ^ 53) by (apply Z.pow_le_mono_r; lia). lia. }
    specialize (Hbig ltac:(lia)).
    pose proof (Z.div_mod (Zpos p) (2 ^ (d - 53)) ltac:(lia)) as Hdm.
    pose proof (Z.mod_pos_bound (Zpos p) (2 ^ (d - 53)) ltac:(lia)) as Hmod.
    set (q := Zpos p / 2 ^ (d - 53)) in *.
    set (r := Zpos p mod 2 ^ (d - 53)) in *.
    set (P := 2 ^ (d - 53)) in *.
    unfold carried. destruct (m =? 2 ^ 53) eqn:Em.
    + apply Z.eqb_eq in Em.
      exists 4503599627370496%positive, (d - 53 + 1).
      split; [reflexivity|]. split; [lia|]. split; [lia|].
      split; [lia|]. intros _. split; [lia|].
      rewrite Z.pow_add_r by lia. fold P.
      change (Zpos 4503599627370496) with (2 ^ 52). nia.
    + apply Z.eqb_neq in Em.
      exists (Z.to_pos m), (d - 53).
      rewrite Z2Pos.id by lia.
      split; [reflexivity|]. split; [lia|]. split; [lia|].
      split; [lia|]. intros _. split; [lia|]. fold P. nia.
Qed.

(** ** The quotient of two integers *)

Lemma fdiv_ints a b :
  0 < a < b -> b < 2 ^ 53 ->
  exists M j,
    fdiv64 (float_of_int a) (float_of_int b) = carried false M (- j) /\
    2 ^ 52 <= M <= 2 ^ 53 /\ 53 <= j <= 105 /\
    Z.abs (2 * (M * b - a * 2 ^ j)) <= b.
Proof.
  intros Ha Hb.
  destruct (float_of_int_normal a) as (mx & ex & Ex & Hmx & Hex & Hxa & _);
    [lia|].
  destruct (float_of_int_normal b) as (my & ey & Ey & Hmy & Hey & Hyb & _);
    [lia|].
  destruct (Hxa ltac:(lia)) as [Hex0 Emx].
  destruct (Hyb ltac:(lia)) as [Hey0 Emy].
  destruct (fdiv_normal false mx ex false my ey Hmx Hmy ltac:(lia))
    as (M & k & E & Hk & HM & Hn).
  rewrite Ex, Ey, E. cbn [xorb].
  assert (Hle : ex <= ey).
  { destruct (Z_le_gt_dec ex ey) as [|Hgt]; [assumption|].
    assert (2 ^ (- ex) * 2 <= 2 ^ (- ey)).
    { replace (- ey) with (- ex + (ex - ey)) by lia.
      rewrite Z.pow_add_r by lia.
      assert (2 ^ 1 <= 2 ^ (ex - ey)) by (apply Z.pow_le_mono_r; lia).
      assert (0 < 2 ^ (- ex)) by (apply Z.pow_pos_nonneg; lia).
      nia. }
    assert (0 < 2 ^ (- ex)) by (apply Z.pow_pos_nonneg; lia).
    nia. }
  assert (Hk01 : 0 <= k <= 1) by (destruct (Zpos mx <? Zpos my); lia).
  assert (Hj : 53 <= ey - ex + 53 - k).
  { destruct (Z.eq_dec ex ey) as [Heq|Hne]; [|lia].
    assert (Zpos mx < Zpos my).
    { rewrite Emx, Emy, Heq.
      assert (0 < 2 ^ (- ey)) by (apply Z.pow_pos_nonneg; lia). nia. }
    replace (Zpos mx <? Zpos my) with true in Hk
      by (symmetry; now apply Z.ltb_lt).
    lia. }
  exists M, (ey - ex + 53 - k).
  split; [f_equal; lia|]. split; [assumption|]. split; [lia|].
  unfold nearest in Hn. rewrite Emx, Emy in Hn.
  set (j := ey - ex + 53 - k) in *.
  set (c := 2 ^ (k - ey)).
  assert (Hc : 0 < c) by (apply Z.pow_pos_nonneg; lia).
  assert (E1 : 2 ^ k * 2 ^ (- ey) = c).
  { unfold c. rewrite <- Z.pow_add_r by lia. f_equal; lia. }
  assert (E2 : 2 ^ (- ex) * 2 ^ 53 = 2 ^ j * c).
  { unfold c, j. rewrite <- !Z.pow_add_r by lia. f_equal; lia. }
  replace (M * 2 ^ k * (b * 2 ^ (- ey))) with (M * b * c) in Hn
    by (rewrite <- E1; ring).
  replace (a * 2 ^ (- ex) * 2 ^ 53) with (a * 2 ^ j * c) in Hn
    by (replace (a * 2 ^ j * c) with (a * (2 ^ j * c)) by ring;
        rewrite <- E2; ring).
  replace (2 ^ k * (b * 2 ^ (- ey))) with (b * c) in Hn
    by (rewrite <- E1; ring).
  replace (2 * (M * b * c - a * 2 ^ j * c))
    with (c * (2 * (M * b - a * 2 ^ j))) in Hn by ring.
  rewrite Z.abs_mul, (Z.abs_eq c) in Hn by lia.
  nia.
Qed.

(** ** The real number a float stands for *)

Lemma IZR_pow2_pos n : 0 <= n -> (0 < IZR (2 ^ n))%R.
Proof. intros H. apply IZR_lt. apply Z.pow_pos_nonneg; lia. Qed.

Lemma pow2_pos e : (0 < pow2 e)%R.
Proof.
  unfold pow2. destruct (0 <=? e) eqn:E.
  - apply IZR_pow2_pos. now apply Z.leb_le.
  - apply Rinv_0_lt_compat. apply IZR_pow2_pos. apply Z.leb_gt in E. lia.
Qed.

Lemma pow2_opp j : 0 <= j -> pow2 (- j) = (/ IZR (2 ^ j))%R.
Proof.
  intros H. unfold pow2. destruct (0 <=? - j) eqn:E.
  - apply Z.leb_le in E. assert (j = 0) by lia. subst. simpl. lra.
  - now rewrite Z.opp_involutive.
Qed.

Lemma pow2_succ e : pow2 (e + 1) = (2 * pow2 e)%R.
Proof.
  unfold pow2. destruct (0 <=? e) eqn:E.
  - apply Z.leb_le in E.
    replace (0 <=? e + 1) with true by (symmetry; apply Z.leb_le; lia).
    rewrite Z.pow_add_r, mult_IZR by lia. simpl. lra.
  - apply Z.leb_gt in E.
    destruct (Z.eq_dec e (-1)) as [->|Hne].
    + simpl. lra.
    + replace (0 <=? e + 1) with false by (symmetry; apply Z.leb_gt; lia).
      replace (- e) with (- (e + 1) + 1) by lia.
      rewrite Z.pow_add_r, mult_IZR by lia.
      pose proof (IZR_pow2_pos (- (e + 1)) ltac:(lia)).
      change (IZR (2 ^ 1)) with 2%R. field. lra.
Qed.

Lemma value_carried s M e :
  2 ^ 52 <= M <= 2 ^ 53 ->
  value (carried s M e) = ((if s then -1 else 1) * IZR M * pow2 e)%R.
Proof.
  intros H. unfold carried. destruct (M =? 2 ^ 53) eqn:E.
  - apply Z.eqb_eq in E. subst M. cbn [value]. rewrite pow2_succ.
    change (Z.pos 4503599627370496) with (2 ^ 52).
    replace (IZR (2 ^ 53)) with (2 * IZR (2 ^ 52))%R
      by (rewrite <- mult_IZR; reflexivity).
    ring.
  - apply Z.eqb_neq in E. cbn [value]. rewrite Z2Pos.id by lia. reflexivity.
Qed.

Lemma is_finite_carried s M e : is_finite (carried s M e) = true.
Proof. unfold carried. now destruct (M =? 2 ^ 53). Qed.

(** The float quotient of two integers below 2^53, the first not above
    the second, lies in [0, 1] and is within 2^-54 of the quotient. *)
Lemma quotient_rounded a b :
  0 <= a <= b -> 0 < b < 2 ^ 53 ->
  is_finite (fdiv64 (float_of_int a) (float_of_int b)) = true /\
  (0 <= value (fdiv64 (float_of_int a) (float_of_int b)) <= 1)%R /\
  (Rabs (value (fdiv64 (float_of_int a) (float_of_int b)) - IZR a / IZR b)
   <= / IZR (2 ^ 54))%R.
Proof.
  intros Ha Hb.
  assert (Hb' : (0 < IZR b)%R) by (apply IZR_lt; lia).
  assert (H54 : (0 < / IZR (2 ^ 54))%R)
    by (apply Rinv_0_lt_compat; now apply IZR_pow2_pos).
  destruct (Z.eq_dec a 0) as [->|Ha0].
  - destruct (float_of_int_normal b) as (my & ey & Ey & _); [lia|].
    rewrite Ey. cbn. unfold Rdiv. rewrite Rmult_0_l, Rminus_0_r, Rabs_R0.
    split; [reflexivity|]. split; lra.
  - destruct (Z.eq_dec a b) as [->|Hab].
    + rewrite fdiv_self_cases, float_of_int_finite by lia.
      split; [reflexivity|].
      replace (value one) with 1%R by (cbn; lra).
      unfold Rdiv. rewrite Rinv_r by lra.
      rewrite Rminus_diag, Rabs_R0. split; lra.
    + destruct (fdiv_ints a b ltac:(lia) ltac:(lia))
        as (M & j & E & HM & Hj & Hn).
      rewrite E, is_finite_carried, value_carried by assumption.
      rewrite pow2_opp by lia.
      split; [reflexivity|].
      pose proof (IZR_pow2_pos j ltac:(lia)) as HP.
      assert (HPj : (IZR (2 ^ 53) <= IZR (2 ^ j))%R).
      { apply IZR_le. apply Z.pow_le_mono_r; lia. }
      assert (HM1 : (IZR (2 ^ 52) <= IZR M)%R) by (apply IZR_le; lia).
      assert (HM2 : (IZR M <= IZR (2 ^ 53))%R) by (apply IZR_le; lia).
      assert (H52 : (0 < IZR (2 ^ 52))%R) by now apply IZR_pow2_pos.
      apply Z.abs_le in Hn. destruct Hn as [Hn1 Hn2].
      apply IZR_le in Hn1, Hn2.
      rewrite opp_IZR in Hn1.
      rewrite mult_IZR, minus_IZR, !mult_IZR in Hn1, Hn2.
      set (x := IZR M) in *. set (P := IZR (2 ^ j)) in *.
      set (a' := IZR a) in *. set (b' := IZR b) in *.
      change (IZR 2) with 2%R in *.
      rewrite Rmult_1_l.
      assert (E54 : IZR (2 ^ 54) = (2 * IZR (2 ^ 53))%R)
        by (rewrite <- mult_IZR; reflexivity).
      assert (Hd : (x * / P - a' / b' = (x * b' - a' * P) / (P * b'))%R)
        by (field; lra).
      assert (HPb : (0 < P * b')%R) by (apply Rmult_lt_0_compat; lra).
      split.
      * split.
        -- apply Rmult_le_pos; [lra|]. left. now apply Rinv_0_lt_compat.
        -- apply (Rmult_le_reg_r P); [lra|].
           rewrite Rmult_assoc, Rinv_l by lra. lra.
      * rewrite Hd. apply Rabs_le.
        assert (Hhalf : (/ IZR (2 ^ 54) * (P * b') >= b' / 2)%R).
        { rewrite E54.
          assert (/ (2 * IZR (2 ^ 53)) * P >= / 2)%R.
          { apply Rle_ge. apply (Rmult_le_reg_l (2 * IZR (2 ^ 53))).
            - pose proof (IZR_pow2_pos 53 ltac:(lia)). lra.
            - rewrite <- Rmult_assoc, Rinv_r
                by (pose proof (IZR_pow2_pos 53 ltac:(lia)); lra).
              lra. }
          nra. }
        split.
        -- apply (Rmult_le_reg_r (P * b')); [lra|].
           unfold Rdiv. rewrite Rmult_assoc, Rinv_l by lra. nra.
        -- apply (Rmult_le_reg_r (P * b')); [lra|].
           unfold Rdiv. rewrite Rmult_assoc, Rinv_l by lra. nra.
Qed.

(** ** A quotient that rounds to one *)

Lemma carried_inj s M e m' e' :
  2 ^ 52 <= M <= 2 ^ 53 -> 2 ^ 52 <= Zpos m' < 2 ^ 53 ->
  carried s M e = S754_finite s m' e' ->
  (M = Zpos m' /\ e = e') \/ (M = 2 ^ 53 /\ Zpos m' = 2 ^ 52 /\ e' = e + 1).
Proof.
  intros HM Hm. unfold carried. destruct (M =? 2 ^ 53) eqn:E.
  - apply Z.eqb_eq in E. intros H. injection H as H1 H2. right.
    rewrite <- H1. repeat split; try assumption. lia.
  - apply Z.eqb_neq in E. intros H. injection H as H1 H2. left.
    rewrite <- H1. rewrite Z2Pos.id by lia. auto.
Qed.

Lemma fdiv_normal_one sx mx ex sy my ey :
  2 ^ 52 <= Zpos mx < 2 ^ 53 -> 2 ^ 52 <= Zpos my < 2 ^ 53 ->
  -1021 <= ex - ey <= 1022 ->
  fdiv64 (S754_finite sx mx ex) (S754_finite sy my ey) = one ->
  mx = my /\ ex = ey.
Proof.
  intros Hx Hy He H.
  destruct (fdiv_normal sx mx ex sy my ey Hx Hy He)
    as (M & k & E & Hk & HM & Hn).
  rewrite E in H. unfold one in H.
  assert (Hs : xorb sx sy = false).
  { unfold carried in H. destruct (M =? 2 ^ 53); now injection H. }
  rewrite Hs in H.
  apply carried_inj in H; [|assumption|simpl; lia].
  unfold nearest in Hn.
  change (Zpos 4503599627370496) with (2 ^ 52) in H.
  destruct (Zpos mx <? Zpos my) eqn:Elt.
  - apply Z.ltb_lt in Elt. subst k. rewrite Z.pow_0_r, Z.mul_1_r, Z.mul_1_l in Hn.
    destruct H as [[HM' He'] | (HM' & _ & He')]; subst M; lia.
  - apply Z.ltb_ge in Elt. subst k. rewrite Z.pow_1_r in Hn.
    destruct H as [[HM' He'] | (HM' & _ & He')]; subst M.
    + assert (Zpos mx = Zpos my) by lia.
      split; [congruence|lia].
    + lia.
Qed.

Lemma float_of_int_eq a b :
  0 < a <= b -> b < 2 ^ 63 ->
  float_of_int a = float_of_int b ->
  b - a <= 4096 /\ (a < b -> 2 ^ 53 <= b).
Proof.
  intros Ha Hb H.
  destruct (float_of_int_normal a) as (mx & ex & Ex & Hmx & Hex & Hxs & Hxb);
    [lia|].
  destruct (float_of_int_normal b) as (my & ey & Ey & Hmy & Hey & Hys & Hyb);
    [lia|].
  rewrite Ex, Ey in H. injection H as Hm He. subst my ey.
  destruct (Z_lt_le_dec b (2 ^ 53)) as [Hsmall|Hbig].
  - destruct (Hxs ltac:(lia)) as [_ E1]. destruct (Hys Hsmall) as [He0 E2].
    assert (0 < 2 ^ (- ex)) by (apply Z.pow_pos_nonneg; lia).
    assert (a = b) by nia. lia.
  - destruct (Hyb Hbig) as [He0 Hb2].
    destruct (Z_lt_le_dec a (2 ^ 53)) as [Ha2|Ha2].
    + destruct (Hxs Ha2) as [He1 _]. lia.
    + destruct (Hxb Ha2) as [_ Ha3].
      assert (2 ^ ex <= 2 ^ 11) by (apply Z.pow_le_mono_r; lia).
      change (2 ^ 11) with 2048 in *. lia.
Qed.

(** ** Floats of 53 digits *)

Lemma normal_is_finite lo hi x : normal_or_zero lo hi x -> is_finite x = true.
Proof. destruct x; simpl; tauto. Qed.

Lemma normal_weaken lo hi lo' hi' x :
  normal lo hi x -> lo' <= lo -> hi <= hi' -> normal lo' hi' x.
Proof. destruct x; simpl; try tauto. lia. Qed.

Lemma normal_or_zero_weaken lo hi lo' hi' x :
  normal_or_zero lo hi x -> lo' <= lo -> hi <= hi' ->
  normal_or_zero lo' hi' x.
Proof. destruct x; simpl; try tauto. lia. Qed.

Lemma carried_normal s M e :
  2 ^ 52 <= M <= 2 ^ 53 ->
  normal e (e + 1) (carried s M e) /\
  sign_or_nan s (carried s M e) = true.
Proof.
  intros H. unfold carried. destruct (M =? 2 ^ 53) eqn:E; simpl.
  - split; [lia|apply eqb_reflx].
  - apply Z.eqb_neq in E. rewrite Z2Pos.id by lia.
    split; [lia|apply eqb_reflx].
Qed.

Lemma float_of_int_normal_or_zero z :
  0 <= z < 2 ^ 63 ->
  normal_or_zero (-52) 11 (float_of_int z) /\
  sign_or_nan false (float_of_int z) = true /\
  (0 < z -> normal (-52) 11 (float_of_int z)).
Proof.
  intros H. destruct (Z.eq_dec z 0) as [->|Hz].
  - repeat split. lia.
  - destruct (float_of_int_normal z) as (m & e & E & Hm & He & _); [lia|].
    rewrite E. simpl. repeat split; lia.
Qed.

Lemma fdiv_normal_range lo1 hi1 lo2 hi2 sx sy x y :
  normal_or_zero lo1 hi1 x -> normal lo2 hi2 y ->
  sign_or_nan sx x = true -> sign_or_nan sy y = true ->
  -1021 <= lo1 - hi2 -> hi1 - lo2 <= 1022 ->
  normal_or_zero (lo1 - hi2 - 53) (hi1 - lo2 - 51) (fdiv64 x y) /\
  sign_or_nan (xorb sx sy) (fdiv64 x y) = true /\
  (normal lo1 hi1 x ->
   normal (lo1 - hi2 - 53) (hi1 - lo2 - 51) (fdiv64 x y)).
Proof.
  intros Hx Hy Sx Sy H1 H2.
  split; [|split; [now apply fdiv_sign|]].
  - destruct y as [| | |sy' my ey]; try contradiction.
    destruct x as [sx'| | |sx' mx ex]; try contradiction; [exact I|].
    simpl in Hx, Hy.
    destruct (fdiv_normal sx' mx ex sy' my ey) as (M & k & E & Hk & HM & _);
      try tauto; try lia.
    rewrite E.
    destruct (carried_normal (xorb sx' sy') M (ex - ey - 53 + k) HM) as [Hn _].
    assert (0 <= k <= 1) by (destruct (Zpos mx <? Zpos my); lia).
    assert (Hn' : normal (lo1 - hi2 - 53) (hi1 - lo2 - 51)
                    (carried (xorb sx' sy') M (ex - ey - 53 + k)))
      by (eapply normal_weaken; [exact Hn|lia|lia]).
    destruct (carried _ _ _); try contradiction. exact Hn'.
  - intros Hx'.
    destruct y as [| | |sy' my ey]; try contradiction.
    destruct x as [sx'| | |sx' mx ex]; try contradiction.
    simpl in Hx', Hy.
    destruct (fdiv_normal sx' mx ex sy' my ey) as (M & k & E & Hk & HM & _);
      try tauto; try lia.
    rewrite E.
    destruct (carried_normal (xorb sx' sy') M (ex - ey - 53 + k) HM) as [Hn _].
    assert (0 <= k <= 1) by (destruct (Zpos mx <? Zpos my); lia).
    eapply normal_weaken; [exact Hn|lia|lia].
Qed.

(** ** Subtraction of floats that are not negative *)

Lemma shl_align_fst mx ex ez :
  ez <= ex -> Zpos (fst (shl_align mx ex ez)) = Zpos mx * 2 ^ (ex - ez).
Proof.
  intros H. unfold shl_align. destruct (ez - ex) as [|p|p] eqn:E.
  - replace (ex - ez) with 0 by lia. cbn [fst]. lia.
  - lia.
  - cbn [fst]. rewrite iter_xO_value. f_equal. f_equal. lia.
Qed.

Lemma digits2_le p n :
  0 <= n -> Zpos p < 2 ^ n -> Zpos (digits2_pos p) <= n.
Proof.
  intros Hn Hp. pose proof (digits2_bounds p) as [Hlo _].
  destruct (Z_le_gt_dec (Zpos (digits2_pos p)) n) as [|Hgt]; [assumption|].
  assert (2 ^ n <= 2 ^ (Zpos (digits2_pos p) - 1))
    by (apply Z.pow_le_mono_r; lia).
  lia.
Qed.

Lemma binary_round_range s p e lo hi :
  -1021 <= lo -> hi <= 1023 -> lo <= 1 + e ->
  0 <= hi - e -> Zpos p < 2 ^ (hi - e) ->
  normal (lo - 53) (hi - 52) (binary_round prec emax s p e).
Proof.
  intros Hlo Hhi He Hn Hp.
  pose proof (digits2_le p (hi - e) Hn Hp) as Hd.
  assert (Hd1 : 1 <= Zpos (digits2_pos p)) by lia.
  destruct (binary_round_normal s p e) as (m & E & Hm & _); [lia|].
  rewrite E.
  destruct (carried_normal s m (Zpos (digits2_pos p) + e - 53) Hm) as [H _].
  eapply normal_weaken; [exact H|lia|lia].
Qed.

Lemma aligned_eq mx ex my ey :
  2 ^ 52 <= Zpos mx < 2 ^ 53 -> 2 ^ 52 <= Zpos my < 2 ^ 53 ->
  Zpos mx * 2 ^ (ex - Z.min ex ey) = Zpos my * 2 ^ (ey - Z.min ex ey) ->
  mx = my /\ ex = ey.
Proof.
  intros Hx Hy H.
  destruct (Z.lt_trichotomy ex ey) as [Hlt|[Heq|Hgt]].
  - rewrite Z.min_l, Z.sub_diag, Z.pow_0_r in H by lia.
    assert (2 ^ 1 <= 2 ^ (ey - ex)) by (apply Z.pow_le_mono_r; lia).
    change (2 ^ 1) with 2 in *. nia.
  - subst ey. rewrite Z.min_id, Z.sub_diag, Z.pow_0_r in H.
    split; [|reflexivity]. assert (Zpos mx = Zpos my) by lia. congruence.
  - rewrite Z.min_r, Z.sub_diag, Z.pow_0_r in H by lia.
    assert (2 ^ 1 <= 2 ^ (ex - ey)) by (apply Z.pow_le_mono_r; lia).
    change (2 ^ 1) with 2 in *. nia.
Qed.

Lemma fsub_normal lo hi x y :
  normal_or_zero lo hi x -> normal_or_zero lo hi y ->
  sign_or_nan false x = true -> sign_or_nan false y = true ->
  -968 <= lo -> hi <= 969 ->
  normal_or_zero (lo - 52) (hi + 1) (fsub64 x y) /\
  (is_zero (fsub64 x y) = true -> x = y).
Proof.
  intros Hx Hy Sx Sy Hlo Hhi.
  destruct x as [sx| | |sx mx ex], y as [sy| | |sy my ey];
    try contradiction; simpl in Sx, Sy;
    apply eqb_prop in Sx; apply eqb_prop in Sy; subst.
  - split; [exact I|reflexivity].
  - simpl in *. split; [lia|discriminate].
  - simpl in *. split; [lia|discriminate].
  - simpl in Hx, Hy. destruct Hx as [Hmx Hex], Hy as [Hmy Hey].
    unfold SFsub. cbn [cond_Zopp].
    rewrite !shl_align_fst by lia.
    set (ez := Z.min ex ey).
    set (A := Zpos mx * 2 ^ (ex - ez)). set (B := Zpos my * 2 ^ (ey - ez)).
    assert (HA : 0 < A < 2 ^ (53 + ex - ez)).
    { unfold A. replace (53 + ex - ez) with (53 + (ex - ez)) by lia.
      rewrite Z.pow_add_r by lia.
      assert (0 < 2 ^ (ex - ez)) by (apply Z.pow_pos_nonneg; lia). nia. }
    assert (HB : 0 < B < 2 ^ (53 + ey - ez)).
    { unfold B. replace (53 + ey - ez) with (53 + (ey - ez)) by lia.
      rewrite Z.pow_add_r by lia.
      assert (0 < 2 ^ (ey - ez)) by (apply Z.pow_pos_nonneg; lia). nia. }
    assert (HA' : A < 2 ^ (hi + 53 - ez)).
    { assert (2 ^ (53 + ex - ez) <= 2 ^ (hi + 53 - ez))
        by (apply Z.pow_le_mono_r; lia). lia. }
    assert (HB' : B < 2 ^ (hi + 53 - ez)).
    { assert (2 ^ (53 + ey - ez) <= 2 ^ (hi + 53 - ez))
        by (apply Z.pow_le_mono_r; lia). lia. }
    unfold binary_normalize.
    destruct (A - B) as [|p|p] eqn:ED.
    + split; [exact I|]. intros _.
      destruct (aligned_eq mx ex my ey Hmx Hmy) as [-> ->];
        [fold ez; fold A; fold B; lia|reflexivity].
    + assert (Hn : normal (lo + 1 - 53) (hi + 53 - 52)
                     (binary_round prec emax false p ez)).
      { apply binary_round_range; lia. }
      split.
      * destruct (binary_round _ _ _ _ _); try contradiction.
        eapply normal_weaken; [exact Hn|lia|lia].
      * destruct (binary_round _ _ _ _ _); try contradiction. discriminate.
    + assert (Hn : normal (lo + 1 - 53) (hi + 53 - 52)
                     (binary_round prec emax true p ez)).
      { apply binary_round_range; lia. }
      split.
      * destruct (binary_round _ _ _ _ _); try contradiction.
        eapply normal_weaken; [exact Hn|lia|lia].
      * destruct (binary_round _ _ _ _ _); try contradiction. discriminate.
Qed.
End Binary64Facts.

(* ================================================================= *)
(** * Counting cells *)

Lemma count_nil k : count k [] = 0.
Proof. reflexivity. Qed.

Lemma count_cons k x a :
  count k (x :: a) = (if x =? k then 1 else 0) + count k a.
Proof.
  unfold count. simpl. destruct (x =? k); simpl length; lia.
Qed.

Lemma count_nonneg k a : 0 <= count k a.
Proof. unfold count. lia. Qed.

Lemma count_le_length k a : count k a <= Z.of_nat (length a).
Proof.
  unfold count. apply inj_le. apply filter_length_le.
Qed.

(** The four confusion classes are disjoint. *)
Lemma count_four a :
  count 2 a + count 1 a + count 3 a + count 0 a <= Z.of_nat (length a).
Proof.
  induction a as [|x a IH]; [rewrite !count_nil; simpl; lia|].
  rewrite !count_cons. simpl length. rewrite Nat2Z.inj_succ.
  destruct (x =? 2) eqn:E2, (x =? 1) eqn:E1, (x =? 3) eqn:E3,
    (x =? 0) eqn:E0; lia.
Qed.

Lemma count_absent k a :
  Forall (fun x => x <> k) a -> count k a = 0.
Proof.
  induction 1 as [|x a Hx _ IH]; [reflexivity|].
  rewrite count_cons, IH.
  destruct (x =? k) eqn:E; [apply Z.eqb_eq in E; contradiction|reflexivity].
Qed.

Lemma Forall_cells (P : Z -> Prop) a :
  (forall i, (i < length a)%nat -> P (cell a i)) -> Forall P a.
Proof.
  intros H. apply Forall_forall. intros x Hx.
  destruct (In_nth _ _ 0 Hx) as [i [Hi <-]]. now apply H.
Qed.

Lemma cells_Forall (P : Z -> Prop) a i :
  Forall P a -> (i < length a)%nat -> P (cell a i).
Proof.
  intros H Hi. rewrite Forall_forall in H. apply H. now apply nth_In.
Qed.

(** Valid cells all holding a confusion code are counted one for one. *)
Lemma count_valid_coded_all r v :
  length r = length v ->
  (forall i, (i < length v)%nat ->
             flag v i = true -> is_confusion_code (cell r i) = true) ->
  count_valid_coded r v = count_valid v.
Proof.
  unfold count_valid_coded, count_valid. revert v.
  induction r as [|x r IH]; intros [|b v] Hl H;
    try reflexivity; try discriminate.
  assert (IH' : Z.of_nat (length (filter
                   (fun p : Z * bool => snd p && is_confusion_code (fst p))
                   (combine r v)))
                = Z.of_nat (length (filter (fun b : bool => b) v))).
  { apply IH; [simpl in Hl; lia|]. intros i Hi. apply (H (S i)).
    simpl. lia. }
  pose proof (H 0%nat) as H0. unfold flag, cell in H0. simpl in H0.
  simpl. destruct b; simpl.
  - rewrite H0 by (reflexivity || lia). simpl length. lia.
  - exact IH'.
Qed.

Lemma inr_inj {A B : Type} (a b : B) : @inr A B a = inr b -> a = b.
Proof. intros H. injection H. auto. Qed.

(* ================================================================= *)
(** * A run on the machine returns *)

Section Returns.
Import Binary64 Binary64Facts.
Variable libm_exp : spec_float -> spec_float.
Let AF : Arith spec_float := binary64 libm_exp.
Existing Instance AF.

Lemma P_returns TP FP FN :
  0 <= FP -> 0 <= TP + FN < 2 ^ 63 ->
  exists p, Spec.P TP FP FN = inr p.
Proof.
  intros HFP HS. unfold Spec.P, AF. simpl.
  apply exp_nonpositive.
  change true with (xorb false true).
  apply fdiv_sign; [now apply float_of_int_sign|].
  change true with (xorb false true).
  apply fdiv_sign; [|reflexivity].
  apply float_of_int_sign. rewrite wrap64_small; lia.
Qed.

Lemma report_returns r v :
  Z.of_nat (length r) < 2 ^ 63 ->
  exists p,
    Spec.P (count 2 r) (count 3 r) (count 0 r) = inr p /\
    report r v =
    inr (mkOutput r v
           (Spec.UA (count 2 r) (count 3 r))
           (Spec.PA (count 2 r) (count 0 r))
           (Spec.Ce (count 2 r) (count 3 r))
           (Spec.Oe (count 2 r) (count 0 r))
           (Spec.CSI (count 2 r) (count 3 r) (count 0 r))
           (Spec.F1 (count 2 r) (count 3 r) (count 0 r))
           (Spec.SR (count 2 r) (count 0 r) p)
           (Spec.K (count 2 r) (count 1 r) (count 3 r) (count 0 r))
           (Spec.A (count 2 r) (count 1 r) (count 3 r) (count 0 r))).
Proof.
  intros Hl.
  pose proof (count_four r). pose proof (count_nonneg 0 r).
  pose proof (count_nonneg 1 r). pose proof (count_nonneg 2 r).
  pose proof (count_nonneg 3 r).
  destruct (P_returns (count 2 r) (count 3 r) (count 0 r)) as [p Hp];
    [lia|lia|].
  exists p. split; [exact Hp|]. unfold report. now rewrite Hp.
Qed.

Lemma validate_returns t dn vn s :
  shapes_agree s = true -> size_ok s = true ->
  exists out,
    Validation.validate t dn vn s = (inr out, after_run s) /\
    report (difference t dn vn s) (validity s) = inr out.
Proof.
  intros Hs Hz. rewrite validate_unfold, Hs.
  destruct (report_returns (difference t dn vn s) (validity s))
    as [p [_ Hr]].
  - rewrite length_difference by assumption.
    unfold size_ok in Hz. now apply Z.ltb_lt in Hz.
  - rewrite Hr. eexists. split; reflexivity.
Qed.
End Returns.

(* ================================================================= *)
(** * Running again on what a run left behind *)

Lemma shapes_agree_after_run s :
  shapes_agree s = true -> shapes_agree (after_run s) = true.
Proof.
  intros H. pose proof (length_masked_data s H) as Hl.
  apply shapes_agree_iff in H. apply shapes_agree_iff.
  unfold after_run. simpl. rewrite Hl. exact H.
Qed.

Lemma excluded_after_run s i : excluded (after_run s) i = excluded s i.
Proof. reflexivity. Qed.

Lemma masked_data_after_run s :
  shapes_agree s = true -> masked_data (after_run s) = masked_data s.
Proof.
  intros H. pose proof (shapes_agree_after_run s H) as H'.
  pose proof (length_masked_data s H) as Hl.
  apply (nth_ext _ _ 0 0).
  - rewrite length_masked_data by assumption. reflexivity.
  - intros i Hi. rewrite length_masked_data in Hi by assumption.
    simpl in Hi. fold (cell (masked_data (after_run s)) i).
    rewrite cell_masked_data by (assumption || simpl; lia).
    rewrite excluded_after_run. simpl data.
    fold (cell (masked_data s) i).
    rewrite (cell_masked_data s i H) by lia.
    destruct (excluded s i); reflexivity.
Qed.

Lemma difference_after_run t dn vn s :
  shapes_agree s = true ->
  difference t dn vn (after_run s) = difference t dn vn s.
Proof.
  intros H. pose proof (shapes_agree_after_run s H) as H'.
  pose proof (length_masked_data s H) as Hl.
  apply (nth_ext _ _ 0 0).
  - rewrite !length_difference by assumption. exact Hl.
  - intros i Hi. rewrite length_difference in Hi by assumption.
    simpl in Hi. rewrite Hl in Hi.
    fold (cell (difference t dn vn (after_run s)) i).
    fold (cell (difference t dn vn s) i).
    rewrite !cell_difference by (assumption || simpl; lia).
    rewrite excluded_after_run. simpl data. simpl val_data.
    rewrite (cell_masked_data s i H) by lia.
    destruct (excluded s i); reflexivity.
Qed.

Lemma validity_after_run s :
  shapes_agree s = true -> validity (after_run s) = validity s.
Proof.
  intros H. unfold validity at 1.
  rewrite masked_data_after_run by assumption. reflexivity.
Qed.

Lemma after_run_idempotent s :
  shapes_agree s = true -> after_run (after_run s) = after_run s.
Proof.
  intros H. unfold after_run at 1.
  rewrite masked_data_after_run by assumption. reflexivity.
Qed.

(* ================================================================= *)
(** * Sums, products and squares of the counts *)

Lemma products_bound TP TN FP FN :
  0 <= TP -> 0 <= TN -> 0 <= FP -> 0 <= FN ->
  0 <= (TP + FN) * (TP + FP) /\ 0 <= (FP + TN) * (FN + TN) /\
  (TP + FN) * (TP + FP) + (FP + TN) * (FN + TN)
  <= (TP + TN + FP + FN) * (TP + TN + FP + FN).
Proof.
  intros H2 H1 H3 H0.
  assert (A1 : 0 <= (TP + FN) * (TP + FP)) by (apply Z.mul_nonneg_nonneg; lia).
  assert (A2 : 0 <= (FP + TN) * (FN + TN)) by (apply Z.mul_nonneg_nonneg; lia).
  assert (A3 : 0 <= (TP + FN) * (FN + TN)) by (apply Z.mul_nonneg_nonneg; lia).
  assert (A4 : 0 <= (FP + TN) * (TP + FP)) by (apply Z.mul_nonneg_nonneg; lia).
  split; [exact A1|]. split; [exact A2|]. lia.
Qed.

Lemma square_small N : 0 < N <= 4096 -> N * N < 9007199254740992.
Proof.
  intros H.
  assert (N * N <= 4096 * 4096) by (apply Z.mul_le_mono_nonneg; lia).
  lia.
Qed.

Lemma below_square N :
  0 <= N -> N * N < 9223372036854775808 -> 4 * N < 9223372036854775808.
Proof.
  intros H0 H. destruct (Z_lt_le_dec N 4294967296) as [|Hge]; [lia|].
  assert (4294967296 * 4294967296 <= N * N)
    by (apply Z.mul_le_mono_nonneg; lia).
  lia.
Qed.

Lemma square_le a b : 0 <= a <= b -> a ^ 2 <= b ^ 2.
Proof.
  intros H. rewrite !Z.pow_2_r. apply Z.mul_le_mono_nonneg; lia.
Qed.

(* ================================================================= *)
(** * The formulas on counts that do not wrap *)

Section FormulaFacts.
Import Binary64 Binary64Facts.
Variable libm_exp : spec_float -> spec_float.
Let AF : Arith spec_float := binary64 libm_exp.
Existing Instance AF.

(** Where the sums stay below 2^63 the ratios of the code are those of
    the formulas. *)
Lemma ratios_are_formulas TP TN FP FN :
  0 <= TP -> 0 <= TN -> 0 <= FP -> 0 <= FN ->
  2 * (TP + TN + FP + FN) < 2 ^ 63 ->
  Spec.UA TP FP = Formula.UA TP FP /\
  Spec.PA TP FN = Formula.PA TP FN /\
  Spec.Ce TP FP = Formula.Ce TP FP /\
  Spec.Oe TP FN = Formula.Oe TP FN /\
  Spec.CSI TP FP FN = Formula.CSI TP FP FN /\
  Spec.F1 TP FP FN = Formula.F1 TP FP FN /\
  Spec.Po TP TN FP FN = Formula.Po TP TN FP FN /\
  Spec.P TP FP FN = Formula.P TP FP FN libm_exp /\
  forall p, Spec.SR TP FN p = Formula.SR TP FN p.
Proof.
  intros H2 H1 H3 H0 HN.
  unfold Spec.UA, Spec.PA, Spec.Ce, Spec.Oe, Spec.CSI, Spec.F1, Spec.Po,
    Spec.P, Spec.SR, Spec.PA, Formula.UA, Formula.PA, Formula.Ce, Formula.Oe,
    Formula.CSI, Formula.F1, Formula.Po, Formula.P, Formula.SR, Formula.PA,
    Formula.quotient, AF.
  cbn [fdiv fsub of_int iadd imul math_exp math_log_half binary64].
  change (2 ^ 63) with 9223372036854775808 in HN.
  assert (W : forall z, 0 <= z < 9223372036854775808 -> wrap64 z = z)
    by (intros z Hz; apply wrap64_small;
        change (2 ^ 63) with 9223372036854775808; lia).
  rewrite !(W (TP + FP)), !(W (TP + FN)), !(W (FP + TP)), !(W (FN + TP)),
    !(W (TP + FP + FN)), !(W (2 * TP)), !(W (2 * TP + FN)),
    !(W (2 * TP + FN + FP)), !(W (TP + TN)), !(W (TP + TN + FP)),
    !(W (TP + TN + FP + FN)) by lia.
  repeat split.
Qed.

(** The ratios without a product only need the sum to be below 2^63. *)
Lemma sums_are_formulas TP TN FP FN :
  0 <= TP -> 0 <= TN -> 0 <= FP -> 0 <= FN ->
  TP + TN + FP + FN < 2 ^ 63 ->
  Spec.UA TP FP = Formula.UA TP FP /\
  Spec.PA TP FN = Formula.PA TP FN /\
  Spec.Ce TP FP = Formula.Ce TP FP /\
  Spec.Oe TP FN = Formula.Oe TP FN /\
  Spec.CSI TP FP FN = Formula.CSI TP FP FN /\
  Spec.Po TP TN FP FN = Formula.Po TP TN FP FN.
Proof.
  intros H2 H1 H3 H0 HN.
  unfold Spec.UA, Spec.PA, Spec.Ce, Spec.Oe, Spec.CSI, Spec.Po,
    Formula.UA, Formula.PA, Formula.Ce, Formula.Oe,
    Formula.CSI, Formula.Po, Formula.quotient, AF.
  cbn [fdiv of_int iadd binary64].
  change (2 ^ 63) with 9223372036854775808 in HN.
  assert (W : forall z, 0 <= z < 9223372036854775808 -> wrap64 z = z)
    by (intros z Hz; apply wrap64_small;
        change (2 ^ 63) with 9223372036854775808; lia).
  rewrite !(W (TP + FP)), !(W (TP + FN)), !(W (FP + TP)), !(W (FN + TP)),
    !(W (TP + FP + FN)), !(W (TP + TN)), !(W (TP + TN + FP)),
    !(W (TP + TN + FP + FN)) by lia.
  repeat split.
Qed.

(** Where the square of the sum stays below 2^63, so are Pe and Kappa. *)
Lemma kappa_is_formula TP TN FP FN :
  0 <= TP -> 0 <= TN -> 0 <= FP -> 0 <= FN ->
  (TP + TN + FP + FN) ^ 2 < 2 ^ 63 ->
  Spec.Pe TP TN FP FN = Formula.Pe TP TN FP FN /\
  Spec.K TP TN FP FN = Formula.K TP TN FP FN.
Proof.
  intros H2 H1 H3 H0 HN.
  assert (HN1 : 2 * (TP + TN + FP + FN) < 2 ^ 63).
  { rewrite Z.pow_2_r in HN. change (2 ^ 63) with 9223372036854775808 in *.
    pose proof (below_square (TP + TN + FP + FN) ltac:(lia) HN). lia. }
  destruct (ratios_are_formulas TP TN FP FN H2 H1 H3 H0 HN1)
    as (_ & _ & _ & _ & _ & _ & EPo & _).
  assert (EPe : Spec.Pe TP TN FP FN = Formula.Pe TP TN FP FN).
  { unfold Spec.Pe, Formula.Pe, Formula.quotient, AF.
    cbn [fdiv of_int iadd imul ipow binary64].
    rewrite Z.pow_2_r in *.
    change (2 ^ 63) with 9223372036854775808 in *.
    assert (W : forall z, 0 <= z < 9223372036854775808 -> wrap64 z = z)
      by (intros z Hz; apply wrap64_small;
          change (2 ^ 63) with 9223372036854775808; lia).
    rewrite !(W (TP + FP)), !(W (TP + FN)), !(W (FP + TN)), !(W (FN + TN)),
      !(W (TP + TN)), !(W (TP + TN + FP)), !(W (TP + TN + FP + FN)) by lia.
    destruct (products_bound TP TN FP FN H2 H1 H3 H0) as (B1 & B2 & B3).
    rewrite !(W ((TP + FN) * (TP + FP))), !(W ((FP + TN) * (FN + TN))),
      !(W ((TP + FN) * (TP + FP) + (FP + TN) * (FN + TN))),
      !(W ((TP + TN + FP + FN) * (TP + TN + FP + FN))) by lia.
    now rewrite Z.pow_2_r. }
  split; [exact EPe|].
  unfold Spec.K, Formula.K. rewrite EPe, EPo. reflexivity.
Qed.
End FormulaFacts.

(* ================================================================= *)
(** * The formulas are numbers where their denominators are not zero *)

Section FormulaNumbers.
Import Binary64 Binary64Facts.

Lemma quotient_normal a b :
  0 <= a < 2 ^ 63 -> 0 < b < 2 ^ 63 ->
  normal_or_zero (-116) 12 (Formula.quotient a b) /\
  sign_or_nan false (Formula.quotient a b) = true /\
  (0 < a -> normal (-116) 12 (Formula.quotient a b)).
Proof.
  intros Ha Hb. unfold Formula.quotient.
  destruct (float_of_int_normal_or_zero a Ha) as (Na & Sa & Pa).
  destruct (float_of_int_normal_or_zero b ltac:(lia)) as (_ & Sb & Pb).
  destruct (fdiv_normal_range (-52) 11 (-52) 11 false false
              (float_of_int a) (float_of_int b) Na (Pb ltac:(lia)) Sa Sb
              ltac:(lia) ltac:(lia)) as (H1 & H2 & H3).
  split; [exact H1|]. split; [exact H2|]. intros Hpos. apply H3. now apply Pa.
Qed.


Lemma quotient_zero_zero : Formula.quotient 0 0 = nan.
Proof. reflexivity. Qed.

Lemma quotient_is_one a b :
  0 <= a <= b -> 0 < b < 2 ^ 63 ->
  Formula.quotient a b = one ->
  0 < a /\ b - a <= 4096 /\ (a < b -> 2 ^ 53 <= b).
Proof.
  intros Ha Hb H.
  destruct (Z.eq_dec a 0) as [->|Ha0].
  - unfold Formula.quotient in H.
    destruct (float_of_int_normal b) as (my & ey & Ey & _); [lia|].
    rewrite Ey in H. discriminate.
  - split; [lia|]. apply float_of_int_eq; try lia.
    unfold Formula.quotient in H.
    destruct (float_of_int_normal a) as (mx & ex & Ex & Hmx & Hex & _); [lia|].
    destruct (float_of_int_normal b) as (my & ey & Ey & Hmy & Hey & _); [lia|].
    rewrite Ex, Ey in *.
    destruct (fdiv_normal_one false mx ex false my ey Hmx Hmy ltac:(lia) H)
      as [-> ->].
    reflexivity.
Qed.

Lemma sign_exists x : is_finite x = true -> exists s, sign_or_nan s x = true.
Proof.
  destruct x as [s|s| |s m e]; try discriminate; intros _; exists s;
    apply eqb_reflx.
Qed.

(** The chance agreement Pe is below one as soon as the counted cells do
    not all fall into one agreeing class. *)
Lemma chance_gap TP TN FP FN :
  0 <= TP -> 0 <= TN -> 0 <= FP -> 0 <= FN ->
  0 < FP \/ 0 < FN \/ (0 < TP /\ 0 < TN) ->
  (TP + FN) * (TP + FP) + (FP + TN) * (FN + TN) + (TP + TN + FP + FN)
  <= (TP + TN + FP + FN) ^ 2.
Proof.
  intros H2 H1 H3 H0 H. rewrite Z.pow_2_r.
  assert (FN <= FN * FN) by nia. assert (FP <= FP * FP) by nia.
  assert (0 <= TP * FN) by nia. assert (0 <= TP * TN) by nia.
  assert (0 <= FN * TN) by nia. assert (0 <= FP * TP) by nia.
  assert (0 <= TN * FP) by nia.
  destruct H as [H | [H | [Ha Hb]]].
  - assert (TP <= FP * TP) by nia. assert (TN <= TN * FP) by nia. lia.
  - assert (TP <= TP * FN) by nia. assert (TN <= FN * TN) by nia. lia.
  - assert (TP + TN <= 2 * (TP * TN)) by nia. lia.
Qed.

Lemma kappa_finite TP TN FP FN :
  0 <= TP -> 0 <= TN -> 0 <= FP -> 0 <= FN ->
  (TP + TN + FP + FN) ^ 2 < 2 ^ 63 ->
  0 < FP \/ 0 < FN \/ (0 < TP /\ 0 < TN) ->
  is_finite (Formula.K TP TN FP FN) = true /\
  normal (-168) 13 (SFsub prec emax one (Formula.Pe TP TN FP FN)).
Proof.
  intros H2 H1 H3 H0 HN Hc.
  pose proof (chance_gap TP TN FP FN H2 H1 H3 H0 Hc) as Hgap.
  assert (Hpos : 0 < TP + TN + FP + FN) by lia.
  set (N := TP + TN + FP + FN) in *.
  set (num := (TP + FN) * (TP + FP) + (FP + TN) * (FN + TN)) in *.
  assert (Hnum : 0 <= num)
    by (unfold num; destruct (products_bound TP TN FP FN H2 H1 H3 H0)
          as (B1 & B2 & _); lia).
  assert (HN2 : N < 2 ^ 63).
  { rewrite Z.pow_2_r in HN. change (2 ^ 63) with 9223372036854775808 in *.
    pose proof (below_square N ltac:(lia) HN). lia. }
  assert (Hden : 0 < N ^ 2)
    by (rewrite Z.pow_2_r; apply Z.mul_pos_pos; lia).
  destruct (quotient_normal (TP + TN) N ltac:(lia) ltac:(lia))
    as (NPo & SPo & _).
  destruct (quotient_normal num (N ^ 2) ltac:(lia) ltac:(lia))
    as (NPe & SPe & _).
  fold (Formula.Po TP TN FP FN) in NPo, SPo.
  fold (Formula.Pe TP TN FP FN) in NPe, SPe.
  assert (Hne : Formula.Pe TP TN FP FN <> one).
  { intros E.
    destruct (quotient_is_one num (N ^ 2) ltac:(lia) ltac:(lia) E)
      as (_ & Hd & Hb).
    specialize (Hb ltac:(lia)).
    assert (N <= 4096) by lia.
    rewrite Z.pow_2_r in Hb. change (2 ^ 53) with 9007199254740992 in Hb.
    pose proof (square_small N ltac:(lia)). lia. }
  assert (None : normal_or_zero (-116) 12 one) by (simpl; lia).
  destruct (fsub_normal (-116) 12 one (Formula.Pe TP TN FP FN)
              None NPe eq_refl SPe ltac:(lia) ltac:(lia)) as [NY ZY].
  destruct (fsub_normal (-116) 12 (Formula.Po TP TN FP FN)
              (Formula.Pe TP TN FP FN) NPo NPe SPo SPe ltac:(lia) ltac:(lia))
    as [NX _].
  replace (-116 - 52) with (-168) in * by lia.
  replace (12 + 1) with 13 in * by lia.
  set (X := SFsub prec emax (Formula.Po TP TN FP FN)
              (Formula.Pe TP TN FP FN)) in *.
  set (Y := SFsub prec emax one (Formula.Pe TP TN FP FN)) in *.
  assert (NY' : normal (-168) 13 Y).
  { destruct Y as [s| | |s m e] eqn:EY; try contradiction; [|exact NY].
    exfalso. apply Hne. symmetry. apply ZY. reflexivity. }
  split; [|exact NY'].
  destruct (sign_exists X (normal_is_finite _ _ _ NX)) as [sx SX].
  destruct (sign_exists Y (normal_is_finite _ _ _ NY)) as [sy SY].
  destruct (fdiv_normal_range (-168) 13 (-168) 13 sx sy X Y NX NY' SX SY
              ltac:(lia) ltac:(lia)) as (NK & _).
  unfold Formula.K. fold X Y.
  exact (normal_is_finite _ _ _ NK).
Qed.
End FormulaNumbers.

Lemma counts_bounds r :
  0 <= count 2 r /\ 0 <= count 1 r /\ 0 <= count 3 r /\ 0 <= count 0 r /\
  count 2 r + count 1 r + count 3 r + count 0 r <= Z.of_nat (length r).
Proof.
  pose proof (count_four r). pose proof (count_nonneg 0 r).
  pose proof (count_nonneg 1 r). pose proof (count_nonneg 2 r).
  pose proof (count_nonneg 3 r). lia.
Qed.

Lemma products_fit_bounds s :
  products_fit s = true ->
  Z.of_nat (length (data s)) ^ 2 < 2 ^ 63 /\
  2 * Z.of_nat (length (data s)) < 2 ^ 63 /\ size_ok s = true.
Proof.
  unfold products_fit, size_ok. intros H. apply Z.ltb_lt in H.
  split; [exact H|]. rewrite Z.pow_2_r in H.
  change (2 ^ 63) with 9223372036854775808 in *.
  pose proof (below_square _ (Nat2Z.is_nonneg (length (data s))) H).
  split; [lia|]. apply Z.ltb_lt. lia.
Qed.

(* ================================================================= *)
(** * Arrays made of constant blocks *)










(* ================================================================= *)
(** * Identities up to rounding *)

Section Identities.
Import Binary64 Binary64Facts.

(** Two quotients with numerators adding up to their common denominator
    add up to one, up to 2^-53. *)
Lemma complementary_quotients a b :
  0 <= a -> 0 <= b -> 0 < a + b < 2 ^ 53 ->
  is_finite (Formula.quotient a (a + b)) = true /\
  is_finite (Formula.quotient b (b + a)) = true /\
  (Rabs (value (Formula.quotient b (b + a))
         - (1 - value (Formula.quotient a (a + b)))) <= / IZR (2 ^ 53))%R.
Proof.
  intros Ha Hb Hn. unfold Formula.quotient.
  destruct (quotient_rounded a (a + b) ltac:(lia) ltac:(lia))
    as (Fa & _ & Ea).
  destruct (quotient_rounded b (b + a) ltac:(lia) ltac:(lia))
    as (Fb & _ & Eb).
  split; [exact Fa|]. split; [exact Fb|].
  set (x := value (fdiv64 (float_of_int a) (float_of_int (a + b)))) in *.
  set (y := value (fdiv64 (float_of_int b) (float_of_int (b + a)))) in *.
  replace (b + a) with (a + b) in Eb by lia.
  assert (Hn' : (0 < IZR (a + b))%R) by (apply IZR_lt; lia).
  assert (E1 : (IZR b / IZR (a + b) = 1 - IZR a / IZR (a + b))%R).
  { rewrite plus_IZR in *. field. lra. }
  assert (E53 : (/ IZR (2 ^ 53) = / IZR (2 ^ 54) + / IZR (2 ^ 54))%R).
  { replace (IZR (2 ^ 54)) with (2 * IZR (2 ^ 53))%R
      by (rewrite <- mult_IZR; reflexivity).
    pose proof (IZR_pow2_pos 53 ltac:(lia)). field. lra. }
  rewrite E53.
  replace (y - (1 - x))%R
    with ((y - IZR b / IZR (a + b)) + (x - IZR a / IZR (a + b)))%R
    by (rewrite E1; ring).
  eapply Rle_trans; [apply Rabs_triang|]. lra.
Qed.
End Identities.

(* ================================================================= *)
(** * Each metric of a report is a number or not-a-number *)

Lemma count_pos_iff k a : 0 < count k a <-> In k a.
Proof.
  induction a as [|x a IH]; [rewrite count_nil; simpl; lia|].
  rewrite count_cons. pose proof (count_nonneg k a). simpl.
  destruct (x =? k) eqn:E.
  - apply Z.eqb_eq in E. split; [auto|lia].
  - apply Z.eqb_neq in E. rewrite <- IH. split; [intros; right; lia|].
    intros [H'|H']; [contradiction|lia].
Qed.

Section NotNan.
Import Binary64 Binary64Facts.





End NotNan.

Section PerMetric.
Import Binary64 Binary64Facts.



Variable libm_exp : spec_float -> spec_float.

End PerMetric.

Section Reported.
Import Binary64 Binary64Facts.
Variable libm_exp : spec_float -> spec_float.

End Reported.

(* ================================================================= *)
(** * Kappa of perfect agreement, success rate without false positives *)

Section Exactly.
Import Binary64 Binary64Facts.

Lemma formula_kappa_of_agreement TP TN :
  0 < TP -> 0 < TN -> (TP + TN) ^ 2 < 2 ^ 63 ->
  Formula.K TP TN 0 0 = one /\ Formula.Po TP TN 0 0 = one.
Proof.
  intros H2 H1 HN.
  assert (HN' : (TP + TN + 0 + 0) ^ 2 < 2 ^ 63)
    by (now replace (TP + TN + 0 + 0) with (TP + TN) by ring).
  destruct (kappa_finite TP TN 0 0 ltac:(lia) ltac:(lia) ltac:(lia)
              ltac:(lia) HN' ltac:(right; right; lia)) as [_ NY].
  assert (EPo : Formula.Po TP TN 0 0 = one).
  { unfold Formula.Po, Formula.quotient.
    replace (TP + TN + 0 + 0) with (TP + TN) by ring.
    rewrite fdiv_self_cases, float_of_int_finite; [reflexivity|lia|].
    rewrite Z.pow_2_r in HN. change (2 ^ 63) with 9223372036854775808 in *.
    pose proof (below_square (TP + TN) ltac:(lia) HN). lia. }
  split; [|exact EPo].
  unfold Formula.K. rewrite EPo, fdiv_self_cases.
  destruct (SFsub prec emax one (Formula.Pe TP TN 0 0)); try contradiction.
  reflexivity.
Qed.

Variable libm_exp : spec_float -> spec_float.

(** Without a false positive the penalization is exp(-0) = 1 and the
    success rate is the producer's accuracy. *)
Lemma success_rate_without_false_positives TP FN p :
  0 <= TP -> 0 <= FN -> 0 < TP + FN < 2 ^ 63 ->
  Spec.P (AF := binary64 libm_exp) TP 0 FN = inr p ->
  p = one /\
  Spec.SR (AF := binary64 libm_exp) TP FN p
  = Spec.PA (AF := binary64 libm_exp) TP FN.
Proof.
  intros H2 H0 HS. unfold Spec.P, Spec.SR, Spec.PA.
  cbn [fdiv fsub of_int iadd math_exp math_log_half binary64].
  rewrite wrap64_small by lia.
  destruct (float_of_int_normal_or_zero (TP + FN) ltac:(lia))
    as (NS0 & SS & NS).
  assert (Nlog : normal (-53) (-53) log_half) by (simpl; lia).
  destruct (fdiv_normal_range (-52) 11 (-53) (-53) false true
              (float_of_int (TP + FN)) log_half
              NS0 Nlog SS eq_refl ltac:(lia) ltac:(lia)) as (_ & _ & NI).
  specialize (NI (NS ltac:(lia))).
  destruct (fdiv64 (float_of_int (TP + FN)) log_half) as [| | |si mi ei];
    try contradiction.
  cbn [float_of_int binary_normalize SFdiv exp].
  intros H. apply inr_inj in H. subst p. split; [reflexivity|].
  change (fsub64 (float_of_int 1) one) with (S754_zero false).
  destruct (quotient_normal TP (TP + FN) ltac:(lia) ltac:(lia))
    as (NP & SP & _).
  unfold Formula.quotient in NP, SP.
  destruct (fdiv64 (float_of_int TP) (float_of_int (TP + FN)))
    as [s| | |s m e]; try contradiction.
  - simpl in SP. apply eqb_prop in SP. subst. reflexivity.
  - reflexivity.
Qed.
End Exactly.

(* ================================================================= *)
(** * The theorems *)

(** C10. The [validate] of worker.py and the [validate] of validation.py
    are extensionally equal: on every input (the three arrays of the
    store and the two nodata values, in any element type and under any
    arithmetic) they return the same difference map, the same validity
    mask and the same ten metrics, or raise the same exception, and leave
    the arrays in the same state. *)
Theorem worker_validate_eq_validation_validate
  {F : Type} {AF : Arith F} (t : dtype) (data_nodata val_nodata : Z)
  (s : store) :
  Worker.validate t data_nodata val_nodata s
  = Validation.validate t data_nodata val_nodata s.
Proof.
  unfold Worker.validate, Validation.validate. reflexivity.
Qed.

(** C7. Running [validate] a second time, on the arrays as the first run
    left them (the data array carrying the 255 written under the mask),
    gives the same outcome as the first run: the same difference map,
    validity mask and metrics (or the same exception), for every mask,
    every pair of nodata values and under any arithmetic; the arrays are
    not changed any further. *)
Theorem validate_twice
  {F : Type} {AF : Arith F} (t : dtype) (data_nodata val_nodata : Z)
  (s : store) :
  Validation.validate t data_nodata val_nodata
    (snd (Validation.validate t data_nodata val_nodata s))
  = Validation.validate t data_nodata val_nodata s.
Proof.
  rewrite (validate_unfold t data_nodata val_nodata s).
  destruct (shapes_agree s) eqn:E; simpl snd.
  - rewrite validate_unfold, shapes_agree_after_run by assumption.
    rewrite difference_after_run, validity_after_run, after_run_idempotent
      by assumption.
    reflexivity.
  - rewrite validate_unfold, E. reflexivity.
Qed.

(** C6. The validity mask a run returns is true at exactly the cells
    where the reference value differs from 255 and the classification
    value, after the mask has been applied to it, differs from 255; the
    constant 255 is used whatever [data_nodata] and [val_nodata] are. *)
Theorem valid_mask_fixed_sentinel
  (libm_exp : spec_float -> spec_float) (t : dtype)
  (data_nodata val_nodata : Z) (s : store) :
  shapes_agree s = true -> size_ok s = true ->
  exists out,
    Validation.validate (AF := binary64 libm_exp) t data_nodata val_nodata s
    = (inr out, after_run s) /\
    length (valid out) = length (data s) /\
    forall i, (i < length (data s))%nat ->
      (flag (valid out) i = true <->
       cell (val_data s) i <> 255 /\ cell (data (after_run s)) i <> 255) /\
      cell (data (after_run s)) i =
      (if excluded s i then 255 else cell (data s) i).
Proof.
  intros Hs Hz.
  destruct (validate_returns libm_exp t data_nodata val_nodata s Hs Hz)
    as [out [Hv Hr]].
  exists out. split; [exact Hv|].
  assert (Ev : valid out = validity s).
  { unfold report in Hr. destruct (Spec.P _ _ _); [discriminate|].
    apply inr_inj in Hr. rewrite <- Hr. reflexivity. }
  rewrite Ev. split; [now apply length_validity|].
  intros i Hi. simpl data. split.
  - rewrite flag_validity by assumption.
    rewrite andb_true_iff, !negb_true_iff, !Z.eqb_neq. reflexivity.
  - now apply cell_masked_data.
Qed.

Lemma valid_mask_fixed_sentinel_witness :
  shapes_agree sample_nodata = true /\ size_ok sample_nodata = true /\
  exists out,
    Validation.validate (AF := binary64 sample_libm_exp) uint8 7 9
      sample_nodata
    = (inr out, after_run sample_nodata) /\
    length (valid out) = length (data sample_nodata) /\
    forall i, (i < length (data sample_nodata))%nat ->
      (flag (valid out) i = true <->
       cell (val_data sample_nodata) i <> 255 /\
       cell (data (after_run sample_nodata)) i <> 255) /\
      cell (data (after_run sample_nodata)) i =
      (if excluded sample_nodata i then 255
       else cell (data sample_nodata) i).
Proof.
  split; [reflexivity|]. split; [reflexivity|].
  exact (valid_mask_fixed_sentinel sample_libm_exp uint8 7 9 sample_nodata
           eq_refl eq_refl).
Defined.

(** C3. At a cell whose classification and reference values are both 0
    or 1, with nodata values that are neither 0 nor 1, and which the mask
    does not exclude, the difference code is 1 + 2 data - reference:
    2 exactly for data 1 and reference 1, 1 for data 0 and reference 0,
    0 for data 0 and reference 1, 3 for data 1 and reference 0. *)
Theorem confusion_code_of_binary_cell
  (libm_exp : spec_float -> spec_float) (t : dtype)
  (data_nodata val_nodata : Z) (s : store) (i : nat) :
  shapes_agree s = true -> size_ok s = true ->
  (i < length (data s))%nat ->
  (cell (data s) i = 0 \/ cell (data s) i = 1) ->
  (cell (val_data s) i = 0 \/ cell (val_data s) i = 1) ->
  data_nodata <> 0 -> data_nodata <> 1 ->
  val_nodata <> 0 -> val_nodata <> 1 ->
  excluded s i = false ->
  exists out,
    Validation.validate (AF := binary64 libm_exp) t data_nodata val_nodata s
    = (inr out, after_run s) /\
    cell (res out) i = Spec.code (cell (data s) i) (cell (val_data s) i) /\
    (cell (res out) i = 2 <->
     cell (data s) i = 1 /\ cell (val_data s) i = 1) /\
    (cell (res out) i = 1 <->
     cell (data s) i = 0 /\ cell (val_data s) i = 0) /\
    (cell (res out) i = 0 <->
     cell (data s) i = 0 /\ cell (val_data s) i = 1) /\
    (cell (res out) i = 3 <->
     cell (data s) i = 1 /\ cell (val_data s) i = 0).
Proof.
  intros Hs Hz Hi Hd Hv Hdn0 Hdn1 Hvn0 Hvn1 Hex.
  destruct (validate_returns libm_exp t data_nodata val_nodata s Hs Hz)
    as [out [Hval Hr]].
  exists out. split; [exact Hval|].
  assert (Er : res out = difference t data_nodata val_nodata s).
  { unfold report in Hr. destruct (Spec.P _ _ _); [discriminate|].
    apply inr_inj in Hr. rewrite <- Hr. reflexivity. }
  assert (Ec : cell (res out) i
               = Spec.code (cell (data s) i) (cell (val_data s) i)).
  { rewrite Er, cell_difference, Hex by assumption.
    replace (cell (val_data s) i =? val_nodata) with false
      by (symmetry; apply Z.eqb_neq; lia).
    replace (cell (data s) i =? data_nodata) with false
      by (symmetry; apply Z.eqb_neq; lia).
    now apply wrap_code. }
  rewrite Ec. unfold Spec.code. repeat split; lia.
Qed.

Lemma confusion_code_of_binary_cell_witness :
  shapes_agree scenario2 = true /\ size_ok scenario2 = true /\
  (3 < length (data scenario2))%nat /\
  (cell (data scenario2) 3 = 0 \/ cell (data scenario2) 3 = 1) /\
  (cell (val_data scenario2) 3 = 0 \/ cell (val_data scenario2) 3 = 1) /\
  255 <> 0 /\ 255 <> 1 /\ excluded scenario2 3 = false /\
  exists out,
    Validation.validate (AF := binary64 sample_libm_exp) uint8 255 255
      scenario2
    = (inr out, after_run scenario2) /\
    cell (res out) 3
    = Spec.code (cell (data scenario2) 3) (cell (val_data scenario2) 3) /\
    (cell (res out) 3 = 2 <->
     cell (data scenario2) 3 = 1 /\ cell (val_data scenario2) 3 = 1) /\
    (cell (res out) 3 = 1 <->
     cell (data scenario2) 3 = 0 /\ cell (val_data scenario2) 3 = 0) /\
    (cell (res out) 3 = 0 <->
     cell (data scenario2) 3 = 0 /\ cell (val_data scenario2) 3 = 1) /\
    (cell (res out) 3 = 3 <->
     cell (data scenario2) 3 = 1 /\ cell (val_data scenario2) 3 = 0).
Proof.
  split; [reflexivity|]. split; [reflexivity|].
  split; [simpl; lia|]. split; [right; reflexivity|].
  split; [left; reflexivity|]. split; [lia|]. split; [lia|].
  split; [reflexivity|].
  apply (confusion_code_of_binary_cell sample_libm_exp uint8 255 255
           scenario2 3);
    try reflexivity; try lia; try (simpl; lia);
    try (right; reflexivity); try (left; reflexivity).
Defined.

(* ----------------------------------------------------------------- *)
(** ** Degenerate reports *)

Section Degenerate.
Import Binary64 Binary64Facts.
Variable libm_exp : spec_float -> spec_float.
Let AF : Arith spec_float := binary64 libm_exp.
Existing Instance AF.

Lemma report_fields r v out :
  report r v = inr out ->
  exists p,
    out = mkOutput r v
            (Spec.UA (count 2 r) (count 3 r))
            (Spec.PA (count 2 r) (count 0 r))
            (Spec.Ce (count 2 r) (count 3 r))
            (Spec.Oe (count 2 r) (count 0 r))
            (Spec.CSI (count 2 r) (count 3 r) (count 0 r))
            (Spec.F1 (count 2 r) (count 3 r) (count 0 r))
            (Spec.SR (count 2 r) (count 0 r) p)
            (Spec.K (count 2 r) (count 1 r) (count 3 r) (count 0 r))
            (Spec.A (count 2 r) (count 1 r) (count 3 r) (count 0 r)).
Proof.
  unfold report. destruct (Spec.P _ _ _) as [e|p]; [discriminate|].
  intros H. apply inr_inj in H. exists p. symmetry. exact H.
Qed.


End Degenerate.




(** One undefined metric next to defined ones: without a positive
    prediction UA and Ce are not-a-number while PA, Oe, CSI, F1, Kappa
    and the accuracy are numbers. *)
Example undefined_next_to_defined (libm_exp : spec_float -> spec_float) :
  exists out,
    fst (Validation.validate (AF := binary64 libm_exp) uint8 255 255
           (mkStore [0; 0] [0; 1] None)) = inr out /\
    UA out = Binary64.nan /\ Ce out = Binary64.nan /\
    PA out = S754_zero false /\ Oe out = Binary64.one /\
    CSI out = S754_zero false /\ F1 out = S754_zero false /\
    K out = S754_zero false /\
    A out = S754_finite false 4503599627370496 (-53).
Proof.
  eexists. split; [vm_compute; reflexivity|].
  repeat split.
Qed.

(* ----------------------------------------------------------------- *)
(** ** The frame of a run *)

(** What a run does to the caller's arrays: the reference and the mask
    are left alone, the data array receives 255 under the mask and is
    left alone elsewhere. *)
Lemma run_frame {F : Type} {AF : Arith F} t dn vn s :
  shapes_agree s = true ->
  snd (Validation.validate t dn vn s) = after_run s /\
  val_data (after_run s) = val_data s /\
  mask (after_run s) = mask s /\
  (mask s = None -> after_run s = s) /\
  forall i, (i < length (data s))%nat ->
    cell (data (after_run s)) i =
    if excluded s i then 255 else cell (data s) i.
Proof.
  intros Hs. rewrite validate_unfold, Hs. repeat split.
  - intros Hm. destruct s as [d v m]. unfold after_run, masked_data.
    simpl in *. now rewrite Hm.
  - intros i Hi. now apply cell_masked_data.
Qed.

(** C5. With [data_nodata] = 7 and a mask selecting the first cell, the
    run leaves 255 in that cell of the caller's data array, not 7: the
    excluded cell is not marked with the nodata value of the
    classification.  The reference array and the mask are unchanged. *)
Theorem masked_cell_holds_255_not_data_nodata
  {F : Type} {AF : Arith F} :
  snd (Validation.validate uint8 7 255 sample_masked)
  = mkStore [255; 1] [0; 1] (Some [1; 0]) /\
  cell (data (snd (Validation.validate uint8 7 255 sample_masked))) 0 = 255 /\
  cell (data (snd (Validation.validate uint8 7 255 sample_masked))) 0 <> 7.
Proof.
  rewrite validate_unfold. simpl. repeat split. discriminate.
Qed.

(* ----------------------------------------------------------------- *)
(** ** The guarantee of the classifier *)

(** A cell of arrays over 0, 1 and 255, with both nodata values 255:
    it is valid and holds a confusion code, or is invalid and holds 255. *)
Lemma coded_or_255 t (d v : Z) (ex : bool) :
  (d = 0 \/ d = 1 \/ d = 255) -> (v = 0 \/ v = 1 \/ v = 255) ->
  let c := if ex then 255
           else if v =? 255 then 255
           else if d =? 255 then 255
           else wrap t (wrap t (1 + wrap t (2 * d)) - v) in
  if negb (v =? 255) && negb ((if ex then 255 else d) =? 255)
  then is_confusion_code c = true
  else c = 255.
Proof.
  intros Hd Hv. cbv zeta.
  destruct ex; [rewrite andb_false_r; reflexivity|].
  destruct Hv as [-> | [-> | ->]]; [| |reflexivity];
    (destruct Hd as [-> | [-> | ->]]; [| |reflexivity]);
    cbn [Z.eqb negb andb];
    (rewrite wrap_code
       by ((left; reflexivity) || (right; reflexivity)));
    reflexivity.
Qed.

Section Guarantee.
Variable libm_exp : spec_float -> spec_float.

(** With both nodata values at their default 255 the guarantee holds:
    the valid cells all hold a confusion code, the others hold 255. *)
Lemma guarantee_at_default_sentinels t s :
  shapes_agree s = true -> size_ok s = true ->
  Forall (fun d => d = 0 \/ d = 1 \/ d = 255) (data s) ->
  Forall (fun v => v = 0 \/ v = 1 \/ v = 255) (val_data s) ->
  exists out,
    Validation.validate (AF := binary64 libm_exp) t 255 255 s
    = (inr out, after_run s) /\
    count_valid_coded (res out) (valid out) = count_valid (valid out) /\
    forall i, (i < length (data s))%nat ->
              flag (valid out) i = false -> cell (res out) i = 255.
Proof.
  intros Hs Hz Hd Hv.
  destruct (validate_returns libm_exp t 255 255 s Hs Hz)
    as [out [Hval Hr]].
  destruct (report_fields libm_exp _ _ _ Hr) as [p Ho].
  exists out. split; [exact Hval|].
  assert (Er : res out = difference t 255 255 s) by (rewrite Ho; reflexivity).
  assert (Ev : valid out = validity s) by (rewrite Ho; reflexivity).
  rewrite Er, Ev.
  pose proof Hs as Hs'. apply shapes_agree_iff in Hs'.
  assert (Hcell : forall i, (i < length (data s))%nat ->
            if flag (validity s) i
            then is_confusion_code (cell (difference t 255 255 s) i) = true
            else cell (difference t 255 255 s) i = 255).
  { intros i Hi.
    rewrite flag_validity, cell_difference, cell_masked_data
      by assumption.
    apply coded_or_255.
    - exact (cells_Forall _ _ i Hd Hi).
    - apply (cells_Forall _ _ i Hv). lia. }
  split.
  - apply count_valid_coded_all.
    + rewrite length_difference, length_validity by assumption.
      reflexivity.
    + intros i Hi Hf. rewrite length_validity in Hi by assumption.
      specialize (Hcell i Hi). now rewrite Hf in Hcell.
  - intros i Hi Hf. specialize (Hcell i Hi). now rewrite Hf in Hcell.
Qed.

(** Whatever the nodata values, a cell outside the validity mask holds
    255, as long as the arrays hold nothing but 0, 1 and their nodata
    value. *)
Lemma invalid_cells_hold_255 t dn vn s :
  shapes_agree s = true -> size_ok s = true ->
  Forall (fun d => d = 0 \/ d = 1 \/ d = dn) (data s) ->
  Forall (fun v => v = 0 \/ v = 1 \/ v = vn) (val_data s) ->
  exists out,
    Validation.validate (AF := binary64 libm_exp) t dn vn s
    = (inr out, after_run s) /\
    forall i, (i < length (data s))%nat ->
              flag (valid out) i = false -> cell (res out) i = 255.
Proof.
  intros Hs Hz Hd Hv.
  destruct (validate_returns libm_exp t dn vn s Hs Hz)
    as [out [Hval Hr]].
  destruct (report_fields libm_exp _ _ _ Hr) as [p Ho].
  exists out. split; [exact Hval|].
  assert (Er : res out = difference t dn vn s) by (rewrite Ho; reflexivity).
  assert (Ev : valid out = validity s) by (rewrite Ho; reflexivity).
  rewrite Er, Ev. intros i Hi.
  pose proof Hs as Hs'. apply shapes_agree_iff in Hs'.
  rewrite flag_validity, cell_difference, cell_masked_data by assumption.
  pose proof (cells_Forall _ _ i Hd Hi) as Hdi. simpl in Hdi.
  assert (Hvi : cell (val_data s) i = 0 \/ cell (val_data s) i = 1 \/
                cell (val_data s) i = vn)
    by (apply (cells_Forall _ _ i Hv); lia).
  destruct (excluded s i); [reflexivity|].
  destruct (cell (val_data s) i =? vn) eqn:Evn; [reflexivity|].
  destruct (cell (data s) i =? dn) eqn:Edn; [reflexivity|].
  apply Z.eqb_neq in Evn, Edn.
  destruct Hvi as [E1 | [E1 | E1]]; [| |contradiction];
    destruct Hdi as [E2 | [E2 | E2]]; try contradiction;
      rewrite E1, E2; discriminate.
Qed.
End Guarantee.

(** C1. With [data_nodata] = 7 the guarantee of the classifier fails: on
    the classification 1, 7, 0 against the reference 1, 0, 0 the nodata
    cell gets the difference code 255 but stays inside the validity
    mask, so three cells are valid and only two of them hold one of the
    codes 0, 1, 2, 3. *)
Theorem nodata_cell_counted_valid (libm_exp : spec_float -> spec_float) :
  exists out,
    Validation.validate (AF := binary64 libm_exp) uint8 7 255 sample_nodata7
    = (inr out, sample_nodata7) /\
    res out = [2; 255; 1] /\
    valid out = [true; true; true] /\
    count_valid (valid out) = 3 /\
    count_valid_coded (res out) (valid out) = 2.
Proof.
  eexists. split; [vm_compute; reflexivity|].
  repeat split.
Qed.

(* ----------------------------------------------------------------- *)
(** ** Identities between the metrics *)

(** The two sides of Ce = 1 - UA differ in binary64 for one true positive
    and two false positives: 2/3 rounds down, 1 - 1/3 rounds up. *)
Lemma Ce_is_not_one_minus_UA_in_binary64 :
  shapes_agree sample_thirds = true /\
  forall libm_exp : spec_float -> spec_float,
  exists out,
    Validation.validate (AF := binary64 libm_exp) uint8 255 255 sample_thirds
    = (inr out, sample_thirds) /\
    count 2 (res out) = 1 /\ count 3 (res out) = 2 /\
    0 < count 2 (res out) + count 3 (res out) /\
    Ce out = S754_finite false 6004799503160661 (-53) /\
    fsub (Arith := binary64 libm_exp)
      (of_int (Arith := binary64 libm_exp) 1) (UA out)
    = S754_finite false 6004799503160662 (-53) /\
    Ce out <> fsub (Arith := binary64 libm_exp)
                (of_int (Arith := binary64 libm_exp) 1) (UA out).
Proof.
  split; [reflexivity|]. intros libm_exp.
  destruct (validate_returns libm_exp uint8 255 255 sample_thirds
              eq_refl eq_refl) as [out [Hval Hr]].
  destruct (report_fields libm_exp _ _ _ Hr) as [p Ho].
  exists out. split; [exact Hval|].
  assert (Er : res out = [2; 3; 3]) by (rewrite Ho; reflexivity).
  assert (EC : Ce out = S754_finite false 6004799503160661 (-53)).
  { rewrite Ho. cbn [Ce]. vm_compute. reflexivity. }
  assert (EU : fsub (Arith := binary64 libm_exp)
                 (of_int (Arith := binary64 libm_exp) 1) (UA out)
               = S754_finite false 6004799503160662 (-53)).
  { rewrite Ho. cbn [UA]. vm_compute. reflexivity. }
  rewrite Er, EC, EU.
  split; [reflexivity|]. split; [reflexivity|]. split; [reflexivity|].
  split; [reflexivity|]. split; [reflexivity|].
  intros H. inversion H.
Qed.

(** C9 (as amended). The accuracy a run returns is the observed
    agreement Po.  Whenever 0 < TP + FP < 2^53 the user's accuracy and the
    commission error are finite numbers and Ce differs from 1 - UA by at
    most 2^-53; whenever 0 < TP + FN < 2^53 so are the producer's accuracy
    and the omission error, and Oe differs from 1 - PA by at most 2^-53
    (the differences being taken over the reals, on the binary64 values
    the run returns). *)
Theorem metric_identities_up_to_rounding
  (libm_exp : spec_float -> spec_float) (t : dtype)
  (data_nodata val_nodata : Z) (s : store) :
  shapes_agree s = true -> size_ok s = true ->
  exists out,
    Validation.validate (AF := binary64 libm_exp) t data_nodata val_nodata s
    = (inr out, after_run s) /\
    let TP := count 2 (res out) in
    let TN := count 1 (res out) in
    let FN := count 0 (res out) in
    let FP := count 3 (res out) in
    A out = Formula.Po TP TN FP FN /\
    (0 < TP + FP < 2 ^ 53 ->
     Binary64.is_finite (UA out) = true /\
     Binary64.is_finite (Ce out) = true /\
     (Rabs (Binary64.value (Ce out) - (1 - Binary64.value (UA out)))
      <= / IZR (2 ^ 53))%R) /\
    (0 < TP + FN < 2 ^ 53 ->
     Binary64.is_finite (PA out) = true /\
     Binary64.is_finite (Oe out) = true /\
     (Rabs (Binary64.value (Oe out) - (1 - Binary64.value (PA out)))
      <= / IZR (2 ^ 53))%R).
Proof.
  intros Hs Hz.
  destruct (validate_returns libm_exp t data_nodata val_nodata s Hs Hz)
    as [out [Hval Hr]].
  destruct (report_fields libm_exp _ _ _ Hr) as [p Ho].
  exists out. split; [exact Hval|]. rewrite Ho. cbn [res UA PA Ce Oe A].
  cbv zeta.
  set (r := difference t data_nodata val_nodata s).
  destruct (counts_bounds r) as (H2 & H1 & H3 & H0 & Hsum).
  unfold r in Hsum. rewrite length_difference in Hsum by assumption.
  fold r in Hsum.
  unfold size_ok in Hz. apply Z.ltb_lt in Hz.
  destruct (sums_are_formulas libm_exp (count 2 r) (count 1 r) (count 3 r)
              (count 0 r) H2 H1 H3 H0 ltac:(lia))
    as (EUA & EPA & ECe & EOe & _ & EPo).
  unfold Spec.A. rewrite EUA, EPA, ECe, EOe, EPo.
  split; [reflexivity|].
  split; intros Hpos.
  - apply (complementary_quotients (count 2 r) (count 3 r)); lia.
  - apply (complementary_quotients (count 2 r) (count 0 r)); lia.
Qed.

Lemma metric_identities_up_to_rounding_witness :
  shapes_agree sample_thirds = true /\ size_ok sample_thirds = true /\
  exists out,
    Validation.validate (AF := binary64 sample_libm_exp) uint8 255 255
      sample_thirds
    = (inr out, after_run sample_thirds) /\
    let TP := count 2 (res out) in
    let TN := count 1 (res out) in
    let FN := count 0 (res out) in
    let FP := count 3 (res out) in
    A out = Formula.Po TP TN FP FN /\
    (0 < TP + FP < 2 ^ 53 ->
     Binary64.is_finite (UA out) = true /\
     Binary64.is_finite (Ce out) = true /\
     (Rabs (Binary64.value (Ce out) - (1 - Binary64.value (UA out)))
      <= / IZR (2 ^ 53))%R) /\
    (0 < TP + FN < 2 ^ 53 ->
     Binary64.is_finite (PA out) = true /\
     Binary64.is_finite (Oe out) = true /\
     (Rabs (Binary64.value (Oe out) - (1 - Binary64.value (PA out)))
      <= / IZR (2 ^ 53))%R).
Proof.
  split; [reflexivity|]. split; [reflexivity|].
  exact (metric_identities_up_to_rounding sample_libm_exp uint8 255 255
           sample_thirds eq_refl eq_refl).
Defined.

(* ----------------------------------------------------------------- *)
(** ** The formulas of the specification *)




(* ================================================================= *)
(** * Further properties of the classifier *)

Section Classifier.
Variable libm_exp : spec_float -> spec_float.

(** A run on the machine, with the difference map and the validity mask
    it returns spelled out. *)
Lemma validate_maps t dn vn s :
  shapes_agree s = true -> size_ok s = true ->
  exists out,
    Validation.validate (AF := binary64 libm_exp) t dn vn s
    = (inr out, after_run s) /\
    res out = difference t dn vn s /\ valid out = validity s.
Proof.
  intros Hs Hz.
  destruct (validate_returns libm_exp t dn vn s Hs Hz) as [out [Hval Hr]].
  destruct (report_fields libm_exp _ _ _ Hr) as [p Ho].
  exists out. split; [exact Hval|]. rewrite Ho. split; reflexivity.
Qed.
End Classifier.

(** A cell the mask selects gets the difference code 255, drops out of
    the validity mask and is overwritten with 255 in the caller's data
    array, whatever the cell held and whatever the nodata values are. *)
Theorem masked_cell_is_excluded
  (libm_exp : spec_float -> spec_float) (t : dtype)
  (data_nodata val_nodata : Z) (s : store) (i : nat) :
  shapes_agree s = true -> size_ok s = true ->
  (i < length (data s))%nat -> excluded s i = true ->
  exists out,
    Validation.validate (AF := binary64 libm_exp) t data_nodata val_nodata s
    = (inr out, after_run s) /\
    cell (res out) i = 255 /\
    flag (valid out) i = false /\
    cell (data (after_run s)) i = 255.
Proof.
  intros Hs Hz Hi Hex.
  destruct (validate_maps libm_exp t data_nodata val_nodata s Hs Hz)
    as [out (Hval & Er & Ev)].
  exists out. split; [exact Hval|]. rewrite Er, Ev. simpl data.
  rewrite cell_difference, flag_validity, cell_masked_data, Hex
    by assumption.
  repeat split. apply andb_false_r.
Qed.

Lemma masked_cell_is_excluded_witness :
  shapes_agree scenario2 = true /\ size_ok scenario2 = true /\
  (0 < length (data scenario2))%nat /\ excluded scenario2 0 = true /\
  exists out,
    Validation.validate (AF := binary64 sample_libm_exp) uint8 255 255
      scenario2
    = (inr out, after_run scenario2) /\
    cell (res out) 0 = 255 /\
    flag (valid out) 0 = false /\
    cell (data (after_run scenario2)) 0 = 255.
Proof.
  split; [reflexivity|]. split; [reflexivity|].
  split; [simpl; lia|]. split; [reflexivity|].
  apply (masked_cell_is_excluded sample_libm_exp uint8 255 255 scenario2 0);
    try reflexivity.
  simpl; lia.
Defined.

(** A cell whose classification value is [data_nodata], or whose
    reference value is [val_nodata], gets the difference code 255; with
    both nodata values at 255 it is also outside the validity mask. *)
Theorem nodata_cell_is_255
  (libm_exp : spec_float -> spec_float) (t : dtype)
  (data_nodata val_nodata : Z) (s : store) (i : nat) :
  shapes_agree s = true -> size_ok s = true ->
  (i < length (data s))%nat ->
  cell (data s) i = data_nodata \/ cell (val_data s) i = val_nodata ->
  exists out,
    Validation.validate (AF := binary64 libm_exp) t data_nodata val_nodata s
    = (inr out, after_run s) /\
    cell (res out) i = 255 /\
    (data_nodata = 255 -> val_nodata = 255 -> flag (valid out) i = false).
Proof.
  intros Hs Hz Hi Hn.
  destruct (validate_maps libm_exp t data_nodata val_nodata s Hs Hz)
    as [out (Hval & Er & Ev)].
  exists out. split; [exact Hval|]. rewrite Er, Ev.
  rewrite cell_difference, flag_validity, cell_masked_data by assumption.
  split.
  - destruct (excluded s i); [reflexivity|].
    destruct (cell (val_data s) i =? val_nodata) eqn:Ev'; [reflexivity|].
    destruct (cell (data s) i =? data_nodata) eqn:Ed; [reflexivity|].
    apply Z.eqb_neq in Ev', Ed. tauto.
  - intros -> ->. destruct (excluded s i); [apply andb_false_r|].
    destruct Hn as [-> | ->]; simpl; [apply andb_false_r|reflexivity].
Qed.

Lemma nodata_cell_is_255_witness :
  shapes_agree sample_nodata = true /\ size_ok sample_nodata = true /\
  (2 < length (data sample_nodata))%nat /\
  (cell (data sample_nodata) 2 = 255 \/
   cell (val_data sample_nodata) 2 = 255) /\
  exists out,
    Validation.validate (AF := binary64 sample_libm_exp) uint8 255 255
      sample_nodata
    = (inr out, after_run sample_nodata) /\
    cell (res out) 2 = 255 /\
    (255 = 255 -> 255 = 255 -> flag (valid out) 2 = false).
Proof.
  split; [reflexivity|]. split; [reflexivity|].
  split; [simpl; lia|]. split; [left; reflexivity|].
  apply (nodata_cell_is_255 sample_libm_exp uint8 255 255 sample_nodata 2);
    try reflexivity.
  - simpl; lia.
  - left; reflexivity.
Defined.

(** The four confusion counts add up to the number of valid cells as
    soon as the validity mask is true exactly at the cells holding a
    confusion code. *)
Lemma four_counts_are_valid_cells r v :
  length r = length v ->
  (forall i, (i < length v)%nat ->
             flag v i = is_confusion_code (cell r i)) ->
  count 2 r + count 1 r + count 3 r + count 0 r = count_valid v.
Proof.
  revert v. induction r as [|x r IH]; intros [|b v] Hl H;
    try discriminate; [reflexivity|].
  pose proof (H 0%nat) as H0. unfold flag, cell in H0. simpl in H0.
  specialize (H0 ltac:(lia)).
  assert (IH' : count 2 r + count 1 r + count 3 r + count 0 r
                = count_valid v).
  { apply IH; [simpl in Hl; lia|]. intros i Hi. apply (H (S i)).
    simpl. lia. }
  rewrite !count_cons. unfold count_valid in *. simpl filter.
  unfold is_confusion_code in H0.
  destruct b; simpl length; rewrite ?Nat2Z.inj_succ;
    destruct (x =? 0) eqn:E0, (x =? 1) eqn:E1, (x =? 2) eqn:E2,
      (x =? 3) eqn:E3; simpl in H0; try discriminate;
      try (apply Z.eqb_eq in E0); try (apply Z.eqb_eq in E1);
      try (apply Z.eqb_eq in E2); try (apply Z.eqb_eq in E3); lia.
Qed.

Lemma count_valid_all_true v :
  Forall (fun b => b = true) v -> count_valid v = Z.of_nat (length v).
Proof.
  unfold count_valid. induction 1 as [|b v -> _ IH]; [reflexivity|].
  simpl filter. simpl length. lia.
Qed.

Lemma Forall_flags (P : bool -> Prop) v :
  (forall i, (i < length v)%nat -> P (flag v i)) -> Forall P v.
Proof.
  intros H. apply Forall_forall. intros x Hx.
  destruct (In_nth _ _ false Hx) as [i [Hi <-]]. now apply H.
Qed.

(** On binary arrays without nodata cells and without mask every cell is
    valid and is counted in exactly one of TP, TN, FP, FN; the caller's
    arrays are left as they were. *)
Theorem binary_grid_fully_counted
  (libm_exp : spec_float -> spec_float) (t : dtype)
  (data_nodata val_nodata : Z) (s : store) :
  shapes_agree s = true -> size_ok s = true ->
  mask s = None ->
  Forall (fun d => d = 0 \/ d = 1) (data s) ->
  Forall (fun v => v = 0 \/ v = 1) (val_data s) ->
  data_nodata <> 0 -> data_nodata <> 1 ->
  val_nodata <> 0 -> val_nodata <> 1 ->
  exists out,
    Validation.validate (AF := binary64 libm_exp) t data_nodata val_nodata s
    = (inr out, s) /\
    count 2 (res out) + count 1 (res out) + count 3 (res out)
      + count 0 (res out) = Z.of_nat (length (data s)) /\
    Forall (fun b => b = true) (valid out).
Proof.
  intros Hs Hz Hm Hd Hv Hd0 Hd1 Hv0 Hv1.
  destruct (validate_maps libm_exp t data_nodata val_nodata s Hs Hz)
    as [out (Hval & Er & Ev)].
  destruct (run_frame (AF := binary64 libm_exp) t data_nodata val_nodata s Hs)
    as (_ & _ & _ & Hsame & _).
  exists out. rewrite <- (Hsame Hm) at 2. split; [exact Hval|].
  rewrite Er, Ev.
  pose proof Hs as Hs'. apply shapes_agree_iff in Hs'.
  assert (Hex : forall i, excluded s i = false)
    by (intros i; unfold excluded; now rewrite Hm).
  assert (Hcell : forall i, (i < length (data s))%nat ->
            flag (validity s) i = true /\
            is_confusion_code
              (cell (difference t data_nodata val_nodata s) i) = true).
  { intros i Hi.
    rewrite flag_validity, cell_difference, cell_masked_data, Hex
      by assumption.
    pose proof (cells_Forall _ _ i Hd Hi) as Hdi. simpl in Hdi.
    assert (Hvi : cell (val_data s) i = 0 \/ cell (val_data s) i = 1)
      by (apply (cells_Forall _ _ i Hv); lia).
    replace (cell (val_data s) i =? val_nodata) with false
      by (symmetry; apply Z.eqb_neq; lia).
    replace (cell (data s) i =? data_nodata) with false
      by (symmetry; apply Z.eqb_neq; lia).
    rewrite wrap_code by assumption. unfold Spec.code.
    destruct Hdi as [-> | ->], Hvi as [-> | ->]; split; reflexivity. }
  assert (Hall : Forall (fun b => b = true) (validity s)).
  { apply Forall_flags. intros i Hi.
    rewrite length_validity in Hi by assumption. now apply Hcell. }
  split; [|exact Hall].
  rewrite (four_counts_are_valid_cells _ (validity s)).
  - rewrite count_valid_all_true by assumption.
    now rewrite length_validity.
  - now rewrite length_difference, length_validity.
  - intros i Hi. rewrite length_validity in Hi by assumption.
    destruct (Hcell i Hi) as [-> ->]. reflexivity.
Qed.

Lemma binary_grid_fully_counted_witness :
  shapes_agree scenario1 = true /\ size_ok scenario1 = true /\
  mask scenario1 = None /\
  Forall (fun d => d = 0 \/ d = 1) (data scenario1) /\
  Forall (fun v => v = 0 \/ v = 1) (val_data scenario1) /\
  255 <> 0 /\ 255 <> 1 /\
  exists out,
    Validation.validate (AF := binary64 sample_libm_exp) uint8 255 255
      scenario1
    = (inr out, scenario1) /\
    count 2 (res out) + count 1 (res out) + count 3 (res out)
      + count 0 (res out) = Z.of_nat (length (data scenario1)) /\
    Forall (fun b => b = true) (valid out).
Proof.
  assert (Hd : Forall (fun d => d = 0 \/ d = 1) (data scenario1))
    by (repeat constructor; auto).
  assert (Hv : Forall (fun v => v = 0 \/ v = 1) (val_data scenario1))
    by (repeat constructor; auto).
  split; [reflexivity|]. split; [reflexivity|]. split; [reflexivity|].
  split; [exact Hd|]. split; [exact Hv|]. split; [lia|]. split; [lia|].
  apply (binary_grid_fully_counted sample_libm_exp uint8 255 255 scenario1);
    try reflexivity; try assumption; lia.
Defined.

(** With both nodata values at 255 and arrays over 0, 1 and 255, the
    four confusion counts add up to the number of cells of the validity
    mask, with or without exclusion mask: what is excluded from the
    difference map is excluded from the counts. *)
Theorem counts_are_valid_cells
  (libm_exp : spec_float -> spec_float) (t : dtype) (s : store) :
  shapes_agree s = true -> size_ok s = true ->
  Forall (fun d => d = 0 \/ d = 1 \/ d = 255) (data s) ->
  Forall (fun v => v = 0 \/ v = 1 \/ v = 255) (val_data s) ->
  exists out,
    Validation.validate (AF := binary64 libm_exp) t 255 255 s
    = (inr out, after_run s) /\
    count 2 (res out) + count 1 (res out) + count 3 (res out)
      + count 0 (res out) = count_valid (valid out).
Proof.
  intros Hs Hz Hd Hv.
  destruct (validate_maps libm_exp t 255 255 s Hs Hz)
    as [out (Hval & Er & Ev)].
  exists out. split; [exact Hval|]. rewrite Er, Ev.
  pose proof Hs as Hs'. apply shapes_agree_iff in Hs'.
  apply four_counts_are_valid_cells.
  - now rewrite length_difference, length_validity.
  - intros i Hi. rewrite length_validity in Hi by assumption.
    pose proof (coded_or_255 t (cell (data s) i) (cell (val_data s) i)
                  (excluded s i)) as Hc.
    cbv zeta in Hc.
    rewrite flag_validity, cell_difference, cell_masked_data by assumption.
    specialize (Hc (cells_Forall _ _ i Hd Hi)).
    assert (Hvi : cell (val_data s) i = 0 \/ cell (val_data s) i = 1 \/
                  cell (val_data s) i = 255)
      by (apply (cells_Forall _ _ i Hv); lia).
    specialize (Hc Hvi).
    destruct (negb (cell (val_data s) i =? 255) &&
              negb ((if excluded s i then 255 else cell (data s) i) =? 255)).
    + now rewrite Hc.
    + now rewrite Hc.
Qed.

Lemma counts_are_valid_cells_witness :
  shapes_agree sample_nodata = true /\ size_ok sample_nodata = true /\
  Forall (fun d => d = 0 \/ d = 1 \/ d = 255) (data sample_nodata) /\
  Forall (fun v => v = 0 \/ v = 1 \/ v = 255) (val_data sample_nodata) /\
  exists out,
    Validation.validate (AF := binary64 sample_libm_exp) uint8 255 255
      sample_nodata
    = (inr out, after_run sample_nodata) /\
    count 2 (res out) + count 1 (res out) + count 3 (res out)
      + count 0 (res out) = count_valid (valid out).
Proof.
  assert (Hd : Forall (fun d => d = 0 \/ d = 1 \/ d = 255)
                 (data sample_nodata)) by (repeat constructor; auto).
  assert (Hv : Forall (fun v => v = 0 \/ v = 1 \/ v = 255)
                 (val_data sample_nodata)) by (repeat constructor; auto).
  split; [reflexivity|]. split; [reflexivity|].
  split; [exact Hd|]. split; [exact Hv|].
  apply (counts_are_valid_cells sample_libm_exp uint8 sample_nodata);
    try reflexivity; assumption.
Defined.

(** On arrays holding nothing but 0, 1 and their nodata value, the element
    type plays no role: the wrap-around of the array arithmetic never
    reaches the difference map, and a run in one integer type returns
    what a run in any other returns. *)
Theorem element_type_is_irrelevant
  {F : Type} {AF : Arith F} (t1 t2 : dtype)
  (data_nodata val_nodata : Z) (s : store) :
  shapes_agree s = true ->
  Forall (fun d => d = 0 \/ d = 1 \/ d = data_nodata) (data s) ->
  Forall (fun v => v = 0 \/ v = 1 \/ v = val_nodata) (val_data s) ->
  Validation.validate t1 data_nodata val_nodata s
  = Validation.validate t2 data_nodata val_nodata s.
Proof.
  intros Hs Hd Hv. rewrite !validate_unfold, Hs.
  pose proof Hs as Hs'. apply shapes_agree_iff in Hs'.
  assert (E : difference t1 data_nodata val_nodata s
              = difference t2 data_nodata val_nodata s).
  { apply (nth_ext _ _ 0 0).
    - now rewrite !length_difference.
    - intros i Hi. rewrite length_difference in Hi by assumption.
      fold (cell (difference t1 data_nodata val_nodata s) i).
      fold (cell (difference t2 data_nodata val_nodata s) i).
      rewrite !cell_difference by assumption.
      destruct (excluded s i); [reflexivity|].
      destruct (cell (val_data s) i =? val_nodata) eqn:Ev; [reflexivity|].
      destruct (cell (data s) i =? data_nodata) eqn:Ed; [reflexivity|].
      apply Z.eqb_neq in Ev, Ed.
      pose proof (cells_Forall _ _ i Hd Hi) as Hdi. simpl in Hdi.
      assert (Hvi : cell (val_data s) i = 0 \/ cell (val_data s) i = 1 \/
                    cell (val_data s) i = val_nodata)
        by (apply (cells_Forall _ _ i Hv); lia).
      rewrite !wrap_code by tauto. reflexivity. }
  now rewrite E.
Qed.

Lemma element_type_is_irrelevant_witness :
  shapes_agree sample_nodata = true /\
  Forall (fun d => d = 0 \/ d = 1 \/ d = 255) (data sample_nodata) /\
  Forall (fun v => v = 0 \/ v = 1 \/ v = 255) (val_data sample_nodata) /\
  Validation.validate (AF := binary64 sample_libm_exp) uint8 255 255
    sample_nodata
  = Validation.validate (AF := binary64 sample_libm_exp) int64 255 255
      sample_nodata.
Proof.
  assert (Hd : Forall (fun d => d = 0 \/ d = 1 \/ d = 255)
                 (data sample_nodata)) by (repeat constructor; auto).
  assert (Hv : Forall (fun v => v = 0 \/ v = 1 \/ v = 255)
                 (val_data sample_nodata)) by (repeat constructor; auto).
  split; [reflexivity|]. split; [exact Hd|]. split; [exact Hv|].
  apply (element_type_is_irrelevant (AF := binary64 sample_libm_exp)
           uint8 int64 255 255 sample_nodata); try reflexivity; assumption.
Defined.

(* ================================================================= *)
(** * Perfect agreement *)

Section AgreementFacts.
Import Binary64 Binary64Facts.

Lemma wrap64_idem z : wrap64 (wrap64 z) = wrap64 z.
Proof. apply wrap64_small. apply wrap64_range. Qed.

Lemma wrap64_add_0_r z : wrap64 (wrap64 z + 0) = wrap64 z.
Proof. rewrite Z.add_0_r. apply wrap64_idem. Qed.

Lemma wrap64_double_nonzero z :
  0 < z < 2 ^ 63 -> wrap64 (2 * z) <> 0.
Proof.
  intros H. unfold wrap64, wrap. cbn [signed bits].
  change (2 ^ (64 - 1)) with 9223372036854775808 in *.
  change (2 ^ 63) with 9223372036854775808 in *.
  change (2 ^ 64) with 18446744073709551616.
  destruct (Z_lt_le_dec (2 * z) 9223372036854775808) as [Hlt|Hge].
  - rewrite Z.mod_small by lia. lia.
  - replace (2 * z + 9223372036854775808)
      with ((2 * z - 9223372036854775808) + 1 * 18446744073709551616)
      by lia.
    rewrite Z_mod_plus_full, Z.mod_small by lia. lia.
Qed.

Lemma float_of_int_1 : float_of_int 1 = one.
Proof. reflexivity. Qed.

Lemma fdiv_float_of_int_self z :
  z <> 0 -> - 2 ^ 63 <= z < 2 ^ 63 ->
  fdiv64 (float_of_int z) (float_of_int z) = one.
Proof.
  intros Hz Hr. rewrite fdiv_self_cases.
  now rewrite float_of_int_finite.
Qed.

Lemma count_map_succ k a : count (1 + k) (map (Z.add 1) a) = count k a.
Proof.
  induction a as [|x a IH]; [reflexivity|].
  cbn [map]. rewrite !count_cons, IH.
  destruct (x =? k) eqn:E.
  - apply Z.eqb_eq in E. subst. now rewrite Z.eqb_refl.
  - apply Z.eqb_neq in E.
    destruct (1 + x =? 1 + k) eqn:E'; [|reflexivity].
    apply Z.eqb_eq in E'. lia.
Qed.

Lemma difference_of_agreement t dn vn s :
  mask s = None -> val_data s = data s ->
  Forall (fun d => d = 0 \/ d = 1) (data s) ->
  dn <> 0 -> dn <> 1 -> vn <> 0 -> vn <> 1 ->
  shapes_agree s = true /\
  difference t dn vn s = map (Z.add 1) (data s).
Proof.
  intros Hm Hv Hd Hd0 Hd1 Hv0 Hv1.
  assert (Hs : shapes_agree s = true).
  { apply shapes_agree_iff. rewrite Hm, Hv. auto. }
  split; [exact Hs|].
  apply (nth_ext _ _ 0 0).
  - now rewrite length_difference, length_map.
  - intros i Hi. rewrite length_difference in Hi by assumption.
    fold (cell (difference t dn vn s) i).
    rewrite cell_difference by assumption.
    unfold excluded. rewrite Hm, Hv.
    rewrite (nth_map_in _ _ _ 0) by assumption. fold (cell (data s) i).
    pose proof (cells_Forall _ _ i Hd Hi) as Hdi. simpl in Hdi.
    replace (cell (data s) i =? vn) with false
      by (symmetry; apply Z.eqb_neq; lia).
    replace (cell (data s) i =? dn) with false
      by (symmetry; apply Z.eqb_neq; lia).
    rewrite wrap_code by assumption. unfold Spec.code. lia.
Qed.

Section Agreement.
Variable libm_exp : spec_float -> spec_float.
Let AF : Arith spec_float := binary64 libm_exp.
Existing Instance AF.

Lemma ratios_of_agreement TP :
  0 < TP < 2 ^ 63 ->
  Spec.UA TP 0 = one /\ Spec.PA TP 0 = one /\
  Spec.CSI TP 0 0 = one /\ Spec.F1 TP 0 0 = one.
Proof.
  intros H. unfold Spec.UA, Spec.PA, Spec.CSI, Spec.F1, AF.
  cbn [fdiv of_int iadd imul binary64].
  rewrite !Z.add_0_r, !wrap64_idem, !(wrap64_small TP) by lia.
  rewrite fdiv_float_of_int_self by lia.
  rewrite fdiv_float_of_int_self
    by (apply wrap64_double_nonzero || apply wrap64_range; lia).
  repeat split.
Qed.

Lemma ratios_without_positives :
  Spec.UA 0 0 = nan /\ Spec.PA 0 0 = nan /\
  Spec.CSI 0 0 0 = nan /\ Spec.F1 0 0 0 = nan.
Proof. repeat split. Qed.

Lemma accuracy_of_agreement TP TN :
  0 <= TP -> 0 <= TN -> 0 < TP + TN < 2 ^ 63 ->
  Spec.Po TP TN 0 0 = one.
Proof.
  intros H1 H2 H. unfold Spec.Po, AF.
  cbn [fdiv of_int iadd binary64].
  rewrite !Z.add_0_r, !wrap64_idem, wrap64_small by lia.
  apply fdiv_float_of_int_self; lia.
Qed.

Lemma kappa_of_agreement TP TN :
  0 <= TP -> 0 <= TN -> TP + TN < 2 ^ 63 ->
  (Spec.K TP TN 0 0 = one \/ Spec.K TP TN 0 0 = nan) /\
  (TP = 0 \/ TN = 0 -> Spec.K TP TN 0 0 = nan).
Proof.
  intros H1 H2 H.
  destruct (Z.eq_dec (TP + TN) 0) as [E0|Hpos].
  - assert (TP = 0) by lia. assert (TN = 0) by lia. subst.
    split; [right; reflexivity|intros _; reflexivity].
  - unfold Spec.K. rewrite accuracy_of_agreement by lia.
    change (of_int 1) with one.
    change (@fdiv _ AF) with fdiv64. rewrite fdiv_self_cases.
    split; [destruct (is_finite_nonzero _); auto|].
    intros Hu.
    assert (Epe : Spec.Pe TP TN 0 0 = one \/ Spec.Pe TP TN 0 0 = nan).
    { unfold Spec.Pe, AF. cbn [fdiv of_int iadd imul ipow binary64].
      rewrite Z.pow_2_r.
      destruct Hu as [-> | ->].
      - rewrite ?Z.add_0_r, ?Z.add_0_l, ?wrap64_idem.
        change (0 * 0) with 0. change (wrap64 0) with 0.
        rewrite ?Z.add_0_l, ?wrap64_idem, ?(wrap64_small TN) by lia.
        rewrite fdiv_self_cases.
        destruct (is_finite_nonzero _); auto.
      - rewrite ?Z.add_0_r, ?Z.add_0_l, ?wrap64_idem.
        change (0 * 0) with 0. change (wrap64 0) with 0.
        rewrite ?Z.add_0_r, ?wrap64_idem, ?(wrap64_small TP) by lia.
        rewrite fdiv_self_cases.
        destruct (is_finite_nonzero _); auto. }
    destruct Epe as [-> | ->]; reflexivity.
Qed.
End Agreement.

End AgreementFacts.

Lemma agreement_counts t dn vn s :
  mask s = None -> val_data s = data s ->
  Forall (fun d => d = 0 \/ d = 1) (data s) ->
  dn <> 0 -> dn <> 1 -> vn <> 0 -> vn <> 1 ->
  count 2 (difference t dn vn s) = count 1 (data s) /\
  count 1 (difference t dn vn s) = count 0 (data s) /\
  count 3 (difference t dn vn s) = 0 /\
  count 0 (difference t dn vn s) = 0.
Proof.
  intros Hm Hv Hd Hd0 Hd1 Hv0 Hv1.
  destruct (difference_of_agreement t dn vn s Hm Hv Hd Hd0 Hd1 Hv0 Hv1)
    as [_ ->].
  split; [exact (count_map_succ 1 (data s))|].
  split; [exact (count_map_succ 0 (data s))|].
  split; apply count_absent; apply Forall_map;
    (eapply Forall_impl; [|exact Hd]); cbv beta; intros; lia.
Qed.

(** On binary arrays without nodata cells and without mask whose
    classification equals the reference cell by cell: TP is the number of
    1-cells and TN the number of 0-cells, FP = FN = 0; UA, PA, CSI and F1
    are exactly 1 if some cell is 1 and not-a-number otherwise; the
    accuracy is exactly 1 on a non-empty grid; Kappa is 1 or
    not-a-number, and not-a-number whenever one of the two classes is
    absent. *)
Theorem perfect_agreement
  (libm_exp : spec_float -> spec_float) (t : dtype)
  (data_nodata val_nodata : Z) (s : store) :
  size_ok s = true -> mask s = None -> val_data s = data s ->
  Forall (fun d => d = 0 \/ d = 1) (data s) ->
  data_nodata <> 0 -> data_nodata <> 1 ->
  val_nodata <> 0 -> val_nodata <> 1 ->
  exists out,
    Validation.validate (AF := binary64 libm_exp) t data_nodata val_nodata s
    = (inr out, s) /\
    let TP := count 2 (res out) in
    let TN := count 1 (res out) in
    TP = count 1 (data s) /\ TN = count 0 (data s) /\
    count 3 (res out) = 0 /\ count 0 (res out) = 0 /\
    (0 < TP ->
     UA out = Binary64.one /\ PA out = Binary64.one /\
     CSI out = Binary64.one /\ F1 out = Binary64.one) /\
    (TP = 0 ->
     UA out = Binary64.nan /\ PA out = Binary64.nan /\
     CSI out = Binary64.nan /\ F1 out = Binary64.nan) /\
    (0 < TP + TN -> A out = Binary64.one) /\
    (K out = Binary64.one \/ K out = Binary64.nan) /\
    (TP = 0 \/ TN = 0 -> K out = Binary64.nan).
Proof.
  intros Hz Hm Hv Hd Hd0 Hd1 Hv0 Hv1.
  destruct (difference_of_agreement t data_nodata val_nodata s
              Hm Hv Hd Hd0 Hd1 Hv0 Hv1) as [Hs _].
  destruct (agreement_counts t data_nodata val_nodata s
              Hm Hv Hd Hd0 Hd1 Hv0 Hv1) as (E2 & E1 & E3 & E0).
  destruct (validate_returns libm_exp t data_nodata val_nodata s Hs Hz)
    as [out [Hval Hr]].
  destruct (report_fields libm_exp _ _ _ Hr) as [p Ho].
  destruct (run_frame (AF := binary64 libm_exp) t data_nodata val_nodata s Hs)
    as (_ & _ & _ & Hsame & _).
  exists out. rewrite <- (Hsame Hm) at 2. split; [exact Hval|].
  rewrite Ho. cbn [res UA PA CSI F1 K A]. cbv zeta.
  rewrite E3, E0.
  set (TP := count 2 (difference t data_nodata val_nodata s)) in *.
  set (TN := count 1 (difference t data_nodata val_nodata s)) in *.
  assert (HTP : 0 <= TP) by apply count_nonneg.
  assert (HTN : 0 <= TN) by apply count_nonneg.
  assert (Hsum : TP + TN < 2 ^ 63).
  { pose proof (count_four (difference t data_nodata val_nodata s)) as H4.
    fold TP TN in H4. rewrite E3, E0 in H4.
    rewrite length_difference in H4 by assumption.
    unfold size_ok in Hz. apply Z.ltb_lt in Hz. lia. }
  repeat (split; [assumption || reflexivity|]).
  split; [intros Hpos; apply ratios_of_agreement; lia|].
  split; [intros ->; apply ratios_without_positives|].
  split; [intros Hpos; apply accuracy_of_agreement; lia|].
  apply kappa_of_agreement; lia.
Qed.

Lemma perfect_agreement_witness :
  size_ok sample_agreement = true /\ mask sample_agreement = None /\
  val_data sample_agreement = data sample_agreement /\
  Forall (fun d => d = 0 \/ d = 1) (data sample_agreement) /\
  255 <> 0 /\ 255 <> 1 /\
  exists out,
    Validation.validate (AF := binary64 sample_libm_exp) uint8 255 255
      sample_agreement
    = (inr out, sample_agreement) /\
    let TP := count 2 (res out) in
    let TN := count 1 (res out) in
    TP = count 1 (data sample_agreement) /\
    TN = count 0 (data sample_agreement) /\
    count 3 (res out) = 0 /\ count 0 (res out) = 0 /\
    (0 < TP ->
     UA out = Binary64.one /\ PA out = Binary64.one /\
     CSI out = Binary64.one /\ F1 out = Binary64.one) /\
    (TP = 0 ->
     UA out = Binary64.nan /\ PA out = Binary64.nan /\
     CSI out = Binary64.nan /\ F1 out = Binary64.nan) /\
    (0 < TP + TN -> A out = Binary64.one) /\
    (K out = Binary64.one \/ K out = Binary64.nan) /\
    (TP = 0 \/ TN = 0 -> K out = Binary64.nan).
Proof.
  assert (Hd : Forall (fun d => d = 0 \/ d = 1) (data sample_agreement))
    by (repeat constructor; auto).
  split; [reflexivity|]. split; [reflexivity|]. split; [reflexivity|].
  split; [exact Hd|]. split; [lia|]. split; [lia|].
  apply (perfect_agreement sample_libm_exp uint8 255 255 sample_agreement);
    try reflexivity; try assumption; lia.
Defined.

(** On perfect agreement with both classes present, on a grid whose
    squared cell count is below 2^63, Kappa and the accuracy are exactly
    1.0 in binary64. *)
Theorem kappa_of_perfect_agreement
  (libm_exp : spec_float -> spec_float) (t : dtype)
  (data_nodata val_nodata : Z) (s : store) :
  products_fit s = true -> mask s = None -> val_data s = data s ->
  Forall (fun d => d = 0 \/ d = 1) (data s) ->
  data_nodata <> 0 -> data_nodata <> 1 ->
  val_nodata <> 0 -> val_nodata <> 1 ->
  In 1 (data s) -> In 0 (data s) ->
  exists out,
    Validation.validate (AF := binary64 libm_exp) t data_nodata val_nodata s
    = (inr out, s) /\
    K out = Binary64.one /\ A out = Binary64.one.
Proof.
  intros Hp Hm Hv Hd Hd0 Hd1 Hv0 Hv1 Hpos Hneg.
  destruct (products_fit_bounds s Hp) as (Hsq & _ & Hz).
  destruct (difference_of_agreement t data_nodata val_nodata s
              Hm Hv Hd Hd0 Hd1 Hv0 Hv1) as [Hs _].
  destruct (agreement_counts t data_nodata val_nodata s
              Hm Hv Hd Hd0 Hd1 Hv0 Hv1) as (E2 & E1 & E3 & E0).
  destruct (validate_returns libm_exp t data_nodata val_nodata s Hs Hz)
    as [out [Hval Hr]].
  destruct (report_fields libm_exp _ _ _ Hr) as [p Ho].
  destruct (run_frame (AF := binary64 libm_exp) t data_nodata val_nodata s Hs)
    as (_ & _ & _ & Hsame & _).
  exists out. rewrite <- (Hsame Hm) at 2. split; [exact Hval|].
  rewrite Ho. cbn [K A]. rewrite E2, E1, E3, E0.
  apply count_pos_iff in Hpos, Hneg.
  pose proof (count_four (difference t data_nodata val_nodata s)) as H4.
  rewrite E2, E1, E3, E0, length_difference in H4 by assumption.
  assert (HN : (count 1 (data s) + count 0 (data s)) ^ 2 < 2 ^ 63).
  { pose proof (square_le (count 1 (data s) + count 0 (data s))
                  (Z.of_nat (length (data s))) ltac:(lia)). lia. }
  assert (HN' : (count 1 (data s) + count 0 (data s) + 0 + 0) ^ 2 < 2 ^ 63)
    by (now replace (count 1 (data s) + count 0 (data s) + 0 + 0)
          with (count 1 (data s) + count 0 (data s)) by ring).
  destruct (kappa_is_formula libm_exp (count 1 (data s)) (count 0 (data s))
              0 0 ltac:(lia) ltac:(lia) ltac:(lia) ltac:(lia) HN')
    as (_ & EK).
  destruct (ratios_are_formulas libm_exp (count 1 (data s))
              (count 0 (data s)) 0 0 ltac:(lia) ltac:(lia) ltac:(lia)
              ltac:(lia)) as (_ & _ & _ & _ & _ & _ & EPo & _).
  { rewrite Z.pow_2_r in HN'. change (2 ^ 63) with 9223372036854775808 in *.
    pose proof (below_square (count 1 (data s) + count 0 (data s) + 0 + 0)
                  ltac:(lia) HN'). lia. }
  unfold Spec.A. rewrite EK, EPo.
  now apply formula_kappa_of_agreement.
Qed.

Lemma kappa_of_perfect_agreement_witness :
  products_fit sample_agreement = true /\ mask sample_agreement = None /\
  val_data sample_agreement = data sample_agreement /\
  Forall (fun d => d = 0 \/ d = 1) (data sample_agreement) /\
  255 <> 0 /\ 255 <> 1 /\
  In 1 (data sample_agreement) /\ In 0 (data sample_agreement) /\
  exists out,
    Validation.validate (AF := binary64 sample_libm_exp) uint8 255 255
      sample_agreement
    = (inr out, sample_agreement) /\
    K out = Binary64.one /\ A out = Binary64.one.
Proof.
  assert (Hd : Forall (fun d => d = 0 \/ d = 1) (data sample_agreement))
    by (repeat constructor; auto).
  assert (H1 : In 1 (data sample_agreement)) by (simpl; auto).
  assert (H0 : In 0 (data sample_agreement)) by (simpl; auto).
  split; [reflexivity|]. split; [reflexivity|]. split; [reflexivity|].
  split; [exact Hd|]. split; [lia|]. split; [lia|].
  split; [exact H1|]. split; [exact H0|].
  apply (kappa_of_perfect_agreement sample_libm_exp uint8 255 255
           sample_agreement); try reflexivity; try assumption; lia.
Defined.

(** Without a false positive among the counted cells and with at least
    one reference-positive cell counted, the success rate a run returns
    is its producer's accuracy, bit for bit: the penalization is
    exp(-0) = 1. *)
Theorem success_rate_without_false_positives_is_recall
  (libm_exp : spec_float -> spec_float) (t : dtype)
  (data_nodata val_nodata : Z) (s : store) :
  shapes_agree s = true -> size_ok s = true ->
  exists out,
    Validation.validate (AF := binary64 libm_exp) t data_nodata val_nodata s
    = (inr out, after_run s) /\
    (~ In 3 (res out) -> In 2 (res out) \/ In 0 (res out) ->
     SR out = PA out).
Proof.
  intros Hs Hz.
  destruct (validate_returns libm_exp t data_nodata val_nodata s Hs Hz)
    as [out [Hval Hr]].
  exists out. split; [exact Hval|].
  unfold report in Hr.
  set (r := difference t data_nodata val_nodata s) in *.
  destruct (Spec.P (count 2 r) (count 3 r) (count 0 r)) as [e|p] eqn:HP;
    [discriminate|].
  apply inr_inj in Hr. subst out. cbn [res SR PA].
  rewrite <- !count_pos_iff. intros H3 Hpos.
  destruct (counts_bounds r) as (H2 & H1 & H3' & H0 & Hsum).
  unfold r in Hsum. rewrite length_difference in Hsum by assumption.
  fold r in Hsum.
  unfold size_ok in Hz. apply Z.ltb_lt in Hz.
  assert (E3 : count 3 r = 0) by lia. rewrite E3 in HP.
  apply (success_rate_without_false_positives libm_exp _ _ p);
    [lia|lia|lia|exact HP].
Qed.

Lemma success_rate_without_false_positives_is_recall_witness :
  shapes_agree sample_agreement = true /\ size_ok sample_agreement = true /\
  exists out,
    Validation.validate (AF := binary64 sample_libm_exp) uint8 255 255
      sample_agreement
    = (inr out, after_run sample_agreement) /\
    (~ In 3 (res out) -> In 2 (res out) \/ In 0 (res out) ->
     SR out = PA out).
Proof.
  split; [reflexivity|]. split; [reflexivity|].
  exact (success_rate_without_false_positives_is_recall sample_libm_exp
           uint8 255 255 sample_agreement eq_refl eq_refl).
Defined.

(** Every ratio whose denominator is positive and below 2^53 is a
    finite binary64 number between 0 and 1, within 2^-54 of the exact
    quotient of its two counts. *)
Theorem ratios_are_rounded_quotients
  (libm_exp : spec_float -> spec_float) (t : dtype)
  (data_nodata val_nodata : Z) (s : store) :
  shapes_agree s = true -> size_ok s = true ->
  exists out,
    Validation.validate (AF := binary64 libm_exp) t data_nodata val_nodata s
    = (inr out, after_run s) /\
    let TP := count 2 (res out) in
    let TN := count 1 (res out) in
    let FN := count 0 (res out) in
    let FP := count 3 (res out) in
    (0 < TP + FP < 2 ^ 53 ->
     rounded_quotient (UA out) TP (TP + FP) /\
     rounded_quotient (Ce out) FP (TP + FP)) /\
    (0 < TP + FN < 2 ^ 53 ->
     rounded_quotient (PA out) TP (TP + FN) /\
     rounded_quotient (Oe out) FN (TP + FN)) /\
    (0 < TP + FP + FN < 2 ^ 53 ->
     rounded_quotient (CSI out) TP (TP + FP + FN)) /\
    (0 < 2 * TP + FP + FN < 2 ^ 53 ->
     rounded_quotient (F1 out) (2 * TP) (2 * TP + FP + FN)) /\
    (0 < TP + TN + FP + FN < 2 ^ 53 ->
     rounded_quotient (A out) (TP + TN) (TP + TN + FP + FN)).
Proof.
  intros Hs Hz.
  destruct (validate_returns libm_exp t data_nodata val_nodata s Hs Hz)
    as [out [Hval Hr]].
  destruct (report_fields libm_exp _ _ _ Hr) as [p Ho].
  exists out. split; [exact Hval|]. rewrite Ho. cbn [res UA PA Ce Oe CSI F1 A].
  cbv zeta.
  set (r := difference t data_nodata val_nodata s).
  destruct (counts_bounds r) as (H2 & H1 & H3 & H0 & Hsum).
  unfold r in Hsum. rewrite length_difference in Hsum by assumption.
  fold r in Hsum.
  unfold size_ok in Hz. apply Z.ltb_lt in Hz.
  destruct (sums_are_formulas libm_exp (count 2 r) (count 1 r) (count 3 r)
              (count 0 r) H2 H1 H3 H0 ltac:(lia))
    as (EUA & EPA & ECe & EOe & ECSI & EPo).
  unfold Spec.A. rewrite EUA, EPA, ECe, EOe, ECSI, EPo.
  unfold Formula.UA, Formula.PA, Formula.Ce, Formula.Oe, Formula.CSI,
    Formula.Po, Formula.quotient.
  replace (count 3 r + count 2 r) with (count 2 r + count 3 r) by ring.
  replace (count 0 r + count 2 r) with (count 2 r + count 0 r) by ring.
  assert (Q : forall a b, 0 <= a <= b -> 0 < b < 2 ^ 53 ->
              rounded_quotient
                (SFdiv Binary64.prec Binary64.emax
                   (Binary64.float_of_int a) (Binary64.float_of_int b)) a b)
    by (intros a b Ha Hb; now apply Binary64Facts.quotient_rounded).
  split; [intros Hpos; split; apply Q; lia|].
  split; [intros Hpos; split; apply Q; lia|].
  split; [intros Hpos; apply Q; lia|].
  split; [|intros Hpos; apply Q; lia].
  intros Hpos. unfold Spec.F1.
  cbn [fdiv of_int iadd imul binary64].
  change (2 ^ 53) with 9007199254740992 in Hpos.
  assert (W : forall z, 0 <= z < 9007199254740992 ->
                        Binary64.wrap64 z = z)
    by (intros z Hw; apply Binary64Facts.wrap64_small;
        change (2 ^ 63) with 9223372036854775808; lia).
  rewrite !(W (2 * count 2 r)), !(W (2 * count 2 r + count 0 r)),
    !(W (2 * count 2 r + count 0 r + count 3 r)) by lia.
  replace (2 * count 2 r + count 0 r + count 3 r)
    with (2 * count 2 r + count 3 r + count 0 r) by ring.
  apply Q; change (2 ^ 53) with 9007199254740992; lia.
Qed.

Lemma ratios_are_rounded_quotients_witness :
  shapes_agree scenario1 = true /\ size_ok scenario1 = true /\
  exists out,
    Validation.validate (AF := binary64 sample_libm_exp) uint8 255 255
      scenario1
    = (inr out, after_run scenario1) /\
    let TP := count 2 (res out) in
    let TN := count 1 (res out) in
    let FN := count 0 (res out) in
    let FP := count 3 (res out) in
    (0 < TP + FP < 2 ^ 53 ->
     rounded_quotient (UA out) TP (TP + FP) /\
     rounded_quotient (Ce out) FP (TP + FP)) /\
    (0 < TP + FN < 2 ^ 53 ->
     rounded_quotient (PA out) TP (TP + FN) /\
     rounded_quotient (Oe out) FN (TP + FN)) /\
    (0 < TP + FP + FN < 2 ^ 53 ->
     rounded_quotient (CSI out) TP (TP + FP + FN)) /\
    (0 < 2 * TP + FP + FN < 2 ^ 53 ->
     rounded_quotient (F1 out) (2 * TP) (2 * TP + FP + FN)) /\
    (0 < TP + TN + FP + FN < 2 ^ 53 ->
     rounded_quotient (A out) (TP + TN) (TP + TN + FP + FN)).
Proof.
  split; [reflexivity|]. split; [reflexivity|].
  exact (ratios_are_rounded_quotients sample_libm_exp uint8 255 255 scenario1
           eq_refl eq_refl).
Defined.

(** C8, refuted as stated: on a grid of two cells, classification and
    reference both 0 everywhere, there is perfect agreement and
    FP = FN = 0, the accuracy is 1, but UA, PA, CSI and F1 are
    not-a-number, not 1: without a positive cell their denominators are
    zero. *)
Lemma perfect_agreement_without_positive_cell :
  mask sample_all_zero = None /\
  val_data sample_all_zero = data sample_all_zero /\
  Forall (fun d => d = 0 \/ d = 1) (data sample_all_zero) /\
  forall libm_exp : spec_float -> spec_float,
  exists out,
    Validation.validate (AF := binary64 libm_exp) uint8 255 255
      sample_all_zero
    = (inr out, sample_all_zero) /\
    count 3 (res out) = 0 /\ count 0 (res out) = 0 /\
    A out = Binary64.one /\
    UA out = Binary64.nan /\ PA out = Binary64.nan /\
    CSI out = Binary64.nan /\ F1 out = Binary64.nan /\
    UA out <> Binary64.one.
Proof.
  split; [reflexivity|]. split; [reflexivity|].
  split; [repeat constructor; auto|]. intros libm_exp.
  eexists. split; [vm_compute; reflexivity|].
  repeat (split; [reflexivity|]). discriminate.
Qed.

(** C8 (as amended). On binary arrays without nodata cells and without
    mask whose classification equals the reference cell by cell:
    FP = FN = 0; UA, PA, CSI and F1 are exactly 1 if some cell is 1 and
    not-a-number otherwise; the accuracy is exactly 1 on a non-empty
    grid; Kappa is exactly 1 when both classes occur (on a grid whose
    squared cell count is below 2^63) and not-a-number when the grid is
    uniform. *)
Theorem perfect_agreement_metrics
  (libm_exp : spec_float -> spec_float) (t : dtype)
  (data_nodata val_nodata : Z) (s : store) :
  size_ok s = true -> mask s = None -> val_data s = data s ->
  Forall (fun d => d = 0 \/ d = 1) (data s) ->
  data_nodata <> 0 -> data_nodata <> 1 ->
  val_nodata <> 0 -> val_nodata <> 1 ->
  exists out,
    Validation.validate (AF := binary64 libm_exp) t data_nodata val_nodata s
    = (inr out, s) /\
    count 3 (res out) = 0 /\ count 0 (res out) = 0 /\
    (In 1 (data s) ->
     UA out = Binary64.one /\ PA out = Binary64.one /\
     CSI out = Binary64.one /\ F1 out = Binary64.one) /\
    (~ In 1 (data s) ->
     UA out = Binary64.nan /\ PA out = Binary64.nan /\
     CSI out = Binary64.nan /\ F1 out = Binary64.nan) /\
    (data s <> [] -> A out = Binary64.one) /\
    (In 1 (data s) -> In 0 (data s) -> products_fit s = true ->
     K out = Binary64.one) /\
    (~ (In 1 (data s) /\ In 0 (data s)) -> K out = Binary64.nan).
Proof.
  intros Hz Hm Hv Hd Hd0 Hd1 Hv0 Hv1.
  destruct (difference_of_agreement t data_nodata val_nodata s
              Hm Hv Hd Hd0 Hd1 Hv0 Hv1) as [Hs _].
  destruct (agreement_counts t data_nodata val_nodata s
              Hm Hv Hd Hd0 Hd1 Hv0 Hv1) as (E2 & E1 & E3 & E0).
  destruct (validate_returns libm_exp t data_nodata val_nodata s Hs Hz)
    as [out [Hval Hr]].
  destruct (report_fields libm_exp _ _ _ Hr) as [p Ho].
  destruct (run_frame (AF := binary64 libm_exp) t data_nodata val_nodata s Hs)
    as (_ & _ & _ & Hsame & _).
  exists out. rewrite <- (Hsame Hm) at 2. split; [exact Hval|].
  rewrite Ho. cbn [res UA PA CSI F1 K A].
  rewrite E2, E1, E3, E0.
  rewrite <- !count_pos_iff.
  set (TP := count 1 (data s)) in *. set (TN := count 0 (data s)) in *.
  assert (HTP : 0 <= TP) by apply count_nonneg.
  assert (HTN : 0 <= TN) by apply count_nonneg.
  pose proof (count_four (difference t data_nodata val_nodata s)) as H4.
  rewrite E2, E1, E3, E0, length_difference in H4 by assumption.
  assert (Hlen : Z.of_nat (length (data s)) < 2 ^ 63)
    by (unfold size_ok in Hz; now apply Z.ltb_lt in Hz).
  split; [reflexivity|]. split; [reflexivity|].
  split; [intros Hpos; apply ratios_of_agreement; lia|].
  split.
  { intros Hnone. assert (E : TP = 0) by lia. rewrite E.
    apply ratios_without_positives. }
  split.
  { intros Hne. apply accuracy_of_agreement; try lia.
    assert (Hsum : TP + TN = Z.of_nat (length (data s))).
    { unfold TP, TN. clear - Hd. induction Hd as [|x a Hx _ IH].
      - reflexivity.
      - rewrite !count_cons. simpl length. rewrite Nat2Z.inj_succ.
        destruct Hx as [-> | ->]; cbn [Z.eqb Pos.eqb]; lia. }
    destruct (data s); [congruence|simpl length in *; lia]. }
  split.
  { intros Hpos Hneg Hp.
    destruct (products_fit_bounds s Hp) as (Hsq & _ & _).
    assert (HN' : (TP + TN + 0 + 0) ^ 2 < 2 ^ 63).
    { replace (TP + TN + 0 + 0) with (TP + TN) by ring.
      pose proof (square_le (TP + TN) (Z.of_nat (length (data s)))
                    ltac:(lia)). lia. }
    destruct (kappa_is_formula libm_exp TP TN 0 0 ltac:(lia) ltac:(lia)
                ltac:(lia) ltac:(lia) HN') as (_ & EK).
    rewrite EK. apply formula_kappa_of_agreement; lia. }
  intros Hu. apply kappa_of_agreement; lia.
Qed.

Lemma perfect_agreement_metrics_witness :
  size_ok sample_agreement = true /\ mask sample_agreement = None /\
  val_data sample_agreement = data sample_agreement /\
  Forall (fun d => d = 0 \/ d = 1) (data sample_agreement) /\
  255 <> 0 /\ 255 <> 1 /\
  exists out,
    Validation.validate (AF := binary64 sample_libm_exp) uint8 255 255
      sample_agreement
    = (inr out, sample_agreement) /\
    count 3 (res out) = 0 /\ count 0 (res out) = 0 /\
    (In 1 (data sample_agreement) ->
     UA out = Binary64.one /\ PA out = Binary64.one /\
     CSI out = Binary64.one /\ F1 out = Binary64.one) /\
    (~ In 1 (data sample_agreement) ->
     UA out = Binary64.nan /\ PA out = Binary64.nan /\
     CSI out = Binary64.nan /\ F1 out = Binary64.nan) /\
    (data sample_agreement <> [] -> A out = Binary64.one) /\
    (In 1 (data sample_agreement) -> In 0 (data sample_agreement) ->
     products_fit sample_agreement = true -> K out = Binary64.one) /\
    (~ (In 1 (data sample_agreement) /\ In 0 (data sample_agreement)) ->
     K out = Binary64.nan).
Proof.
  assert (Hd : Forall (fun d => d = 0 \/ d = 1) (data sample_agreement))
    by (repeat constructor; auto).
  split; [reflexivity|]. split; [reflexivity|]. split; [reflexivity|].
  split; [exact Hd|]. split; [lia|]. split; [lia|].
  apply (perfect_agreement_metrics sample_libm_exp uint8 255 255
           sample_agreement); try reflexivity; try assumption; lia.
Defined.

(* ================================================================= *)
(** * The orchestrators *)

Lemma astype_uint8_small a :
  Forall (fun c => 0 <= c < 256) a -> astype_uint8 a = a.
Proof.
  induction 1 as [|c a Hc _ IH]; [reflexivity|].
  unfold astype_uint8 in *. simpl. rewrite IH.
  now rewrite (wrap_small uint8 c).
Qed.

Lemma setitem_invalid_noop r v :
  length r = length v ->
  (forall i, (i < length v)%nat -> flag v i = false -> cell r i = 255) ->
  setitem r (logical_not v) 255 = r.
Proof.
  revert v. induction r as [|x r IH]; intros [|b v] Hl H;
    try discriminate; [reflexivity|].
  unfold setitem, logical_not in *. cbn [map]. rewrite map2_cons.
  rewrite IH.
  - pose proof (H 0%nat) as H0. unfold flag, cell in H0. simpl in H0.
    destruct b; simpl; [reflexivity|]. rewrite H0; [reflexivity|lia|reflexivity].
  - simpl in Hl. lia.
  - intros i Hi. apply (H (S i)). simpl. lia.
Qed.

(** On arrays over 0, 1 and 255 the difference map holds nothing but the
    five codes, and the cast to uint8 and the overwriting of the invalid
    cells change nothing. *)
Lemma postprocessing_is_identity t s :
  shapes_agree s = true ->
  Forall (fun d => d = 0 \/ d = 1 \/ d = 255) (data s) ->
  Forall (fun v => v = 0 \/ v = 1 \/ v = 255) (val_data s) ->
  Forall (fun c => c = 0 \/ c = 1 \/ c = 2 \/ c = 3 \/ c = 255)
    (difference t 255 255 s) /\
  checked_setitem (astype_uint8 (difference t 255 255 s))
    (logical_not (validity s)) 255
  = inr (difference t 255 255 s).
Proof.
  intros Hs Hd Hv.
  pose proof Hs as Hs'. apply shapes_agree_iff in Hs'.
  assert (Hcell : forall i, (i < length (data s))%nat ->
            if flag (validity s) i
            then is_confusion_code (cell (difference t 255 255 s) i) = true
            else cell (difference t 255 255 s) i = 255).
  { intros i Hi.
    rewrite flag_validity, cell_difference, cell_masked_data by assumption.
    apply coded_or_255.
    - exact (cells_Forall _ _ i Hd Hi).
    - apply (cells_Forall _ _ i Hv). lia. }
  assert (Hcodes : Forall (fun c => c = 0 \/ c = 1 \/ c = 2 \/ c = 3 \/ c = 255)
                     (difference t 255 255 s)).
  { apply Forall_cells. intros i Hi.
    rewrite length_difference in Hi by assumption.
    specialize (Hcell i Hi). destruct (flag (validity s) i); [|tauto].
    unfold is_confusion_code in Hcell.
    rewrite !orb_true_iff, !Z.eqb_eq in Hcell. tauto. }
  split; [exact Hcodes|].
  rewrite astype_uint8_small
    by (eapply Forall_impl; [|exact Hcodes]; cbv beta; intros; lia).
  unfold checked_setitem.
  replace (same_shape (difference t 255 255 s) (logical_not (validity s)))
    with true.
  - rewrite setitem_invalid_noop; [reflexivity| |].
    + now rewrite length_difference, length_validity.
    + intros i Hi Hf. rewrite length_validity in Hi by assumption.
      specialize (Hcell i Hi). now rewrite Hf in Hcell.
  - symmetry. apply same_shape_iff. unfold logical_not.
    now rewrite length_map, length_difference, length_validity.
Qed.

Section RejectFacts.
Context {F : Type} {AF : Arith F} {C : Collaborators}.
Variable to_csv :
  String.string -> list String.string -> list (list (field F)) ->
  world -> (ioerror + unit) * world.
Variable t : dtype.

(** [run] of validation.py accepts a reference only under the extensions
    .shp and .tif, compared letter for letter: for any other extension of
    the reference file name (ref.TIF, ref.tiff, a name without extension)
    it raises the ValueError naming that extension, after the
    classification and the exclusion layer have been read and before
    anything is rasterized, deleted or written: the world is as it
    was. *)
Theorem run_rejects_unsupported_reference
  (ras ref out diff reproj rast : String.string)
  (csv ex : option String.string) (del : bool) (w : world)
  (src : ndarray * geotransform * spatialref) :
  geotiff_read ras w = inr src ->
  match ex with
  | None => True
  | Some p => exists r, geotiff_read p w = inr r
  end ->
  let ext := snd (OsPath.splitext (OsPath.basename ref)) in
  ext <> ".shp"%string -> ext <> ".tif"%string ->
  ValidationRun.run to_csv t ras ref out diff reproj rast csv ex del w
  = (inl (UnsupportedInput
            (String.append "Input file with extension "
               (String.append ext " is not supported."))), w).
Proof.
  intros Hras Hex ext H1 H2.
  unfold ValidationRun.run, io_bind, reading. rewrite Hras.
  destruct src as [[d g] sr].
  assert (E1 : String.eqb ext ".shp" = false) by now apply String.eqb_neq.
  assert (E2 : String.eqb ext ".tif" = false) by now apply String.eqb_neq.
  fold ext. rewrite E1, E2.
  destruct ex as [p|].
  - destruct Hex as [r Hr]. rewrite Hr. reflexivity.
  - reflexivity.
Qed.

(** [validate_raster] of worker.py never returns: whatever the files
    hold, it ends in an exception. *)
Theorem validate_raster_never_returns
  (inp val resp : String.string) (ex : option String.string) (w : world) :
  exists e w',
    WorkerRun.validate_raster (F := F) t inp val resp ex w = (inl e, w').
Proof.
  unfold WorkerRun.validate_raster, io_bind, reading, calling, writing,
    io_raise, io_ret.
  destruct (read_file inp w) as [e|[[d g] sr]]; [eauto|].
  destruct (read_file val w) as [e|[[v g'] sr']]; [eauto|].
  simpl fst.
  destruct ex as [p|].
  - destruct (read_file p w) as [e|[[m g2] sr2]]; [eauto|].
    simpl fst.
    destruct (fst (Worker.validate t 255 255 (mkStore d v (Some m))))
      as [e|[r i ua pa ce oe csi f1 sr3 k a]]; [eauto|].
    destruct (save_file resp r 255 g sr w) as [[e|u] w1]; eauto.
  - destruct (fst (Worker.validate t 255 255 (mkStore d v None)))
      as [e|[r i ua pa ce oe csi f1 sr3 k a]]; [eauto|].
    destruct (save_file resp r 255 g sr w) as [[e|u] w1]; eauto.
Qed.
End RejectFacts.

Section RunFacts.
Context {C : Collaborators}.
Variable libm_exp : spec_float -> spec_float.
Variable to_csv :
  String.string -> list String.string -> list (list (field spec_float)) ->
  world -> (ioerror + unit) * world.
Variable t : dtype.

Lemma validate_then_postprocess s :
  wellformed s ->
  exists out,
    Validation.validate (AF := binary64 libm_exp) t 255 255 s
    = (inr out, after_run s) /\
    res out = difference t 255 255 s /\
    valid out = validity s /\
    Forall (fun c => c = 0 \/ c = 1 \/ c = 2 \/ c = 3 \/ c = 255)
      (res out) /\
    checked_setitem (astype_uint8 (res out)) (logical_not (valid out)) 255
    = inr (res out).
Proof.
  intros (Hs & Hz & Hd & Hv).
  destruct (validate_maps libm_exp t 255 255 s Hs Hz)
    as [out (Hval & Er & Ev)].
  destruct (postprocessing_is_identity t s Hs Hd Hv) as [Hc Hp].
  exists out. rewrite Er, Ev. repeat split; assumption.
Qed.

(** [run] of validation.py on a raster reference, with arrays of one
    shape over 0, 1 and 255: the band it writes is the difference map of
    [validate] as it is (the cast to uint8 and the overwriting of invalid
    cells with 255 change nothing) and holds only the codes 0, 1, 2, 3
    and 255; it is written under the output directory with the
    geo-referencing of the classification; the table is written only if
    a name for it is given, its row holding the base name of the
    reference and the nine metrics in the order of the columns; the
    dictionary returned holds the same entries. *)
Theorem run_on_raster_reference
  (ras ref out diff reproj rast : String.string)
  (csv ex : option String.string) (del : bool) (w : world)
  (d v : ndarray) (m : option ndarray)
  (g g' : geotransform) (sr sr' : spatialref) :
  geotiff_read ras w = inr (d, g, sr) ->
  geotiff_read ref w = inr (v, g', sr') ->
  match ex with
  | None => m = None
  | Some p => exists a g2 sr2,
                geotiff_read p w = inr (a, g2, sr2) /\ m = Some a
  end ->
  snd (OsPath.splitext (OsPath.basename ref)) = ".tif"%string ->
  wellformed (mkStore d v m) ->
  exists o,
    Validation.validate (AF := binary64 libm_exp) t 255 255 (mkStore d v m)
    = (inr o, after_run (mkStore d v m)) /\
    Forall (fun c => c = 0 \/ c = 1 \/ c = 2 \/ c = 3 \/ c = 255)
      (res o) /\
    ValidationRun.run (AF := binary64 libm_exp) to_csv t
      ras ref out diff reproj rast csv ex del w
    = (let file := OsPath.basename ref in
       let dict := report_dict file (UA o) (PA o) (Ce o) (Oe o) (CSI o)
                     (F1 o) (SR o) (K o) (A o) in
       match geotiff_write (OsPath.join out diff) (res o) 255 g sr w with
       | (inl e, w1) => (inl (IOFailure e), w1)
       | (inr _, w1) =>
           match csv with
           | None => (inr dict, w1)
           | Some f =>
               match to_csv (OsPath.join out f) columns
                       [report_row file (UA o) (PA o) (Ce o) (Oe o)
                          (CSI o) (F1 o) (SR o) (K o) (A o)] w1 with
               | (inl e, w2) => (inl (IOFailure e), w2)
               | (inr _, w2) => (inr dict, w2)
               end
           end
       end).
Proof.
  intros Hras Href Hex Hext Hwf.
  destruct (validate_then_postprocess _ Hwf)
    as [o (Hval & _ & _ & Hcodes & Hpost)].
  exists o. split; [exact Hval|]. split; [exact Hcodes|].
  unfold ValidationRun.run, io_bind, reading, calling, checked, writing,
    io_ret.
  rewrite Hras.
  destruct ex as [p|];
    [destruct Hex as (a0 & g2 & sr2 & Hr & ->); rewrite Hr|subst m].
  all: rewrite Hext; cbn [String.eqb Ascii.eqb Bool.eqb andb].
  all: rewrite Href; cbn [fst]; rewrite Hval; cbn [fst].
  all: destruct o as [r i ua pa ce oe csi f1 sr3 k a].
  all: cbn [res valid UA PA Ce Oe CSI F1 SR K A] in *.
  all: rewrite Hpost; cbv zeta.
  all: destruct (geotiff_write (OsPath.join out diff) r 255 g sr w)
         as [[e|u] w1]; [reflexivity|].
  all: destruct csv as [f|]; [|reflexivity].
  all: destruct (to_csv _ _ _ w1) as [[e|u2] w2]; reflexivity.
Qed.
(** [run] of worker.py, with the rasterized reference and the
    classification of one shape over 0, 1 and 255: it saves the
    difference map of [validate] as it is, then writes the table with
    the row named "result 1"; the reference is rasterized after the
    classification and the exclusion layer were read. *)
Theorem worker_run_on_rasterized_reference
  (ras vec diff reproj rast csv : String.string)
  (ex : option String.string) (w w1 : world)
  (d v : ndarray) (m : option ndarray)
  (g : geotransform) (sr : spatialref) :
  read_file ras w = inr (d, g, sr) ->
  match ex with
  | None => m = None
  | Some p => exists a g2 sr2,
                read_file p w = inr (a, g2, sr2) /\ m = Some a
  end ->
  rasterize (ogr_open vec w) rast d g sr reproj w = (inr v, w1) ->
  wellformed (mkStore d v m) ->
  exists o,
    Worker.validate (AF := binary64 libm_exp) t 255 255 (mkStore d v m)
    = (inr o, after_run (mkStore d v m)) /\
    Forall (fun c => c = 0 \/ c = 1 \/ c = 2 \/ c = 3 \/ c = 255)
      (res o) /\
    WorkerRun.run (AF := binary64 libm_exp) to_csv t
      ras vec diff reproj rast csv ex w
    = match save_file diff (res o) 255 g sr w1 with
      | (inl e, w2) => (inl (IOFailure e), w2)
      | (inr _, w2) =>
          match to_csv csv columns
                  [report_row "result 1" (UA o) (PA o) (Ce o) (Oe o)
                     (CSI o) (F1 o) (SR o) (K o) (A o)] w2 with
          | (inl e, w3) => (inl (IOFailure e), w3)
          | (inr u, w3) => (inr u, w3)
          end
      end.
Proof.
  intros Hras Hex Hrast Hwf.
  destruct (validate_then_postprocess _ Hwf)
    as [o (Hval & _ & _ & Hcodes & Hpost)].
  exists o. split; [exact Hval|]. split; [exact Hcodes|].
  unfold WorkerRun.run, io_bind, reading, calling, checked, writing,
    io_ret.
  rewrite Hras.
  destruct ex as [p|];
    [destruct Hex as (a0 & g2 & sr2 & Hr & ->); rewrite Hr|subst m].
  all: cbn [fst]; rewrite Hrast.
  all: rewrite (worker_validate_unfold (AF := binary64 libm_exp)).
  all: rewrite Hval; cbn [fst].
  all: destruct o as [r i ua pa ce oe csi f1 sr3 k a].
  all: cbn [res valid UA PA Ce Oe CSI F1 SR K A] in *.
  all: rewrite Hpost.
  all: destruct (save_file diff r 255 g sr w1) as [[e|u] w2];
         [reflexivity|].
  all: destruct (to_csv _ _ _ w2) as [[e|u2] w3]; reflexivity.
Qed.

(** When its files can be read and have one shape, [validate_raster]
    first saves the difference map (uncast, as [validate] returned it)
    and then raises NameError for [file_name]: the result file is on disk
    although the call failed. *)
Theorem validate_raster_fails_after_saving
  (inp val resp : String.string) (ex : option String.string) (w : world)
  (d v : ndarray) (m : option ndarray)
  (g g' : geotransform) (sr sr' : spatialref) :
  read_file inp w = inr (d, g, sr) ->
  read_file val w = inr (v, g', sr') ->
  match ex with
  | None => m = None
  | Some p => exists a g2 sr2,
                read_file p w = inr (a, g2, sr2) /\ m = Some a
  end ->
  shapes_agree (mkStore d v m) = true -> size_ok (mkStore d v m) = true ->
  WorkerRun.validate_raster (AF := binary64 libm_exp) t inp val resp ex w
  = match save_file resp (difference t 255 255 (mkStore d v m)) 255 g sr w
    with
    | (inl e, w1) => (inl (IOFailure e), w1)
    | (inr _, w1) => (inl (NameError "file_name"), w1)
    end.
Proof.
  intros Hin Hval Hex Hs Hz.
  destruct (validate_maps libm_exp t 255 255 _ Hs Hz)
    as [o (Hrun & Er & _)].
  unfold WorkerRun.validate_raster, io_bind, reading, calling, writing,
    io_raise, io_ret.
  rewrite Hin, Hval.
  destruct ex as [p|];
    [destruct Hex as (a0 & g2 & sr2 & Hr & ->); rewrite Hr|subst m].
  all: cbn [fst].
  all: rewrite (worker_validate_unfold (AF := binary64 libm_exp)).
  all: rewrite Hrun; cbn [fst].
  all: destruct o as [r i ua pa ce oe csi f1 sr3 k a].
  all: cbn [res] in Er; rewrite Er.
  all: destruct (save_file resp _ 255 g sr w) as [[e|u] w1]; reflexivity.
Qed.
End RunFacts.

Lemma run_rejects_unsupported_reference_witness :
  geotiff_read (Collaborators := memory) "class.tif" sample_world
  = inr ([1; 0; 255; 1; 0], tt, tt) /\
  (exists r,
     geotiff_read (Collaborators := memory) "ex.tif" sample_world = inr r) /\
  snd (OsPath.splitext (OsPath.basename "ref.TIF")) <> ".shp"%string /\
  snd (OsPath.splitext (OsPath.basename "ref.TIF")) <> ".tif"%string /\
  ValidationRun.run (AF := binary64 sample_libm_exp) (C := memory)
    memory_to_csv uint8 "class.tif" "ref.TIF" "out" "val.tif"
    "reproj_tmp.shp" "rasterized_val.tif" (Some "val.csv"%string)
    (Some "ex.tif"%string) false sample_world
  = (inl (UnsupportedInput
            (String.append "Input file with extension "
               (String.append
                  (snd (OsPath.splitext (OsPath.basename "ref.TIF")))
                  " is not supported."))), sample_world).
Proof.
  assert (H1 : snd (OsPath.splitext (OsPath.basename "ref.TIF"))
               <> ".shp"%string) by (vm_compute; discriminate).
  assert (H2 : snd (OsPath.splitext (OsPath.basename "ref.TIF"))
               <> ".tif"%string) by (vm_compute; discriminate).
  split; [reflexivity|]. split; [eexists; reflexivity|].
  split; [exact H1|]. split; [exact H2|].
  apply (run_rejects_unsupported_reference (AF := binary64 sample_libm_exp)
           (C := memory) memory_to_csv uint8 "class.tif" "ref.TIF" "out"
           "val.tif" "reproj_tmp.shp" "rasterized_val.tif"
           (Some "val.csv"%string) (Some "ex.tif"%string) false
           sample_world ([1; 0; 255; 1; 0], tt, tt)).
  - reflexivity.
  - eexists; reflexivity.
  - exact H1.
  - exact H2.
Defined.

Lemma sample_world_wellformed :
  wellformed (mkStore [1; 0; 255; 1; 0] [1; 255; 0; 0; 1]
                (Some [0; 0; 0; 1; 0])).
Proof.
  unfold wellformed. split; [reflexivity|]. split; [reflexivity|].
  split; repeat (apply Forall_cons; [lia|]); apply Forall_nil.
Defined.

Lemma run_on_raster_reference_witness :
  geotiff_read (Collaborators := memory) "class.tif" sample_world
  = inr ([1; 0; 255; 1; 0], tt, tt) /\
  geotiff_read (Collaborators := memory) "ref.tif" sample_world
  = inr ([1; 255; 0; 0; 1], tt, tt) /\
  (exists a g2 sr2,
     geotiff_read (Collaborators := memory) "ex.tif" sample_world
     = inr (a, g2, sr2) /\ Some [0; 0; 0; 1; 0] = Some a) /\
  snd (OsPath.splitext (OsPath.basename "ref.tif")) = ".tif"%string /\
  wellformed (mkStore [1; 0; 255; 1; 0] [1; 255; 0; 0; 1]
                (Some [0; 0; 0; 1; 0])) /\
  exists o,
    Validation.validate (AF := binary64 sample_libm_exp) uint8 255 255
      (mkStore [1; 0; 255; 1; 0] [1; 255; 0; 0; 1] (Some [0; 0; 0; 1; 0]))
    = (inr o,
       after_run (mkStore [1; 0; 255; 1; 0] [1; 255; 0; 0; 1]
                    (Some [0; 0; 0; 1; 0]))) /\
    Forall (fun c => c = 0 \/ c = 1 \/ c = 2 \/ c = 3 \/ c = 255)
      (res o) /\
    ValidationRun.run (AF := binary64 sample_libm_exp) (C := memory)
      memory_to_csv uint8 "class.tif" "ref.tif" "out" "val.tif"
      "reproj_tmp.shp" "rasterized_val.tif" (Some "val.csv"%string)
      (Some "ex.tif"%string) false sample_world
    = (let file := OsPath.basename "ref.tif" in
       let dict := report_dict file (UA o) (PA o) (Ce o) (Oe o) (CSI o)
                     (F1 o) (SR o) (K o) (A o) in
       match geotiff_write (Collaborators := memory)
               (OsPath.join "out" "val.tif") (res o) 255 tt tt
               sample_world with
       | (inl e, w1) => (inl (IOFailure e), w1)
       | (inr _, w1) =>
           match Some "val.csv"%string with
           | None => (inr dict, w1)
           | Some f =>
               match memory_to_csv (OsPath.join "out" f) columns
                       [report_row file (UA o) (PA o) (Ce o) (Oe o)
                          (CSI o) (F1 o) (SR o) (K o) (A o)] w1 with
               | (inl e, w2) => (inl (IOFailure e), w2)
               | (inr _, w2) => (inr dict, w2)
               end
           end
       end).
Proof.
  split; [reflexivity|]. split; [reflexivity|].
  split; [do 3 eexists; split; reflexivity|].
  split; [reflexivity|]. split; [exact sample_world_wellformed|].
  apply (run_on_raster_reference (C := memory) sample_libm_exp
           memory_to_csv uint8 "class.tif" "ref.tif" "out" "val.tif"
           "reproj_tmp.shp" "rasterized_val.tif" (Some "val.csv"%string)
           (Some "ex.tif"%string) false sample_world
           [1; 0; 255; 1; 0] [1; 255; 0; 0; 1] (Some [0; 0; 0; 1; 0])
           tt tt tt tt).
  - reflexivity.
  - reflexivity.
  - do 3 eexists; split; reflexivity.
  - reflexivity.
  - exact sample_world_wellformed.
Defined.

Lemma worker_run_on_rasterized_reference_witness :
  read_file (Collaborators := memory) "class.tif" sample_world
  = inr ([1; 0; 255; 1; 0], tt, tt) /\
  (exists a g2 sr2,
     read_file (Collaborators := memory) "ex.tif" sample_world
     = inr (a, g2, sr2) /\ Some [0; 0; 0; 1; 0] = Some a) /\
  rasterize (Collaborators := memory)
    (ogr_open (Collaborators := memory) "ref.shp" sample_world)
    "rasterized_val.tif" [1; 0; 255; 1; 0] tt tt "reproj_tmp.shp"
    sample_world
  = (inr [1; 255; 0; 0; 1],
     (("rasterized_val.tif"%string, [1; 255; 0; 0; 1]) :: fst sample_world,
      snd sample_world)) /\
  wellformed (mkStore [1; 0; 255; 1; 0] [1; 255; 0; 0; 1]
                (Some [0; 0; 0; 1; 0])) /\
  exists o,
    Worker.validate (AF := binary64 sample_libm_exp) uint8 255 255
      (mkStore [1; 0; 255; 1; 0] [1; 255; 0; 0; 1] (Some [0; 0; 0; 1; 0]))
    = (inr o,
       after_run (mkStore [1; 0; 255; 1; 0] [1; 255; 0; 0; 1]
                    (Some [0; 0; 0; 1; 0]))) /\
    Forall (fun c => c = 0 \/ c = 1 \/ c = 2 \/ c = 3 \/ c = 255)
      (res o) /\
    WorkerRun.run (AF := binary64 sample_libm_exp) (C := memory)
      memory_to_csv uint8 "class.tif" "ref.shp" "val.tif" "reproj_tmp.shp"
      "rasterized_val.tif" "val.csv" (Some "ex.tif"%string) sample_world
    = match save_file (Collaborators := memory) "val.tif" (res o) 255 tt tt
              (("rasterized_val.tif"%string, [1; 255; 0; 0; 1])
                 :: fst sample_world, snd sample_world) with
      | (inl e, w2) => (inl (IOFailure e), w2)
      | (inr _, w2) =>
          match memory_to_csv "val.csv" columns
                  [report_row "result 1" (UA o) (PA o) (Ce o) (Oe o)
                     (CSI o) (F1 o) (SR o) (K o) (A o)] w2 with
          | (inl e, w3) => (inl (IOFailure e), w3)
          | (inr u, w3) => (inr u, w3)
          end
      end.
Proof.
  split; [reflexivity|].
  split; [do 3 eexists; split; reflexivity|].
  split; [reflexivity|]. split; [exact sample_world_wellformed|].
  apply (worker_run_on_rasterized_reference (C := memory) sample_libm_exp
           memory_to_csv uint8 "class.tif" "ref.shp" "val.tif"
           "reproj_tmp.shp" "rasterized_val.tif" "val.csv"
           (Some "ex.tif"%string) sample_world
           (("rasterized_val.tif"%string, [1; 255; 0; 0; 1])
              :: fst sample_world, snd sample_world)
           [1; 0; 255; 1; 0] [1; 255; 0; 0; 1] (Some [0; 0; 0; 1; 0])
           tt tt).
  - reflexivity.
  - do 3 eexists; split; reflexivity.
  - reflexivity.
  - exact sample_world_wellformed.
Defined.

Lemma validate_raster_fails_after_saving_witness :
  read_file (Collaborators := memory) "class.tif" sample_world
  = inr ([1; 0; 255; 1; 0], tt, tt) /\
  read_file (Collaborators := memory) "ref.tif" sample_world
  = inr ([1; 255; 0; 0; 1], tt, tt) /\
  shapes_agree (mkStore [1; 0; 255; 1; 0] [1; 255; 0; 0; 1] None) = true /\
  size_ok (mkStore [1; 0; 255; 1; 0] [1; 255; 0; 0; 1] None) = true /\
  WorkerRun.validate_raster (AF := binary64 sample_libm_exp) (C := memory)
    uint8 "class.tif" "ref.tif" "res.tif" None sample_world
  = match save_file (Collaborators := memory) "res.tif"
            (difference uint8 255 255
               (mkStore [1; 0; 255; 1; 0] [1; 255; 0; 0; 1] None))
            255 tt tt sample_world with
    | (inl e, w1) => (inl (IOFailure e), w1)
    | (inr _, w1) => (inl (NameError "file_name"), w1)
    end.
Proof.
  split; [reflexivity|]. split; [reflexivity|].
  split; [reflexivity|]. split; [reflexivity|].
  apply (validate_raster_fails_after_saving (C := memory) sample_libm_exp
           uint8 "class.tif" "ref.tif" "res.tif" None sample_world
           [1; 0; 255; 1; 0] [1; 255; 0; 0; 1] None tt tt tt tt);
    reflexivity.
Defined.

(* ================================================================= *)
(** * Witnesses of the guarantee, and the frame of a run *)

Lemma guarantee_at_default_sentinels_witness :
  shapes_agree sample_nodata = true /\ size_ok sample_nodata = true /\
  Forall (fun d => d = 0 \/ d = 1 \/ d = 255) (data sample_nodata) /\
  Forall (fun v => v = 0 \/ v = 1 \/ v = 255) (val_data sample_nodata) /\
  exists out,
    Validation.validate (AF := binary64 sample_libm_exp) uint8 255 255
      sample_nodata
    = (inr out, after_run sample_nodata) /\
    count_valid_coded (res out) (valid out) = count_valid (valid out) /\
    forall i, (i < length (data sample_nodata))%nat ->
              flag (valid out) i = false -> cell (res out) i = 255.
Proof.
  assert (Hd : Forall (fun d => d = 0 \/ d = 1 \/ d = 255)
                 (data sample_nodata))
    by (repeat (apply Forall_cons; [lia|]); apply Forall_nil).
  assert (Hv : Forall (fun v => v = 0 \/ v = 1 \/ v = 255)
                 (val_data sample_nodata))
    by (repeat (apply Forall_cons; [lia|]); apply Forall_nil).
  split; [reflexivity|]. split; [reflexivity|].
  split; [exact Hd|]. split; [exact Hv|].
  exact (guarantee_at_default_sentinels sample_libm_exp uint8 sample_nodata
           eq_refl eq_refl Hd Hv).
Defined.

Lemma invalid_cells_hold_255_witness :
  shapes_agree sample_sentinels = true /\ size_ok sample_sentinels = true /\
  Forall (fun d => d = 0 \/ d = 1 \/ d = 7) (data sample_sentinels) /\
  Forall (fun v => v = 0 \/ v = 1 \/ v = 255) (val_data sample_sentinels) /\
  exists out,
    Validation.validate (AF := binary64 sample_libm_exp) uint8 7 255
      sample_sentinels
    = (inr out, after_run sample_sentinels) /\
    forall i, (i < length (data sample_sentinels))%nat ->
              flag (valid out) i = false -> cell (res out) i = 255.
Proof.
  assert (Hd : Forall (fun d => d = 0 \/ d = 1 \/ d = 7)
                 (data sample_sentinels))
    by (repeat (apply Forall_cons; [lia|]); apply Forall_nil).
  assert (Hv : Forall (fun v => v = 0 \/ v = 1 \/ v = 255)
                 (val_data sample_sentinels))
    by (repeat (apply Forall_cons; [lia|]); apply Forall_nil).
  split; [reflexivity|]. split; [reflexivity|].
  split; [exact Hd|]. split; [exact Hv|].
  exact (invalid_cells_hold_255 sample_libm_exp uint8 7 255 sample_sentinels
           eq_refl eq_refl Hd Hv).
Defined.

(** What a run on arrays of one shape does to the caller's arrays,
    whether it returns or raises in the metrics: the reference and the
    mask are never written, the data array keeps its shape, receives 255
    at the cells the mask selects and keeps every other cell; without
    mask nothing changes at all. *)
Theorem caller_arrays_after_run
  {F : Type} {AF : Arith F} (t : dtype) (data_nodata val_nodata : Z)
  (s : store) :
  shapes_agree s = true ->
  let s' := snd (Validation.validate t data_nodata val_nodata s) in
  val_data s' = val_data s /\
  mask s' = mask s /\
  length (data s') = length (data s) /\
  (mask s = None -> s' = s) /\
  forall i, (i < length (data s))%nat ->
    cell (data s') i = if excluded s i then 255 else cell (data s) i.
Proof.
  intros Hs s'.
  destruct (run_frame t data_nodata val_nodata s Hs)
    as (E & Hv & Hm & Hnone & Hcell).
  unfold s'. rewrite E.
  split; [exact Hv|]. split; [exact Hm|].
  split; [exact (length_masked_data s Hs)|].
  split; [exact Hnone|exact Hcell].
Qed.

Lemma caller_arrays_after_run_witness :
  shapes_agree scenario2 = true /\
  let s' := snd (Validation.validate (AF := binary64 sample_libm_exp)
                   uint8 255 255 scenario2) in
  val_data s' = val_data scenario2 /\
  mask s' = mask scenario2 /\
  length (data s') = length (data scenario2) /\
  (mask scenario2 = None -> s' = scenario2) /\
  forall i, (i < length (data scenario2))%nat ->
    cell (data s') i =
    if excluded scenario2 i then 255 else cell (data scenario2) i.
Proof.
  split; [reflexivity|].
  exact (caller_arrays_after_run (AF := binary64 sample_libm_exp)
           uint8 255 255 scenario2 eq_refl).
Defined.
